(** * Vault swap pipeline: transaction construction, relay submission and
      deposit dispatch.

    A shallow embedding of [lib/swap.ts] (the swap transaction builders and
    the guarded submission) and of [app/api/webhook/route.ts] (the deposit
    dispatcher), together with the properties of the instruction encoding,
    the fee estimate, the account list and the dispatcher's error handling.

    Further on: the whole endpoint of [app/api/webhook/route.ts] with its
    four formats, [lib/webhook-management.ts], [lib/relayer.ts],
    [lib/vault.ts] and [lib/initialize-vault-client.ts], as asynchronous
    programs over their own calls. *)

From Stdlib Require Import ZArith List String Ascii Lia Bool.
From Stdlib.Strings Require Import Byte.
From Stdlib Require Import DecimalString.
From Stdlib Require Import Permutation.
Import ListNotations.

Local Open Scope string_scope.
Local Open Scope Z_scope.

(* ================================================================== *)
(** ** Errors and fallible pure code *)

(** A thrown JavaScript [Error] object, identified by its message. *)
Inductive Err : Type :=
| Error (message : string).

Definition message (e : Err) : string :=
  match e with Error m => m end.

(** The outcome of evaluating an expression that may throw. *)
Inductive Outcome (A : Type) : Type :=
| Returned (a : A)
| Thrown (e : Err).

Arguments Returned {A} a.
Arguments Thrown {A} e.

Definition obind {A B} (o : Outcome A) (k : A -> Outcome B) : Outcome B :=
  match o with
  | Returned a => k a
  | Thrown e => Thrown e
  end.

Declare Scope outcome_scope.
Delimit Scope outcome_scope with outcome.
Notation "x <-- o ;; k" := (obind o (fun x => k))
  (at level 61, o at next level, right associativity) : outcome_scope.

(** [BigInt.prototype.toString] and [Number.prototype.toString] on an
    integer: the decimal representation. *)
Definition Z_toString (z : Z) : string :=
  NilZero.string_of_int (Z.to_int z).

(* ================================================================== *)
(** ** Buffers *)

Module Buffer.

(** A Node [Buffer]: a sequence of octets. *)
Definition t : Type := list byte.

Definition byte_of_Z (z : Z) : byte :=
  match Byte.of_N (Z.to_N (z mod 256)) with
  | Some b => b
  | None => x00
  end.

Definition Z_of_byte (b : byte) : Z := Z.of_N (Byte.to_N b).

(** [Buffer.from(array)]: every entry is truncated to an octet. *)
Definition from (l : list Z) : t := map byte_of_Z l.

(** [Buffer.concat]. *)
Definition concat (bs : list t) : t := List.concat bs.

(** The [w] low-order octets of [n], least significant first. *)
Fixpoint le_bytes (w : nat) (n : Z) : t :=
  match w with
  | O => []
  | S w' => byte_of_Z (n mod 256) :: le_bytes w' (n / 256)
  end.

(** [buf.writeUInt32LE(value, 0)] on a fresh 4-octet buffer: a value
    outside the unsigned 32-bit range raises a [RangeError]. *)
Definition writeUInt32LE (value : Z) : Outcome t :=
  if (0 <=? value) && (value <=? 4294967295)
  then Returned (le_bytes 4 value)
  else Thrown (Error "The value of value is out of range.").

(** Reading an octet string as a little-endian unsigned integer. *)
Fixpoint le_value (b : t) : Z :=
  match b with
  | [] => 0
  | x :: r => Z_of_byte x + 256 * le_value r
  end.

End Buffer.

(* ================================================================== *)
(** ** Big numbers ([bn.js]) *)

Module BN.

(** [bn.byteLength()]: the number of octets of the magnitude. *)
Definition byteLength (n : Z) : nat :=
  if Z.abs n =? 0 then O
  else Z.to_nat ((Z.log2 (Z.abs n) + 8) / 8).

(** [bn.toArrayLike(Buffer, "le", length)]: the magnitude, least
    significant octet first, zero padded to [length] octets; a magnitude
    that needs more octets fails the library's assertion. *)
Definition toArrayLike_le (n : Z) (length : nat) : Outcome Buffer.t :=
  if (byteLength n <=? length)%nat
  then Returned (Buffer.le_bytes length (Z.abs n))
  else Thrown (Error "byte array longer than desired length").

End BN.

(* ================================================================== *)
(** ** Instruction payloads *)

(** Discriminator of [swap_to_cbbtc]. *)
Definition discriminator : Buffer.t :=
  Buffer.from [73; 17; 223; 215; 78; 128; 160; 80].

(** Discriminator of [swap_fee_to_sol]. *)
Definition swapFeeToSolDiscriminator : Buffer.t :=
  Buffer.from [98; 85; 227; 2; 32; 184; 191; 80].

(** Discriminator of [cover_transaction_fees]. *)
Definition coverFeeDiscriminator : Buffer.t :=
  Buffer.from [64; 23; 219; 120; 75; 63; 68; 190].

(** The instruction data of both swap calls: the length prefix is written
    first, then the two amounts are serialised, then everything is
    concatenated behind the discriminator. *)
Definition swapInstructionData (disc : Buffer.t) (amount minAmountOut : Z)
    (jupiterSwapData : Buffer.t) : Outcome Buffer.t :=
  (jupiterDataLength <--
     Buffer.writeUInt32LE (Z.of_nat (List.length jupiterSwapData)) ;;
   amountInBuf <-- BN.toArrayLike_le amount 8 ;;
   minAmountOutBuf <-- BN.toArrayLike_le minAmountOut 8 ;;
   let argsBuffer :=
     Buffer.concat [amountInBuf; minAmountOutBuf; jupiterDataLength;
                    jupiterSwapData] in
   Returned (Buffer.concat [disc; argsBuffer]))%outcome.

(** The instruction data of [cover_transaction_fees]. *)
Definition coverFeeData (estimatedFee : Z) : Outcome Buffer.t :=
  (coverFeeArgs <-- BN.toArrayLike_le estimatedFee 8 ;;
   Returned (Buffer.concat [coverFeeDiscriminator; coverFeeArgs]))%outcome.

(* ================================================================== *)
(** ** JavaScript values read from JSON *)

(** The values a JSON field of the upstream responses can hold, as far as
    the pipeline inspects them; [JsFraction] is a number with a fractional
    part, kept with its decimal text. *)
Inductive JsValue : Type :=
| JsUndefined
| JsNull
| JsString (s : string)
| JsInt (n : Z)
| JsFraction (text : string).

(** Truthiness, as used by [||]. *)
Definition truthy (v : JsValue) : bool :=
  match v with
  | JsUndefined | JsNull => false
  | JsString s => negb (s =? "")%string
  | JsInt n => negb (n =? 0)
  | JsFraction _ => true
  end.

(** [a || b]. *)
Definition js_or (a b : JsValue) : JsValue :=
  if truthy a then a else b.

(** Template-literal interpolation of a value. *)
Definition JsValue_toString (v : JsValue) : string :=
  match v with
  | JsUndefined => "undefined"
  | JsNull => "null"
  | JsString s => s
  | JsInt n => Z_toString n
  | JsFraction text => text
  end.

Module BigInt.

Definition digit (c : ascii) : option Z :=
  let n := Z.of_N (N_of_ascii c) in
  if (48 <=? n) && (n <=? 57) then Some (n - 48)
  else if (97 <=? n) && (n <=? 102) then Some (n - 87)
  else if (65 <=? n) && (n <=? 70) then Some (n - 55)
  else None.

Fixpoint digits (radix : Z) (s : string) (acc : Z) : option Z :=
  match s with
  | EmptyString => Some acc
  | String c r =>
      match digit c with
      | Some d => if d <? radix then digits radix r (acc * radix + d) else None
      | None => None
      end
  end.

(** A non-empty digit string in the given radix. *)
Definition numeral (radix : Z) (s : string) : option Z :=
  match s with
  | EmptyString => None
  | _ => digits radix s 0
  end.

Definition is_space (c : ascii) : bool :=
  let n := N_of_ascii c in
  ((n =? 32) || ((9 <=? n) && (n <=? 13)))%N.

Fixpoint trim_start (s : string) : string :=
  match s with
  | String c r => if is_space c then trim_start r else s
  | EmptyString => EmptyString
  end.

Fixpoint rev_string (s acc : string) : string :=
  match s with
  | EmptyString => acc
  | String c r => rev_string r (String c acc)
  end.

Definition trim (s : string) : string :=
  rev_string (trim_start (rev_string (trim_start s) "")) "".

(** [StringToBigInt]: surrounding white space is dropped; the empty
    string is zero; a [0x], [0o] or [0b] prefix selects the radix of an
    unsigned numeral; otherwise an optionally signed decimal numeral. *)
Definition of_string (s : string) : option Z :=
  match trim s with
  | EmptyString => Some 0
  | String "0" (String ("x" | "X") r) => numeral 16 r
  | String "0" (String ("o" | "O") r) => numeral 8 r
  | String "0" (String ("b" | "B") r) => numeral 2 r
  | String "-" r => option_map Z.opp (numeral 10 r)
  | String "+" r => numeral 10 r
  | t => numeral 10 t
  end.

(** [BigInt(value)]. *)
Definition BigInt (v : JsValue) : Outcome Z :=
  match v with
  | JsInt n => Returned n
  | JsString s =>
      match of_string s with
      | Some n => Returned n
      | None => Thrown (Error ("Cannot convert " ++ s ++ " to a BigInt"))
      end
  | JsFraction text =>
      Thrown (Error ("The number " ++ text ++
                     " cannot be converted to a BigInt because it is not an integer"))
  | JsUndefined => Thrown (Error "Cannot convert undefined to a BigInt")
  | JsNull => Thrown (Error "Cannot convert null to a BigInt")
  end.

End BigInt.

(** [s.includes(sub)]. *)
Definition includes (sub s : string) : bool :=
  match String.index 0 sub s with
  | Some _ => true
  | None => false
  end.

(* ================================================================== *)
(** ** Keys, instructions and transactions *)

(** A public key, identified by its base58 text. *)
Definition PublicKey : Type := string.

Definition PublicKey_equals (a b : PublicKey) : bool := (a =? b)%string.

Definition PROGRAM_ID : PublicKey :=
  "8FaCEp8fDiBwSiqqg2vmNABvTjVfoe65qZLKT9SNGfhA".
Definition JUPITER_PROGRAM_ID : PublicKey :=
  "JUP6LkbZbjS1jKKwapdHNy74zcZ3tLUZoi5QNyVTaV4".
Definition FEE_RECIPIENT : PublicKey :=
  "GongV8jcP3FEP4FejLaXbwuUVewtRLCVY2Uiw8bHVeGC".
Definition WNATIVE_MINT : PublicKey :=
  "So11111111111111111111111111111111111112".
Definition TOKEN_PROGRAM_ID : PublicKey :=
  "TokenkegQfeZyiNwAJbNbGKPFXCWuBvf9Ss623VQ5DA".
Definition SystemProgram_programId : PublicKey :=
  "11111111111111111111111111111111".

Record AccountMeta : Type := mkMeta {
  pubkey : PublicKey;
  isSigner : bool;
  isWritable : bool
}.

Record Instruction : Type := mkInstruction {
  programId : PublicKey;
  keys : list AccountMeta;
  data : Buffer.t
}.

Record Transaction : Type := mkTransaction {
  instructions : list Instruction;
  recentBlockhash : option string;
  feePayer : option PublicKey
}.

Module Tx.
(** [new Transaction()]. *)
Definition empty : Transaction := mkTransaction [] None None.

(** [transaction.add(ix)]: the instruction is pushed at the end. *)
Definition add (t : Transaction) (ix : Instruction) : Transaction :=
  mkTransaction (instructions t ++ [ix]) (recentBlockhash t) (feePayer t).

Definition set_recentBlockhash (t : Transaction) (b : string) : Transaction :=
  mkTransaction (instructions t) (Some b) (feePayer t).

Definition set_feePayer (t : Transaction) (p : PublicKey) : Transaction :=
  mkTransaction (instructions t) (recentBlockhash t) (Some p).
End Tx.

(** What the pipeline takes from its libraries and its configuration:
    the vault address derivation, the associated token address derivation,
    the configured settlement mint, the check made by [new PublicKey(text)],
    and the deserialisation of the aggregator's base64 transaction. *)
Record Env : Type := mkEnv {
  getVaultAddress : PublicKey -> PublicKey;
  getAssociatedTokenAddress : PublicKey -> PublicKey -> PublicKey;
  NEXT_PUBLIC_CBBTC_MINT : PublicKey;
  PublicKey_valid : string -> bool;
  Transaction_from_base64 : string -> Outcome Transaction
}.

(** [new PublicKey(text)]. *)
Definition new_PublicKey (env : Env) (text : string) : Outcome PublicKey :=
  if PublicKey_valid env text then Returned text
  else Thrown (Error "Invalid public key input").

(** [getVaultCbbtcAta] of [lib/vault.ts]. *)
Definition getVaultCbbtcAta (env : Env) (vault : PublicKey) : PublicKey :=
  getAssociatedTokenAddress env (NEXT_PUBLIC_CBBTC_MINT env) vault.

(* ================================================================== *)
(** ** The aggregator's account list *)

(** [vaultAccountMeta.isSigner = true] on the entry [find] returned, the
    first one of the list with the vault's key. *)
Fixpoint markFirstSigner (vault : PublicKey) (accs : list AccountMeta)
  : list AccountMeta :=
  match accs with
  | [] => []
  | acc :: rest =>
      if PublicKey_equals (pubkey acc) vault
      then mkMeta (pubkey acc) true (isWritable acc) :: rest
      else acc :: markFirstSigner vault rest
  end.

(** The copy of the aggregator instruction's keys with the vault ensured:
    marked as signer where present, pushed in front otherwise. *)
Definition ensureVaultSigner (vault : PublicKey) (ixKeys : list AccountMeta)
  : list AccountMeta :=
  let jupiterAccounts :=
    map (fun key => mkMeta (pubkey key) (isSigner key) (isWritable key)) ixKeys in
  match find (fun acc => PublicKey_equals (pubkey acc) vault) jupiterAccounts with
  | None => mkMeta vault true true :: jupiterAccounts
  | Some _ => markFirstSigner vault jupiterAccounts
  end.

(* ================================================================== *)
(** ** Fee split *)

(** [(amount * BigInt(100)) / BigInt(10000)]: [BigInt] division truncates
    toward zero. *)
Definition totalFee (amount : Z) : Z := Z.quot (amount * 100) 10000.

(** [(totalFee * BigInt(4)) / BigInt(10)]. *)
Definition feeToVault (amount : Z) : Z := Z.quot (totalFee amount * 4) 10.

(* ================================================================== *)
(** ** Fee estimate *)

(** [feeEstimate?.value || 50000]: [None] is a [null] or missing value. *)
Definition baseFee (feeEstimateValue : option Z) : Z :=
  match feeEstimateValue with
  | Some v => if v =? 0 then 50000 else v
  | None => 50000
  end.

Definition coverFeeInstructionCost : Z := 10000.

Definition estimatedFee (feeEstimateValue : option Z) : Z :=
  baseFee feeEstimateValue + coverFeeInstructionCost.

(* ================================================================== *)
(** ** Network calls and asynchronous programs *)

(** The body of the quote response that the pipeline reads. *)
Record Quote : Type := mkQuote {
  outAmount : JsValue;
  routePlan : string
}.

(** A [fetch] response: its [ok] flag, and what [text()] and [json()]
    resolve to. *)
Record Response (Body : Type) : Type := mkResponse {
  ok : bool;
  text : Outcome string;
  json : Outcome Body
}.

Arguments mkResponse {Body} ok text json.
Arguments ok {Body} r.
Arguments text {Body} r.
Arguments json {Body} r.

(** The body of the swap response: the base64 transaction. *)
Record SwapData : Type := mkSwapData {
  swapTransaction : string
}.

(** The awaited calls that leave the process. *)
Inductive NetCmd : Type :=
| GetAccount (address : PublicKey)
| GetBalance (address : PublicKey)
| FetchQuote (inputMint outputMint : PublicKey) (amount : Z) (slippageBps : Z)
| FetchSwap (quoteResponse : Quote) (userPublicKey : PublicKey)
| GetRelayerPublicKey
| GetLatestBlockhash
| GetFeeForMessage (probe : Transaction)
| SubmitViaRelayer (transaction : Transaction).

(** What each call resolves to when its promise is fulfilled:
    [GetAccount] to the token amount of the account, [GetFeeForMessage] to
    [feeEstimate?.value]. *)
Definition Answer (c : NetCmd) : Type :=
  match c with
  | GetAccount _ => Z
  | GetBalance _ => Z
  | FetchQuote _ _ _ _ => Response Quote
  | FetchSwap _ _ => Response SwapData
  | GetRelayerPublicKey => PublicKey
  | GetLatestBlockhash => string
  | GetFeeForMessage _ => option Z
  | SubmitViaRelayer _ => string
  end.

(** The settled promise: fulfilled, or rejected with an error. *)
Definition Resp (c : NetCmd) : Type := Outcome (Answer c).

Inductive LogEntry : Type :=
| ConsoleLog (msg : string)
| ConsoleError (msg : string) (e : Err).

(** An asynchronous function body: it returns, throws, awaits a network
    call and continues with the answer, or writes to the console. *)
Inductive Prog (A : Type) : Type :=
| Ret (a : A)
| Throw (e : Err)
| Call (c : NetCmd) (k : Resp c -> Prog A)
| Console (l : LogEntry) (p : Prog A).

Arguments Ret {A} a.
Arguments Throw {A} e.
Arguments Call {A} c k.
Arguments Console {A} l p.

Fixpoint bind {A B} (p : Prog A) (f : A -> Prog B) : Prog B :=
  match p with
  | Ret a => f a
  | Throw e => Throw e
  | Call c k => Call c (fun r => bind (k r) f)
  | Console l q => Console l (bind q f)
  end.

(** [try { p } catch (error) { h error }]. *)
Fixpoint try_catch {A} (p : Prog A) (h : Err -> Prog A) : Prog A :=
  match p with
  | Ret a => Ret a
  | Throw e => h e
  | Call c k => Call c (fun r => try_catch (k r) h)
  | Console l q => Console l (try_catch q h)
  end.

Definition lift {A} (o : Outcome A) : Prog A :=
  match o with
  | Returned a => Ret a
  | Thrown e => Throw e
  end.

(** [await call]: a rejection is rethrown. *)
Definition await (c : NetCmd) : Prog (Answer c) :=
  Call c lift.

Definition console_log (msg : string) : Prog unit :=
  Console (ConsoleLog msg) (Ret tt).

Definition console_error (msg : string) (e : Err) : Prog unit :=
  Console (ConsoleError msg e) (Ret tt).

Declare Scope prog_scope.
Delimit Scope prog_scope with prog.
Notation "x <- p ;; k" := (bind p (fun x => k))
  (at level 61, p at next level, right associativity) : prog_scope.
Notation "p ;;; k" := (bind p (fun _ => k))
  (at level 61, right associativity) : prog_scope.

(** [for (const x of xs) { await body(x) }]. *)
Fixpoint forEach {T} (xs : list T) (body : T -> Prog unit) : Prog unit :=
  match xs with
  | [] => Ret tt
  | x :: rest => bind (body x) (fun _ => forEach rest body)
  end.

(** What a run leaves behind: the calls with their answers and the console
    lines, in order. *)
Inductive Event : Type :=
| NetEvent (c : NetCmd) (r : Resp c)
| LogEvent (l : LogEntry).

Section Run.
(** The outside world: a state and the answer it gives to each call. *)
Variable World : Type.
Variable respond : forall c : NetCmd, World -> Resp c * World.

Fixpoint run {A} (p : Prog A) (w : World) : Outcome A * World * list Event :=
  match p with
  | Ret a => (Returned a, w, [])
  | Throw e => (Thrown e, w, [])
  | Call c k =>
      let (r, w1) := respond c w in
      let '(o, w2, tr) := run (k r) w1 in
      (o, w2, NetEvent c r :: tr)
  | Console l q =>
      let '(o, w1, tr) := run q w in
      (o, w1, LogEvent l :: tr)
  end.
End Run.

Arguments run {World} respond {A} p w.

(* ================================================================== *)
(** ** [lib/swap.ts] *)

Section Pipeline.
Variable env : Env.

Local Open Scope prog_scope.

Definition minRequiredBalance : Z := 100000.

Definition insufficientSol (vaultBalance : Z) : Err :=
  Error ("Vault has insufficient SOL balance: " ++ Z_toString vaultBalance
         ++ " lamports. " ++ "Minimum required: "
         ++ Z_toString minRequiredBalance ++ " lamports (0.0001 SOL). "
         ++ "Fund the vault using the fund_vault_sol instruction first.")%string.

(** The fixed accounts of [swap_to_cbbtc], before the aggregator's. *)
Definition swapFixedKeys (vault vaultOwner inputMint cbbtcMint
    vaultTokenAccount feeTokenAccount cbbtcAta : PublicKey) : list AccountMeta :=
  [ mkMeta vault false false;
    mkMeta vaultOwner false false;
    mkMeta inputMint false false;
    mkMeta cbbtcMint false false;
    mkMeta vaultTokenAccount false true;
    mkMeta feeTokenAccount false true;
    mkMeta cbbtcAta false true;
    mkMeta JUPITER_PROGRAM_ID false false;
    mkMeta TOKEN_PROGRAM_ID false false;
    mkMeta SystemProgram_programId false false ].

(** The fixed accounts of [swap_fee_to_sol], before the aggregator's. *)
Definition swapFeeToSolFixedKeys (vault vaultOwner feeTokenMint
    vaultFeeTokenAccount adminSolAccount : PublicKey) : list AccountMeta :=
  [ mkMeta vault false true;
    mkMeta vaultOwner false false;
    mkMeta feeTokenMint false false;
    mkMeta vaultFeeTokenAccount false true;
    mkMeta adminSolAccount false true;
    mkMeta JUPITER_PROGRAM_ID false false;
    mkMeta TOKEN_PROGRAM_ID false false;
    mkMeta SystemProgram_programId false false ].

(** The accounts of [cover_transaction_fees]. *)
Definition coverFeeKeys (vault vaultOwner relayerPubkey : PublicKey)
  : list AccountMeta :=
  [ mkMeta vault false true;
    mkMeta vaultOwner false false;
    mkMeta relayerPubkey false true;
    mkMeta SystemProgram_programId false false ].

Definition buildSwapTransaction (vaultOwner inputMint : PublicKey)
    (amount : Z) : Prog Transaction :=
  let cbbtcMint := NEXT_PUBLIC_CBBTC_MINT env in
  let vault := getVaultAddress env vaultOwner in
  let vaultTokenAccount := getAssociatedTokenAddress env inputMint vault in
  let feeTokenAccount := getAssociatedTokenAddress env inputMint FEE_RECIPIENT in
  let cbbtcAta := getVaultCbbtcAta env vault in
  (* Check vault has enough tokens *)
  try_catch
    (vaultTokenAccountInfo_amount <- await (GetAccount vaultTokenAccount) ;;
     if vaultTokenAccountInfo_amount <? amount
     then Throw (Error ("Insufficient balance. Vault has "
                        ++ Z_toString vaultTokenAccountInfo_amount
                        ++ ", need " ++ Z_toString amount)%string)
     else Ret tt)
    (fun error =>
       if includes "could not find account" (message error)
       then Throw (Error "Vault token account does not exist")
       else Throw error) ;;;
  (* Check vault has sufficient SOL for transaction fees *)
  vaultBalance <- await (GetBalance vault) ;;
  (if vaultBalance <? minRequiredBalance
   then Throw (insufficientSol vaultBalance)
   else Ret tt) ;;;
  (* Step 1: quote *)
  quoteResponse <- await (FetchQuote inputMint cbbtcMint amount 50) ;;
  (if negb (ok quoteResponse)
   then errorText <- lift (text quoteResponse) ;;
        Throw (Error ("Failed to get quote from Jupiter: " ++ errorText)%string)
   else Ret tt) ;;;
  quote <- lift (json quoteResponse) ;;
  minAmountOut <- lift (BigInt.BigInt (js_or (outAmount quote) (JsString "0"))) ;;
  (* Step 2: swap instruction *)
  swapResponse <- await (FetchSwap quote vault) ;;
  (if negb (ok swapResponse)
   then errorText <- lift (text swapResponse) ;;
        Throw (Error ("Failed to get swap transaction from Jupiter: "
                      ++ errorText)%string)
   else Ret tt) ;;;
  swapData <- lift (json swapResponse) ;;
  (* Step 3: extract the aggregator instruction *)
  swapTransaction <- lift (Transaction_from_base64 env (swapTransaction swapData)) ;;
  match find (fun ix => PublicKey_equals (programId ix) JUPITER_PROGRAM_ID)
             (instructions swapTransaction) with
  | None => Throw (Error "Jupiter swap instruction not found in transaction")
  | Some jupiterInstruction =>
      let jupiterSwapData := data jupiterInstruction in
      let jupiterAccounts := ensureVaultSigner vault (keys jupiterInstruction) in
      (* Step 6: the swap_to_cbbtc instruction *)
      instructionData <-
        lift (swapInstructionData discriminator amount minAmountOut
                                  jupiterSwapData) ;;
      let swapInstruction :=
        mkInstruction PROGRAM_ID
          (swapFixedKeys vault vaultOwner inputMint cbbtcMint
                         vaultTokenAccount feeTokenAccount cbbtcAta
           ++ jupiterAccounts)
          instructionData in
      relayerPubkey <- await GetRelayerPublicKey ;;
      let tempTransaction := Tx.add Tx.empty swapInstruction in
      blockhash <- await GetLatestBlockhash ;;
      let tempTransaction := Tx.set_recentBlockhash tempTransaction blockhash in
      let tempTransaction := Tx.set_feePayer tempTransaction relayerPubkey in
      (* Estimate transaction fee for the swap instruction *)
      feeEstimate <- await (GetFeeForMessage tempTransaction) ;;
      let estimatedFee := estimatedFee feeEstimate in
      coverFeeData <- lift (coverFeeData estimatedFee) ;;
      let coverFeeInstruction :=
        mkInstruction PROGRAM_ID (coverFeeKeys vault vaultOwner relayerPubkey)
                      coverFeeData in
      (* cover fee instruction first, then swap instruction *)
      let transaction := Tx.empty in
      let transaction := Tx.add transaction coverFeeInstruction in
      let transaction := Tx.add transaction swapInstruction in
      let transaction := Tx.set_recentBlockhash transaction blockhash in
      let transaction := Tx.set_feePayer transaction relayerPubkey in
      Ret transaction
  end.

Definition submitSwapWithVaultFees (transaction : Transaction)
    (vault : PublicKey) : Prog string :=
  vaultBalance <- await (GetBalance vault) ;;
  (if vaultBalance <? minRequiredBalance
   then Throw (insufficientSol vaultBalance)
   else Ret tt) ;;;
  await (SubmitViaRelayer transaction).

Definition buildSwapFeeToSolTransaction (vaultOwner feeTokenMint : PublicKey)
    (feeAmount : Z) : Prog Transaction :=
  let vault := getVaultAddress env vaultOwner in
  let vaultFeeTokenAccount := getAssociatedTokenAddress env feeTokenMint vault in
  let adminSolAccount := FEE_RECIPIENT in
  (* Step 1: quote *)
  quoteResponse <- await (FetchQuote feeTokenMint WNATIVE_MINT feeAmount 50) ;;
  (if negb (ok quoteResponse)
   then errorText <- lift (text quoteResponse) ;;
        Throw (Error ("Failed to get quote for fee-to-SOL swap from Jupiter: "
                      ++ errorText)%string)
   else Ret tt) ;;;
  quote <- lift (json quoteResponse) ;;
  minAmountOut <- lift (BigInt.BigInt (js_or (outAmount quote) (JsString "0"))) ;;
  (* Step 2: swap instruction *)
  swapResponse <- await (FetchSwap quote vault) ;;
  (if negb (ok swapResponse)
   then errorText <- lift (text swapResponse) ;;
        Throw (Error ("Failed to get fee-to-SOL swap transaction from Jupiter: "
                      ++ errorText)%string)
   else Ret tt) ;;;
  swapData <- lift (json swapResponse) ;;
  (* Step 3: extract the aggregator instruction *)
  swapTransaction <- lift (Transaction_from_base64 env (swapTransaction swapData)) ;;
  match find (fun ix => PublicKey_equals (programId ix) JUPITER_PROGRAM_ID)
             (instructions swapTransaction) with
  | None => Throw (Error "Jupiter swap instruction not found for fee-to-SOL swap")
  | Some jupiterInstruction =>
      let jupiterSwapData := data jupiterInstruction in
      let jupiterAccounts := ensureVaultSigner vault (keys jupiterInstruction) in
      (* Step 4: the swap_fee_to_sol instruction *)
      instructionData <-
        lift (swapInstructionData swapFeeToSolDiscriminator feeAmount
                                  minAmountOut jupiterSwapData) ;;
      let swapFeeToSolInstruction :=
        mkInstruction PROGRAM_ID
          (swapFeeToSolFixedKeys vault vaultOwner feeTokenMint
                                 vaultFeeTokenAccount adminSolAccount
           ++ jupiterAccounts)
          instructionData in
      let tempTransaction := Tx.add Tx.empty swapFeeToSolInstruction in
      relayerPubkey <- await GetRelayerPublicKey ;;
      blockhash <- await GetLatestBlockhash ;;
      let tempTransaction := Tx.set_recentBlockhash tempTransaction blockhash in
      let tempTransaction := Tx.set_feePayer tempTransaction relayerPubkey in
      feeEstimate <- await (GetFeeForMessage tempTransaction) ;;
      let estimatedFee := estimatedFee feeEstimate in
      coverFeeData <- lift (coverFeeData estimatedFee) ;;
      let coverFeeInstruction :=
        mkInstruction PROGRAM_ID (coverFeeKeys vault vaultOwner relayerPubkey)
                      coverFeeData in
      (* cover fee instruction first, then swap_fee_to_sol instruction *)
      let transaction := Tx.empty in
      let transaction := Tx.add transaction coverFeeInstruction in
      let transaction := Tx.add transaction swapFeeToSolInstruction in
      let transaction := Tx.set_recentBlockhash transaction blockhash in
      let transaction := Tx.set_feePayer transaction relayerPubkey in
      Ret transaction
  end.

End Pipeline.

(* ================================================================== *)
(** ** [app/api/webhook/route.ts] *)

(** An entry of [tx.tokenTransfers]. *)
Record TokenTransfer : Type := mkTokenTransfer {
  toTokenAccount : string;
  mint : string;
  tokenAmount : JsValue
}.

(** An entry of [tx.nativeTransfers]. *)
Record NativeTransfer : Type := mkNativeTransfer {
  toUserAccount : string;
  amount : JsValue
}.

(** A Helius enhanced transaction; a missing transfer array is the empty
    list ([tx.tokenTransfers || []]). *)
Record HeliusTransaction : Type := mkHeliusTransaction {
  type : string;
  signature : string;
  tokenTransfers : list TokenTransfer;
  nativeTransfers : list NativeTransfer
}.

(** The JSON reply of the endpoint. *)
Record Reply : Type := mkReply {
  status : Z;
  reply_message : string
}.

Section Dispatcher.
Variable env : Env.

(** The vault membership check and the owner lookup.  The source has
    stand-ins for both ([isVaultAddress] and [getVaultOwnerFromAddress]
    below, neither of which awaits anything); the dispatcher is written
    over any pair of them. *)
Variable isVault : string -> bool.
Variable ownerOf : string -> option PublicKey.

Local Open Scope prog_scope.

(** The body of the [try] block: the primary swap, then the conversion of
    the vault's share of the fee. *)
Definition swapAttempt (vaultOwner : PublicKey) (mint : string) (amount : Z)
  : Prog unit :=
  inputMint <- lift (new_PublicKey env mint) ;;
  swapTransaction <- buildSwapTransaction env vaultOwner inputMint amount ;;
  (* Submit swap transaction via relayer (vault pays fees) *)
  swapTxSignature <-
    submitSwapWithVaultFees swapTransaction (getVaultAddress env vaultOwner) ;;
  console_log ("Swap transaction submitted: " ++ swapTxSignature)%string ;;;
  let totalFee := totalFee amount in
  let feeToVault := feeToVault amount in
  if feeToVault >? 0
  then
    feeTokenMint <- lift (new_PublicKey env mint) ;;
    feeToSolTransaction <-
      buildSwapFeeToSolTransaction env vaultOwner feeTokenMint feeToVault ;;
    feeToSolTxSignature <-
      submitSwapWithVaultFees feeToSolTransaction
                              (getVaultAddress env vaultOwner) ;;
    console_log ("Fee-to-SOL swap transaction submitted: "
                 ++ feeToSolTxSignature)%string ;;;
    console_log ("40% fee (" ++ Z_toString feeToVault
                 ++ " tokens) swapped to SOL, split: 60% to admin, 40% to vault")%string
  else Ret tt.

(** [try { ... } catch (error) { console.error("Swap failed:", error) }]. *)
Definition guardedSwap (vaultOwner : PublicKey) (mint : string) (amount : Z)
  : Prog unit :=
  try_catch (swapAttempt vaultOwner mint amount)
            (fun error => console_error "Swap failed:" error).

(** One iteration of the loop over [tx.tokenTransfers]. *)
Definition processTokenTransferWith (transfer : TokenTransfer) : Prog unit :=
  let toAddress := toTokenAccount transfer in
  if isVault toAddress then
    match ownerOf toAddress with
    | Some vaultOwner =>
        let mint := mint transfer in
        amount <- lift (BigInt.BigInt (tokenAmount transfer)) ;;
        let cbbtcMint := NEXT_PUBLIC_CBBTC_MINT env in
        if negb (mint =? cbbtcMint)%string && (amount >? 0)
        then
          console_log ("SPL token transfer detected: " ++ Z_toString amount
                       ++ " of " ++ mint ++ " to vault")%string ;;;
          guardedSwap vaultOwner mint amount
        else Ret tt
    | None => Ret tt
    end
  else Ret tt.

(** One iteration of the loop over [tx.nativeTransfers]. *)
Definition processNativeTransferWith (transfer : NativeTransfer) : Prog unit :=
  let toAddress := toUserAccount transfer in
  if isVault toAddress then
    console_log ("SOL transfer detected: " ++ JsValue_toString (amount transfer)
                 ++ " lamports to vault")%string
  else Ret tt.

Definition processHeliusTransactionWith (tx : HeliusTransaction) : Prog unit :=
  forEach (tokenTransfers tx) processTokenTransferWith ;;;
  forEach (nativeTransfers tx) processNativeTransferWith.

Definition isTransferOrSwap (t : string) : bool :=
  ((t =? "TRANSFER") || (t =? "SWAP"))%string.

(** The branches of [POST] for the other webhook formats (account
    changes, QuickNode, generic transactions), which do not reach the
    swap pipeline. *)
Variable otherFormats : HeliusTransaction -> Prog Reply.

(** [POST]: a body whose [type] is [TRANSFER] or [SWAP] is an object, so
    the batch is the singleton [[body]]; anything thrown is answered with
    status 500. *)
Definition POSTWith (body : HeliusTransaction) : Prog Reply :=
  try_catch
    (if isTransferOrSwap (type body)
     then
       let transactions := [body] in
       forEach transactions
         (fun tx => if isTransferOrSwap (type tx)
                    then processHeliusTransactionWith tx
                    else Ret tt) ;;;
       Ret (mkReply 200 "Processed Helius transaction webhook")
     else otherFormats body)
    (fun error =>
       Console (ConsoleError "Webhook error:" error)
         (Ret (mkReply 500 (if (message error =? "")%string
                            then "Internal server error"
                            else message error)))).

(** [isVaultAddress]: the address parses as a public key. *)
Definition isVaultAddress (address : string) : bool :=
  match new_PublicKey env address with
  | Returned pubkey => true
  | Thrown _ => false
  end.

(** [getVaultOwnerFromAddress]: the stand-in answers [null]. *)
Definition getVaultOwnerFromAddress (vaultAddress : string) : option PublicKey :=
  None.

End Dispatcher.

(** The dispatcher of the source, over its own two lookups. *)
Definition processHeliusTransaction (env : Env) (tx : HeliusTransaction)
  : Prog unit :=
  processHeliusTransactionWith env (isVaultAddress env) getVaultOwnerFromAddress tx.

Definition POST (env : Env) (otherFormats : HeliusTransaction -> Prog Reply)
    (body : HeliusTransaction) : Prog Reply :=
  POSTWith env (isVaultAddress env) getVaultOwnerFromAddress otherFormats body.

(* ================================================================== *)
(** ** Reading a run *)

(** A call that leaves the process: a ledger read, a request to the
    aggregator, a fee probe or a submission. *)
Definition isPipelineCall (ev : Event) : bool :=
  match ev with
  | NetEvent _ _ => true
  | LogEvent _ => false
  end.

(** [s.startsWith(pre)]. *)
Fixpoint startsWith (pre s : string) : bool :=
  match pre with
  | EmptyString => true
  | String c pre' =>
      match s with
      | String d s' => Ascii.eqb c d && startsWith pre' s'
      | EmptyString => false
      end
  end.

(** The console line of a submitted primary swap. *)
Definition isSwapSubmitted (ev : Event) : bool :=
  match ev with
  | LogEvent (ConsoleLog msg) => startsWith "Swap transaction submitted: " msg
  | _ => false
  end.

(** The console line of a failed swap attempt. *)
Definition isSwapFailed (ev : Event) : bool :=
  match ev with
  | LogEvent (ConsoleError msg _) => (msg =? "Swap failed:")%string
  | _ => false
  end.

Definition count (f : Event -> bool) (tr : list Event) : nat :=
  List.length (filter f tr).


(* ================================================================== *)
(** ** The remote program's view of a swap payload *)

(** Modelled from the spec: the remote program's deserialisation of a swap
    payload is not part of the sources at hand.  It skips the 8-byte
    discriminator, reads a little-endian u64, a little-endian u64, a
    little-endian u32 length, and that many bytes. *)
Definition decodeSwapPayload (payload : Buffer.t)
  : option (Z * Z * Buffer.t) :=
  let args := skipn 8 payload in
  let amountIn := firstn 8 args in
  let rest := skipn 8 args in
  let minAmountOut := firstn 8 rest in
  let rest := skipn 8 rest in
  let routeLen := firstn 4 rest in
  let rest := skipn 4 rest in
  if (List.length payload <? 28)%nat then None
  else
    let n := Z.to_nat (Buffer.le_value routeLen) in
    if (List.length rest <? n)%nat then None
    else Some (Buffer.le_value amountIn, Buffer.le_value minAmountOut,
               firstn n rest).

(* ================================================================== *)
(** ** Both legs of the pipeline *)

(** The two swap transactions the pipeline assembles. *)
Inductive Leg : Type :=
| Primary          (* buildSwapTransaction *)
| FeeConversion.   (* buildSwapFeeToSolTransaction *)

Definition buildLeg (env : Env) (leg : Leg) (vaultOwner mint : PublicKey)
    (amount : Z) : Prog Transaction :=
  match leg with
  | Primary => buildSwapTransaction env vaultOwner mint amount
  | FeeConversion => buildSwapFeeToSolTransaction env vaultOwner mint amount
  end.

Definition legDiscriminator (leg : Leg) : Buffer.t :=
  match leg with
  | Primary => discriminator
  | FeeConversion => swapFeeToSolDiscriminator
  end.

Definition legOutputMint (env : Env) (leg : Leg) : PublicKey :=
  match leg with
  | Primary => NEXT_PUBLIC_CBBTC_MINT env
  | FeeConversion => WNATIVE_MINT
  end.

Definition legFixedKeys (env : Env) (leg : Leg) (vaultOwner mint : PublicKey)
  : list AccountMeta :=
  let vault := getVaultAddress env vaultOwner in
  match leg with
  | Primary =>
      swapFixedKeys vault vaultOwner mint (NEXT_PUBLIC_CBBTC_MINT env)
        (getAssociatedTokenAddress env mint vault)
        (getAssociatedTokenAddress env mint FEE_RECIPIENT)
        (getVaultCbbtcAta env vault)
  | FeeConversion =>
      swapFeeToSolFixedKeys vault vaultOwner mint
        (getAssociatedTokenAddress env mint vault) FEE_RECIPIENT
  end.

(** An instruction of the vault program whose data starts with the given
    discriminator. *)
Definition calls (disc : Buffer.t) (ix : Instruction) : Prop :=
  programId ix = PROGRAM_ID /\ firstn 8 (data ix) = disc.

(* ================================================================== *)
(** ** Properties of all runs *)

(** [wp p Q]: whatever the network answers, the outcome of [p] and the
    events it leaves satisfy [Q]. *)
Fixpoint wp {A} (p : Prog A) (Q : Outcome A -> list Event -> Prop) : Prop :=
  match p with
  | Ret a => Q (Returned a) []
  | Throw e => Q (Thrown e) []
  | Call c k => forall r : Resp c, wp (k r) (fun o tr => Q o (NetEvent c r :: tr))
  | Console l q => wp q (fun o tr => Q o (LogEvent l :: tr))
  end.

Definition outcome_of {W A} (x : Outcome A * W * list Event) : Outcome A :=
  fst (fst x).

Definition trace_of {W A} (x : Outcome A * W * list Event) : list Event :=
  snd x.

(** The quote requests of a run, by amount. *)
Definition quoteAmounts (tr : list Event) : list Z :=
  flat_map (fun ev => match ev with
                      | NetEvent (FetchQuote _ _ amount _) _ => [amount]
                      | _ => []
                      end) tr.

(** The fulfilled quote requests of a run. *)
Definition fetchedQuotes (tr : list Event) : list (Response Quote) :=
  flat_map (fun ev => match ev with
                      | NetEvent (FetchQuote _ _ _ _) (Returned r) => [r]
                      | _ => []
                      end) tr.

(** The fulfilled swap-instruction requests of a run. *)
Definition fetchedSwaps (tr : list Event) : list (Response SwapData) :=
  flat_map (fun ev => match ev with
                      | NetEvent (FetchSwap _ _) (Returned r) => [r]
                      | _ => []
                      end) tr.

(** The priced probes of a run: the probe transaction and the value the
    network gave for it. *)
Definition feeProbes (tr : list Event) : list (Transaction * option Z) :=
  flat_map (fun ev => match ev with
                      | NetEvent (GetFeeForMessage probe) (Returned v) =>
                          [(probe, v : option Z)]
                      | _ => []
                      end) tr.

(** The balances read by a run. *)
Definition balancesRead (tr : list Event) : list (PublicKey * Z) :=
  flat_map (fun ev => match ev with
                      | NetEvent (GetBalance address) (Returned b) => [(address, b : Z)]
                      | _ => []
                      end) tr.

(** The transactions handed to the relay by a run. *)
Definition submissions (tr : list Event) : list Transaction :=
  flat_map (fun ev => match ev with
                      | NetEvent (SubmitViaRelayer t) _ => [t]
                      | _ => []
                      end) tr.

(** The facts of a run of [buildLeg] that returns a transaction. *)
Inductive LegBuilt (env : Env) (leg : Leg) (vaultOwner mint : PublicKey)
    (amount : Z) : Transaction -> list Event -> Prop :=
| LegBuilt_intro
    (preamble : list Event)
    (quoteResponse : Response Quote) (quote : Quote) (minAmountOut : Z)
    (swapResponse : Response SwapData) (swapData : SwapData)
    (aggregatorTx : Transaction) (jupiterInstruction : Instruction)
    (instructionData coverData : Buffer.t)
    (relayerPubkey : PublicKey) (blockhash : string) (feeEstimate : option Z) :
    let vault := getVaultAddress env vaultOwner in
    let swapInstruction :=
      mkInstruction PROGRAM_ID
        (legFixedKeys env leg vaultOwner mint
         ++ ensureVaultSigner vault (keys jupiterInstruction))
        instructionData in
    let coverFeeInstruction :=
      mkInstruction PROGRAM_ID (coverFeeKeys vault vaultOwner relayerPubkey)
                    coverData in
    let probe :=
      mkTransaction [swapInstruction] (Some blockhash) (Some relayerPubkey) in
    match leg with
    | Primary =>
        exists tokens balance,
          preamble =
            [ NetEvent (GetAccount (getAssociatedTokenAddress env mint vault))
                       (Returned tokens);
              NetEvent (GetBalance vault) (Returned balance) ] /\
          amount <= tokens /\ minRequiredBalance <= balance
    | FeeConversion => preamble = []
    end ->
    ok quoteResponse = true ->
    json quoteResponse = Returned quote ->
    BigInt.BigInt (js_or (outAmount quote) (JsString "0")) = Returned minAmountOut ->
    ok swapResponse = true ->
    json swapResponse = Returned swapData ->
    Transaction_from_base64 env (swapTransaction swapData) = Returned aggregatorTx ->
    find (fun ix => PublicKey_equals (programId ix) JUPITER_PROGRAM_ID)
         (instructions aggregatorTx) = Some jupiterInstruction ->
    swapInstructionData (legDiscriminator leg) amount minAmountOut
                        (data jupiterInstruction) = Returned instructionData ->
    coverFeeData (estimatedFee feeEstimate) = Returned coverData ->
    LegBuilt env leg vaultOwner mint amount
      (mkTransaction [coverFeeInstruction; swapInstruction]
                     (Some blockhash) (Some relayerPubkey))
      (preamble ++
       [ NetEvent (FetchQuote mint (legOutputMint env leg) amount 50)
                  (Returned quoteResponse);
         NetEvent (FetchSwap quote vault) (Returned swapResponse);
         NetEvent GetRelayerPublicKey (Returned relayerPubkey);
         NetEvent GetLatestBlockhash (Returned blockhash);
         NetEvent (GetFeeForMessage probe) (Returned feeEstimate) ]).


(** What every run of a swap attempt for the amount [n] satisfies: it
    writes no failure line itself, it writes the submission line of the
    primary swap at most once and exactly once when it returns, and its
    quote requests are for [n] and then for the vault's share of the fee. *)
Definition attemptPost (n : Z) (o : Outcome unit) (tr : list Event) : Prop :=
  count isSwapFailed tr = 0%nat /\
  (o = Returned tt -> count isSwapSubmitted tr = 1%nat) /\
  (count isSwapSubmitted tr <=? 1)%nat = true /\
  (quoteAmounts tr = [] \/ quoteAmounts tr = [n] \/
   quoteAmounts tr = [n; feeToVault n]).

(* ================================================================== *)
(** ** Sample worlds *)

Module Sample.

(** An aggregator transaction: a compute-budget instruction, then the
    aggregator's swap instruction, whose accounts do not list the vault. *)
Definition aggregatorTx : Transaction :=
  mkTransaction
    [ mkInstruction "ComputeBudget111111111111111111111111111111" []
                    [x02; x40; x0d; x03; x00];
      mkInstruction JUPITER_PROGRAM_ID
                    [ mkMeta "pool" false true; mkMeta "user-ata" false true ]
                    [xe5; x17; xcb; x97; x7a; xe3; xad; x2a; x01] ]
    (Some "aggregator-blockhash") (Some "vault-of-owner").

Definition env : Env :=
  mkEnv (fun owner => "vault-of-" ++ owner)%string
        (fun mint owner => "ata-" ++ mint ++ "-" ++ owner)%string
        "cbBTC"
        (fun text => negb (text =? "")%string)
        (fun _ => Returned aggregatorTx).

(** A stateless world: the vault holds [balance] lamports, quotes carry
    [out] as their [outAmount], probes are priced at [fee]; the quote for
    the mint [unlisted] is refused by the aggregator. *)
Definition respond (balance : Z) (out : JsValue) (fee : option Z)
    (c : NetCmd) (w : unit) : Resp c * unit :=
  (match c return Resp c with
   | GetAccount _ => Returned 5000000
   | GetBalance _ => Returned balance
   | FetchQuote inputMint _ _ _ =>
       Returned (mkResponse (negb (inputMint =? "unlisted")%string)
                            (Returned "no route")
                            (Returned (mkQuote out "route")))
   | FetchSwap _ _ =>
       Returned (mkResponse true (Returned "") (Returned (mkSwapData "AQID")))
   | GetRelayerPublicKey => Returned "relayer"%string
   | GetLatestBlockhash => Returned "blockhash"%string
   | GetFeeForMessage _ => Returned fee
   | SubmitViaRelayer _ => Returned "signature"%string
   end, w).

Definition transaction : Transaction :=
  mkTransaction [] (Some "blockhash") (Some "relayer").

Definition deposit : TokenTransfer :=
  mkTokenTransfer "vault-of-owner" "USDC" (JsInt 2000000).


Definition ownerOf (address : string) : option PublicKey :=
  if (address =? "vault-of-owner")%string then Some "owner"%string else None.


Definition single : HeliusTransaction :=
  mkHeliusTransaction "TRANSFER" "deposit-signature" [deposit] [].

End Sample.

(* ================================================================== *)
(** ** Reading a run, continued *)

(** [s] contains the character [c]. *)
Fixpoint hasChar (c : ascii) (s : string) : bool :=
  match s with
  | EmptyString => false
  | String d r => Ascii.eqb c d || hasChar c r
  end.

(** The error texts of the two builders. *)
Definition quoteErrorPrefix (leg : Leg) : string :=
  match leg with
  | Primary => "Failed to get quote from Jupiter: "
  | FeeConversion => "Failed to get quote for fee-to-SOL swap from Jupiter: "
  end.

Definition missingInstructionError (leg : Leg) : string :=
  match leg with
  | Primary => "Jupiter swap instruction not found in transaction"
  | FeeConversion => "Jupiter swap instruction not found for fee-to-SOL swap"
  end.

(** The number of calls a leg makes ahead of its quote request. *)
Definition preambleCalls (leg : Leg) : nat :=
  match leg with
  | Primary => 2
  | FeeConversion => 0
  end.

(** The relay identities and the blockhashes read by a run. *)
Definition relayersRead (tr : list Event) : list PublicKey :=
  flat_map (fun ev => match ev with
                      | NetEvent GetRelayerPublicKey (Returned p) => [p : PublicKey]
                      | _ => []
                      end) tr.

Definition blockhashesRead (tr : list Event) : list string :=
  flat_map (fun ev => match ev with
                      | NetEvent GetLatestBlockhash (Returned b) => [b : string]
                      | _ => []
                      end) tr.

(** The swap-instruction requests of a run, answered or not. *)
Definition swapRequests (tr : list Event) : list PublicKey :=
  flat_map (fun ev => match ev with
                      | NetEvent (FetchSwap _ user) _ => [user]
                      | _ => []
                      end) tr.

(** A transaction that covers its fee first and then swaps, through the
    call named by [disc]. *)
Definition coveredSwap (disc : Buffer.t) (t : Transaction) : Prop :=
  exists coverFee swap,
    instructions t = [coverFee; swap] /\
    calls coverFeeDiscriminator coverFee /\
    calls disc swap.

(** What a swap attempt hands to the relay: nothing, the primary swap, or
    the primary swap and then the fee conversion. *)
Definition attemptSubmissions (ts : list Transaction) : Prop :=
  match ts with
  | [] => True
  | [primary] => coveredSwap discriminator primary
  | [primary; conversion] =>
      coveredSwap discriminator primary /\
      coveredSwap swapFeeToSolDiscriminator conversion
  | _ => False
  end.

(* ================================================================== *)
(** ** Asynchronous programs over any interface *)

(** The shape of [Prog], for the modules that await other calls than the
    swap pipeline: [Cmd] names the calls and [Ans] what each resolves to. *)
Section AsyncPrograms.
Variable Cmd : Type.
Variable Ans : Cmd -> Type.

Inductive Async (A : Type) : Type :=
| ARet (a : A)
| AThrow (e : Err)
| ACall (c : Cmd) (k : Outcome (Ans c) -> Async A)
| ALog (l : LogEntry) (p : Async A).

Arguments ARet {A} a.
Arguments AThrow {A} e.
Arguments ACall {A} c k.
Arguments ALog {A} l p.

Fixpoint abind {A B} (p : Async A) (f : A -> Async B) : Async B :=
  match p with
  | ARet a => f a
  | AThrow e => AThrow e
  | ACall c k => ACall c (fun r => abind (k r) f)
  | ALog l q => ALog l (abind q f)
  end.

(** [try { p } catch (error) { h error }]. *)
Fixpoint atry {A} (p : Async A) (h : Err -> Async A) : Async A :=
  match p with
  | ARet a => ARet a
  | AThrow e => h e
  | ACall c k => ACall c (fun r => atry (k r) h)
  | ALog l q => ALog l (atry q h)
  end.

Definition alift {A} (o : Outcome A) : Async A :=
  match o with
  | Returned a => ARet a
  | Thrown e => AThrow e
  end.

(** [await call]: a rejection is rethrown. *)
Definition aawait (c : Cmd) : Async (Ans c) := ACall c alift.

Definition alog (msg : string) : Async unit := ALog (ConsoleLog msg) (ARet tt).

Definition aerror (msg : string) (e : Err) : Async unit :=
  ALog (ConsoleError msg e) (ARet tt).

(** [for (const x of xs) { await body(x) }]. *)
Fixpoint aforEach {T} (xs : list T) (body : T -> Async unit) : Async unit :=
  match xs with
  | [] => ARet tt
  | x :: rest => abind (body x) (fun _ => aforEach rest body)
  end.

Inductive AEvent : Type :=
| ACalled (c : Cmd) (r : Outcome (Ans c))
| ALogged (l : LogEntry).

Section ARun.
Variable World : Type.
Variable respond : forall c : Cmd, World -> Outcome (Ans c) * World.

Fixpoint arun {A} (p : Async A) (w : World) : Outcome A * World * list AEvent :=
  match p with
  | ARet a => (Returned a, w, [])
  | AThrow e => (Thrown e, w, [])
  | ACall c k =>
      let (r, w1) := respond c w in
      let '(o, w2, tr) := arun (k r) w1 in
      (o, w2, ACalled c r :: tr)
  | ALog l q =>
      let '(o, w1, tr) := arun q w in
      (o, w1, ALogged l :: tr)
  end.
End ARun.

(** [awp p Q]: whatever the calls answer, the outcome of [p] and the events
    it leaves satisfy [Q]. *)
Fixpoint awp {A} (p : Async A) (Q : Outcome A -> list AEvent -> Prop) : Prop :=
  match p with
  | ARet a => Q (Returned a) []
  | AThrow e => Q (Thrown e) []
  | ACall c k => forall r, awp (k r) (fun o tr => Q o (ACalled c r :: tr))
  | ALog l q => awp q (fun o tr => Q o (ALogged l :: tr))
  end.

Definition isCalled (ev : AEvent) : bool :=
  match ev with
  | ACalled _ _ => true
  | ALogged _ => false
  end.

End AsyncPrograms.

Arguments ARet {Cmd Ans A} a.
Arguments AThrow {Cmd Ans A} e.
Arguments ACall {Cmd Ans A} c k.
Arguments ALog {Cmd Ans A} l p.
Arguments abind {Cmd Ans A B} p f.
Arguments atry {Cmd Ans A} p h.
Arguments alift {Cmd Ans A} o.
Arguments aawait {Cmd Ans} c.
Arguments alog {Cmd Ans} msg.
Arguments aerror {Cmd Ans} msg e.
Arguments aforEach {Cmd Ans T} xs body.
Arguments ACalled {Cmd Ans} c r.
Arguments ALogged {Cmd Ans} l.
Arguments arun {Cmd Ans World} respond {A} p w.
Arguments awp {Cmd Ans A} p Q.
Arguments isCalled {Cmd Ans} ev.

Declare Scope async_scope.
Delimit Scope async_scope with async.
Notation "x <~ p ;; k" := (abind p (fun x => k))
  (at level 61, p at next level, right associativity) : async_scope.
Notation "p ;;~ k" := (abind p (fun _ => k))
  (at level 61, right associativity) : async_scope.

(* ================================================================== *)
(** ** [lib/webhook-management.ts] *)

Module Webhooks.

Definition HELIUS_API_BASE : string := "https://api.helius.xyz/v0".

Record HeliusWebhook : Type := mkHeliusWebhook {
  webhookID : string;
  webhookURL : string;
  transactionTypes : list string;
  accountAddresses : list string;
  webhookType : string
}.

(** The JSON bodies the helpers send. *)
Inductive RequestBody : Type :=
| UpdateBody (transactionTypes accountAddresses : list string)
| CreateBody (webhookURL : string) (transactionTypes accountAddresses : list string)
             (webhookType : string).

(** A [fetch] response, with the status text the helpers report. *)
Record FetchResponse : Type := mkFetchResponse {
  ok : bool;
  statusText : string;
  text : Outcome string;
  json : Outcome HeliusWebhook
}.

(** [fetch(url, { method, body })]; a [GET] has no body. *)
Inductive Cmd : Type :=
| Fetch (method url : string) (body : option RequestBody).

Definition Ans (c : Cmd) : Type := FetchResponse.

Definition Task : Type -> Type := Async Cmd Ans.

Definition webhookUrl (webhookId apiKey : string) : string :=
  HELIUS_API_BASE ++ "/webhooks/" ++ webhookId ++ "?api-key=" ++ apiKey.

(** [addresses.includes(address)]. *)
Definition listed (address : string) (addresses : list string) : bool :=
  existsb (fun a => (a =? address)%string) addresses.

Local Open Scope async_scope.

Definition addVaultToWebhook (webhookId vaultAddress apiKey : string) : Task unit :=
  response <~ aawait (Fetch "GET" (webhookUrl webhookId apiKey) None) ;;
  (if negb (ok response)
   then AThrow (Error ("Failed to get webhook: " ++ statusText response))
   else ARet tt) ;;~
  webhook <~ alift (json response) ;;
  if listed vaultAddress (accountAddresses webhook)
  then alog ("Vault " ++ vaultAddress ++ " already in webhook")
  else
    let updatedAddresses := (accountAddresses webhook ++ [vaultAddress])%list in
    updateResponse <~
      aawait (Fetch "PUT" (webhookUrl webhookId apiKey)
                    (Some (UpdateBody (transactionTypes webhook) updatedAddresses))) ;;
    (if negb (ok updateResponse)
     then AThrow (Error ("Failed to update webhook: " ++ statusText updateResponse))
     else ARet tt) ;;~
    alog ("Added vault " ++ vaultAddress ++ " to webhook " ++ webhookId).

Definition removeVaultFromWebhook (webhookId vaultAddress apiKey : string)
  : Task unit :=
  response <~ aawait (Fetch "GET" (webhookUrl webhookId apiKey) None) ;;
  (if negb (ok response)
   then AThrow (Error ("Failed to get webhook: " ++ statusText response))
   else ARet tt) ;;~
  webhook <~ alift (json response) ;;
  let updatedAddresses :=
    filter (fun addr => negb (addr =? vaultAddress)%string)
           (accountAddresses webhook) in
  updateResponse <~
    aawait (Fetch "PUT" (webhookUrl webhookId apiKey)
                  (Some (UpdateBody (transactionTypes webhook) updatedAddresses))) ;;
  (if negb (ok updateResponse)
   then AThrow (Error ("Failed to update webhook: " ++ statusText updateResponse))
   else ARet tt) ;;~
  alog ("Removed vault " ++ vaultAddress ++ " from webhook " ++ webhookId).

(** [createHeliusWebhook]; [initialVaultAddresses] defaults to [[]]. *)
Definition createHeliusWebhook (webhookURL apiKey : string)
    (initialVaultAddresses : option (list string)) : Task HeliusWebhook :=
  let initialVaultAddresses :=
    match initialVaultAddresses with
    | Some l => l
    | None => []
    end in
  response <~
    aawait (Fetch "POST" (HELIUS_API_BASE ++ "/webhooks?api-key=" ++ apiKey)
                  (Some (CreateBody webhookURL ["TRANSFER"] initialVaultAddresses
                                    "enhanced"))) ;;
  (if negb (ok response)
   then error <~ alift (text response) ;;
        AThrow (Error ("Failed to create webhook: " ++ error))
   else ARet tt) ;;~
  alift (json response).

(** The webhooks a run fetched: the parsed bodies of its successful [GET]s. *)
Definition fetchedWebhooks (tr : list (AEvent Cmd Ans)) : list HeliusWebhook :=
  flat_map (fun ev : AEvent Cmd Ans => match ev with
                      | ACalled (Fetch _ _ None) (Returned r) =>
                          if ok r then
                            match json r with
                            | Returned hook => [hook]
                            | Thrown _ => []
                            end
                          else []
                      | _ => []
                      end) tr.

(** The updates a run sent: the address lists of its [PUT]s, with the
    transaction types. *)
Definition updates (tr : list (AEvent Cmd Ans)) : list (list string * list string) :=
  flat_map (fun ev : AEvent Cmd Ans => match ev with
                      | ACalled (Fetch _ _ (Some (UpdateBody types addresses))) _ =>
                          [(types, addresses)]
                      | _ => []
                      end) tr.

(** The responses a run got that were not [ok]. *)
Definition refusals (tr : list (AEvent Cmd Ans)) : list FetchResponse :=
  flat_map (fun ev : AEvent Cmd Ans => match ev with
                      | ACalled (Fetch _ _ _) (Returned r) =>
                          if ok r then [] else [r : FetchResponse]
                      | _ => []
                      end) tr.

(** A service that keeps one webhook: a [GET] answers it, a [PUT] replaces
    its transaction types and addresses, a [POST] replaces it. *)
Definition store (c : Cmd) (hook : HeliusWebhook)
  : Outcome (Ans c) * HeliusWebhook :=
  match c with
  | Fetch _ _ None =>
      (Returned (mkFetchResponse true "OK" (Returned "") (Returned hook)), hook)
  | Fetch _ _ (Some (UpdateBody types addresses)) =>
      let hook' := mkHeliusWebhook (webhookID hook) (webhookURL hook) types
                                   addresses (webhookType hook) in
      (Returned (mkFetchResponse true "OK" (Returned "") (Returned hook')), hook')
  | Fetch _ _ (Some (CreateBody url types addresses kind)) =>
      let hook' := mkHeliusWebhook (webhookID hook) url types addresses kind in
      (Returned (mkFetchResponse true "OK" (Returned "") (Returned hook')), hook')
  end.

End Webhooks.

(* ================================================================== *)
(** ** [lib/relayer.ts] *)

Module Relayer.

Record Keypair : Type := mkKeypair {
  publicKey : PublicKey;
  secretKey : string
}.

(** A [Connection], identified by its endpoint. *)
Definition Connection : Type := string.

(** What the relayer takes from its libraries: the key pair of a base58
    secret ([bs58.decode] then [Keypair.fromSecretKey]), the key pair of a
    JSON array secret ([JSON.parse] then [Keypair.fromSecretKey]), and the
    signing and serialisation of a transaction. *)
Record Lib : Type := mkLib {
  keypairFromBase58 : string -> Outcome Keypair;
  keypairFromJson : string -> Outcome Keypair;
  signAndSerialize : Transaction -> Keypair -> Outcome Buffer.t
}.

Record MinimalRelayer : Type := mkRelayer {
  relayerKeypair : Keypair;
  connection : Connection
}.

(** [new MinimalRelayer(connection, relayerSecretKey)]: the base58 reading
    is tried first, the JSON array reading when it throws. *)
Definition construct (lib : Lib) (conn : Connection) (relayerSecretKey : string)
  : Outcome MinimalRelayer :=
  match keypairFromBase58 lib relayerSecretKey with
  | Returned keypair => Returned (mkRelayer keypair conn)
  | Thrown _ =>
      match keypairFromJson lib relayerSecretKey with
      | Returned keypair => Returned (mkRelayer keypair conn)
      | Thrown e => Thrown e
      end
  end.

Definition getPublicKey (relayer : MinimalRelayer) : PublicKey :=
  publicKey (relayerKeypair relayer).

Definition missingKey : Err :=
  Error ("RELAYER_SECRET_KEY environment variable is required. "
         ++ "Set it to a base58-encoded secret key or JSON array. "
         ++ "The relayer only signs to submit - the vault pays all fees.").

(** [getRelayer(connection)] on the module variable [relayerInstance]: the
    result and the variable afterwards. *)
Definition getRelayer (lib : Lib) (RELAYER_SECRET_KEY : option string)
    (conn : Connection) (relayerInstance : option MinimalRelayer)
  : Outcome MinimalRelayer * option MinimalRelayer :=
  match relayerInstance with
  | Some relayer => (Returned relayer, relayerInstance)
  | None =>
      match RELAYER_SECRET_KEY with
      | None => (Thrown missingKey, None)
      | Some relayerSecretKey =>
          if (relayerSecretKey =? "")%string then (Thrown missingKey, None)
          else
            match construct lib conn relayerSecretKey with
            | Returned relayer => (Returned relayer, Some relayer)
            | Thrown e => (Thrown e, None)
            end
      end
  end.

(** The calls of the relayer on its connection. *)
Inductive Cmd : Type :=
| GetLatestBlockhash (conn : Connection)
| SendRawTransaction (conn : Connection) (raw : Buffer.t)
                     (skipPreflight : bool) (maxRetries : Z)
| ConfirmTransaction (conn : Connection) (signature blockhash : string)
                     (lastValidBlockHeight : Z) (commitment : string).

(** [getLatestBlockhash] resolves to the blockhash and its last valid
    height, [sendRawTransaction] to the signature, [confirmTransaction] to
    the error of the transaction, if any ([value.err]). *)
Definition Ans (c : Cmd) : Type :=
  match c with
  | GetLatestBlockhash _ => (string * Z)%type
  | SendRawTransaction _ _ _ _ => string
  | ConfirmTransaction _ _ _ _ _ => option string
  end.

Definition Task : Type -> Type := Async Cmd Ans.

(** [!transaction.recentBlockhash]. *)
Definition unset (recent : option string) : bool :=
  match recent with
  | None => true
  | Some b => (b =? "")%string
  end.

Local Open Scope async_scope.

Definition submitTransaction (lib : Lib) (relayer : MinimalRelayer)
    (transaction : Transaction) : Task string :=
  latest <~ @aawait Cmd Ans (GetLatestBlockhash (connection relayer)) ;;
  let blockhash := fst latest in
  let lastValidBlockHeight := snd latest in
  let transaction :=
    if unset (recentBlockhash transaction)
    then Tx.set_recentBlockhash transaction blockhash
    else transaction in
  let transaction := Tx.set_feePayer transaction (getPublicKey relayer) in
  raw <~ alift (signAndSerialize lib transaction (relayerKeypair relayer)) ;;
  signature <~
    @aawait Cmd Ans (SendRawTransaction (connection relayer) raw false 3) ;;
  @aawait Cmd Ans (ConfirmTransaction (connection relayer) signature blockhash
                             lastValidBlockHeight "confirmed") ;;~
  ARet signature.

(** [submitViaRelayer(connection, transaction)], with the module variable
    afterwards. *)
Definition submitViaRelayer (lib : Lib) (RELAYER_SECRET_KEY : option string)
    (conn : Connection) (transaction : Transaction)
    (relayerInstance : option MinimalRelayer)
  : Task string * option MinimalRelayer :=
  let (relayer, relayerInstance) :=
    getRelayer lib RELAYER_SECRET_KEY conn relayerInstance in
  (match relayer with
   | Returned relayer => submitTransaction lib relayer transaction
   | Thrown e => AThrow e
   end, relayerInstance).

(** The blockhashes a run read, the raw transactions it sent, and the
    confirmations it asked for, with their answers. *)
Definition blockhashes (tr : list (AEvent Cmd Ans)) : list (string * Z) :=
  flat_map (fun ev : AEvent Cmd Ans =>
              match ev with
              | ACalled (GetLatestBlockhash _) (Returned latest) =>
                  [latest : string * Z]
              | _ => []
              end) tr.

Definition sent (tr : list (AEvent Cmd Ans)) : list (Buffer.t * Outcome string) :=
  flat_map (fun ev : AEvent Cmd Ans =>
              match ev with
              | ACalled (SendRawTransaction _ raw _ _) r =>
                  [(raw, r : Outcome string)]
              | _ => []
              end) tr.

Definition confirmations (tr : list (AEvent Cmd Ans))
  : list (string * string * Z * Outcome (option string)) :=
  flat_map (fun ev : AEvent Cmd Ans =>
              match ev with
              | ACalled (ConfirmTransaction _ signature blockhash height _) r =>
                  [(signature, blockhash, height, r : Outcome (option string))]
              | _ => []
              end) tr.

(** The connections a run used. *)
Definition connectionsUsed (tr : list (AEvent Cmd Ans)) : list Connection :=
  flat_map (fun ev : AEvent Cmd Ans =>
              match ev with
              | ACalled (GetLatestBlockhash conn) _ => [conn]
              | ACalled (SendRawTransaction conn _ _ _) _ => [conn]
              | ACalled (ConfirmTransaction conn _ _ _ _) _ => [conn]
              | ALogged _ => []
              end) tr.

End Relayer.

(* ================================================================== *)
(** ** [lib/vault.ts] and [lib/initialize-vault-client.ts] *)

Module VaultInit.

Definition ASSOCIATED_TOKEN_PROGRAM_ID : PublicKey :=
  "ATokenGPvbdGVxr1b2hvZbsiqW5xWH25efTNsLJA8knL".

(** What [getAccountInfo] answers for an existing account, as far as it is
    read: the length of its data. *)
Record AccountInfo : Type := mkAccountInfo {
  dataLength : Z
}.

(** The accounts handed to [program.methods.initializeVault()]. *)
Record InitializeAccounts : Type := mkInitializeAccounts {
  owner : PublicKey;
  vault : PublicKey;
  cbbtcMint : PublicKey;
  cbbtcAta : PublicKey;
  tokenProgram : PublicKey;
  associatedTokenProgram : PublicKey;
  systemProgram : PublicKey
}.

Inductive Cmd : Type :=
| GetAccountInfo (address : PublicKey)
| InitializeVaultRpc (accounts : InitializeAccounts).

(** [getAccountInfo] resolves to the account or [null]; the [rpc()] of the
    initialisation to the signature. *)
Definition Ans (c : Cmd) : Type :=
  match c with
  | GetAccountInfo _ => option AccountInfo
  | InitializeVaultRpc _ => string
  end.

Definition Task : Type -> Type := Async Cmd Ans.

(** The connected wallet, as far as it is read. *)
Record Wallet : Type := mkWallet {
  publicKey : option PublicKey
}.

Local Open Scope async_scope.

(** [isVaultInitialized]: the account exists and holds data. *)
Definition isVaultInitialized (env : Env) (owner : PublicKey) : Task bool :=
  let vaultAddress := getVaultAddress env owner in
  vaultInfo <~ @aawait Cmd Ans (GetAccountInfo vaultAddress) ;;
  ARet (match vaultInfo with
        | Some info => 0 <? dataLength info
        | None => false
        end).

(** [initializeVault] of [lib/vault.ts]. *)
Definition initializeVault (env : Env) (owner : PublicKey) : Task PublicKey :=
  let vaultAddress := getVaultAddress env owner in
  vaultInfo <~ @aawait Cmd Ans (GetAccountInfo vaultAddress) ;;
  match vaultInfo with
  | Some _ => ARet vaultAddress
  | None => ARet vaultAddress
  end.

(** [initializeVaultClient]; the vault is derived from the wallet's key with
    the seeds and the program of [getVaultAddress]. *)
Definition initializeVaultClient (env : Env) (wallet : Wallet) : Task PublicKey :=
  match publicKey wallet with
  | None => AThrow (Error "Wallet not connected")
  | Some walletKey =>
      let vault := getVaultAddress env walletKey in
      vaultInfo <~ @aawait Cmd Ans (GetAccountInfo vault) ;;
      match vaultInfo with
      | Some _ => ARet vault
      | None =>
          let cbbtcAta :=
            getAssociatedTokenAddress env (NEXT_PUBLIC_CBBTC_MINT env) vault in
          tx <~ @aawait Cmd Ans
                  (InitializeVaultRpc
                     (mkInitializeAccounts walletKey vault
                        (NEXT_PUBLIC_CBBTC_MINT env) cbbtcAta TOKEN_PROGRAM_ID
                        ASSOCIATED_TOKEN_PROGRAM_ID SystemProgram_programId)) ;;
          alog ("Vault initialized: " ++ tx) ;;~
          ARet vault
      end
  end.

(** The account reads of a run with their answers, and the initialisations
    it sent. *)
Definition accountInfos (tr : list (AEvent Cmd Ans))
  : list (PublicKey * option AccountInfo) :=
  flat_map (fun ev : AEvent Cmd Ans =>
              match ev with
              | ACalled (GetAccountInfo address) (Returned info) =>
                  [(address, info : option AccountInfo)]
              | _ => []
              end) tr.

Definition initializations (tr : list (AEvent Cmd Ans)) : list InitializeAccounts :=
  flat_map (fun ev : AEvent Cmd Ans =>
              match ev with
              | ACalled (InitializeVaultRpc accounts) _ => [accounts]
              | _ => []
              end) tr.

End VaultInit.

(* ================================================================== *)
(** ** [app/api/webhook/route.ts]: the endpoint with all its formats *)

Module Endpoint.

(** An entry of [tx.meta.postTokenBalances]. *)
Record PostTokenBalance : Type := mkPostTokenBalance {
  owner : option string;
  accountIndex : Z
}.

(** A transaction fetched from the ledger, as far as it is read; a missing
    [meta] or balance array is the empty list. *)
Record ChainTransaction : Type := mkChainTransaction {
  postTokenBalances : list PostTokenBalance;
  staticAccountKeys : list PublicKey
}.

Record SignatureInfo : Type := mkSignatureInfo {
  signature : string
}.

(** An entry of [body.accountData]. *)
Record AccountDatum : Type := mkAccountDatum {
  datumAccount : string
}.

(** [body.transaction]. *)
Record TransactionRef : Type := mkTransactionRef {
  refSignature : string
}.

(** The properties of an object body that the endpoint reads; [None] is a
    missing property. *)
Record Fields : Type := mkFields {
  bodyType : option string;
  bodySignature : string;
  bodyTokenTransfers : list TokenTransfer;
  bodyNativeTransfers : list NativeTransfer;
  accountData : option (list AccountDatum);
  webhookId : JsValue;
  account : option string;
  transaction : option TransactionRef
}.

(** What [request.json()] resolves to: an array, a value that is not an
    object ([null] among them), or an object. *)
Inductive Body : Type :=
| BodyArray (items : list Fields)
| BodyScalar (v : JsValue)
| BodyObject (fields : Fields).

(** [new PublicKey(n)] on a number. *)
Record Lib : Type := mkLib {
  PublicKey_of_number : Z -> Outcome PublicKey
}.

(** The calls of the endpoint: those of the swap pipeline, and the ledger
    reads of the polling formats. *)
Inductive Cmd : Type :=
| Pipeline (c : NetCmd)
| GetSignaturesForAddress (address : PublicKey) (limit : Z)
| GetTransaction (signature : string)
| GetTokenAccount (address : PublicKey).

(** [getSignaturesForAddress] resolves to the signatures, [getTransaction]
    to the transaction or [null], [getAccount] to the mint of the token
    account. *)
Definition Ans (c : Cmd) : Type :=
  match c with
  | Pipeline c => Answer c
  | GetSignaturesForAddress _ _ => list SignatureInfo
  | GetTransaction _ => option ChainTransaction
  | GetTokenAccount _ => PublicKey
  end.

Definition Task : Type -> Type := Async Cmd Ans.

(** A body of the pipeline, run inside the endpoint. *)
Fixpoint embed {A} (p : Prog A) : Task A :=
  match p with
  | Ret a => ARet a
  | Throw e => AThrow e
  | Call c k => @ACall Cmd Ans A (Pipeline c) (fun r => embed (k r))
  | Console l q => ALog l (embed q)
  end.

Local Open Scope async_scope.

Definition ownedBy (vaultAddress : PublicKey) (postBalance : PostTokenBalance)
  : bool :=
  match owner postBalance with
  | Some o => (o =? vaultAddress)%string
  | None => false
  end.

Definition processTransaction (env : Env) (lib : Lib) (vaultAddress : PublicKey)
    (tx : ChainTransaction) : Task unit :=
  cbbtcMint <~ alift (new_PublicKey env (NEXT_PUBLIC_CBBTC_MINT env)) ;;
  aforEach (postTokenBalances tx)
    (fun postBalance =>
       if ownedBy vaultAddress postBalance
       then
         atry
           (tokenAccount <~
              alift (PublicKey_of_number lib (accountIndex postBalance)) ;;
            mint <~ @aawait Cmd Ans (GetTokenAccount tokenAccount) ;;
            if negb (mint =? cbbtcMint)%string
            then alog ("Token " ++ mint ++ " received in vault " ++ vaultAddress)
            else ARet tt)
           (fun error => aerror "Error processing token balance:" error)
       else ARet tt).

(** The loop of the account-change and QuickNode formats: the last five
    signatures of the address, each fetched and processed. *)
Definition pollVault (env : Env) (lib : Lib) (vaultAddress : PublicKey)
  : Task unit :=
  signatures <~ @aawait Cmd Ans (GetSignaturesForAddress vaultAddress 5) ;;
  aforEach signatures
    (fun sig =>
       tx <~ @aawait Cmd Ans (GetTransaction (signature sig)) ;;
       match tx with
       | None => ARet tt
       | Some tx => processTransaction env lib vaultAddress tx
       end).

Definition heliusOf (kind : string) (fields : Fields) : HeliusTransaction :=
  mkHeliusTransaction kind (bodySignature fields) (bodyTokenTransfers fields)
                      (bodyNativeTransfers fields).

Definition typeIs (fields : Fields) (kind : string) : bool :=
  match bodyType fields with
  | Some t => (t =? kind)%string
  | None => false
  end.

Definition serverError (error : Err) : Task Reply :=
  ALog (ConsoleError "Webhook error:" error)
       (ARet (mkReply 500 (if (message error =? "")%string
                           then "Internal server error"
                           else message error))).

(** [POST]; [request] is what [request.json()] settles to. *)
Definition POST (env : Env) (lib : Lib) (request : Outcome Body) : Task Reply :=
  atry
    (body <~ alift request ;;
     match body with
     | BodyScalar JsNull =>
         AThrow (Error "Cannot read properties of null (reading 'type')")
     | BodyScalar JsUndefined =>
         AThrow (Error "Cannot read properties of undefined (reading 'type')")
     | BodyArray _ | BodyScalar _ =>
         ARet (mkReply 400 "Unknown webhook format")
     | BodyObject fields =>
         if typeIs fields "TRANSFER" || typeIs fields "SWAP"
         then
           let transactions :=
             [heliusOf (match bodyType fields with Some t => t | None => "" end)
                       fields] in
           aforEach transactions
             (fun tx => if isTransferOrSwap (type tx)
                        then embed (processHeliusTransaction env tx)
                        else ARet tt) ;;~
           ARet (mkReply 200 "Processed Helius transaction webhook")
         else if typeIs fields "ACCOUNT"
         then
           match match accountData fields with
                 | Some (datum :: _) => Some datum
                 | _ => None
                 end with
           | None => ARet (mkReply 200 "No account data")
           | Some datum =>
               vaultAddress <~ alift (new_PublicKey env (datumAccount datum)) ;;
               pollVault env lib vaultAddress ;;~
               ARet (mkReply 200 "Processed webhook")
           end
         else if truthy (webhookId fields)
         then
           match match account fields with
                 | Some a => if (a =? "")%string then None else Some a
                 | None => None
                 end with
           | None => ARet (mkReply 200 "No account in webhook")
           | Some a =>
               vaultAddress <~ alift (new_PublicKey env a) ;;
               pollVault env lib vaultAddress ;;~
               ARet (mkReply 200 "Processed webhook")
           end
         else
           match transaction fields with
           | Some ref =>
               tx <~ @aawait Cmd Ans (GetTransaction (refSignature ref)) ;;
               match tx with
               | Some tx =>
                   aforEach (staticAccountKeys tx)
                            (fun key => processTransaction env lib key tx)
               | None => ARet tt
               end ;;~
               ARet (mkReply 200 "Processed transaction webhook")
           | None => ARet (mkReply 400 "Unknown webhook format")
           end
     end)
    serverError.

(** An event of the pipeline, as the endpoint records it. *)
Definition embedEvent (ev : Event) : AEvent Cmd Ans :=
  match ev with
  | NetEvent c r => ACalled (Pipeline c) r
  | LogEvent l => ALogged l
  end.

(** A call of the swap pipeline. *)
Definition isPipeline (ev : AEvent Cmd Ans) : bool :=
  match ev with
  | ACalled (Pipeline _) _ => true
  | _ => false
  end.

(** The token accounts a run looked up. *)
Definition lookups (tr : list (AEvent Cmd Ans)) : list PublicKey :=
  flat_map (fun ev : AEvent Cmd Ans =>
              match ev with
              | ACalled (GetTokenAccount address) _ => [address]
              | _ => []
              end) tr.

(** No event of the trace is a call of the swap pipeline. *)
Definition quiet (tr : list (AEvent Cmd Ans)) : bool :=
  forallb (fun ev => negb (isPipeline ev)) tr.

(** The balances of a fetched transaction that [vaultAddress] owns. *)
Definition owned (vaultAddress : PublicKey) (tx : ChainTransaction)
  : list PostTokenBalance :=
  filter (ownedBy vaultAddress) (postTokenBalances tx).

(** What a run that answered leaves behind, by status: nothing at all for
    400, and for 500 the logged error, whose message is the reply. *)
Definition answered (reply : Reply) (tr : list (AEvent Cmd Ans)) : Prop :=
  status reply = 200 \/
  (reply = mkReply 400 "Unknown webhook format" /\ tr = []) \/
  (exists (error : Err) (before : list (AEvent Cmd Ans)),
      reply = mkReply 500 (if (message error =? "")%string
                           then "Internal server error"
                           else message error) /\
      tr = (before ++ [ALogged (ConsoleError "Webhook error:" error)])%list).

(** The token accounts of the balances that [vaultAddress] owns, for the
    indices [new PublicKey] accepts, and the errors it throws on the
    others. *)
Definition ownedAccounts (lib : Lib) (vaultAddress : PublicKey)
    (tx : ChainTransaction) : list PublicKey :=
  flat_map (fun postBalance =>
              match PublicKey_of_number lib (accountIndex postBalance) with
              | Returned tokenAccount => [tokenAccount]
              | Thrown _ => []
              end) (owned vaultAddress tx).

Definition indexErrors (lib : Lib) (vaultAddress : PublicKey)
    (tx : ChainTransaction) : list Err :=
  flat_map (fun postBalance =>
              match PublicKey_of_number lib (accountIndex postBalance) with
              | Returned _ => []
              | Thrown error => [error]
              end) (owned vaultAddress tx).

(** The errors of the token-account lookups that were rejected, and the
    mints of those that resolved. *)
Definition rejectedLookups (tr : list (AEvent Cmd Ans)) : list Err :=
  flat_map (fun ev : AEvent Cmd Ans =>
              match ev with
              | ACalled (GetTokenAccount _) (Thrown error) => [error]
              | _ => []
              end) tr.

Definition resolvedMints (tr : list (AEvent Cmd Ans)) : list PublicKey :=
  flat_map (fun ev : AEvent Cmd Ans =>
              match ev with
              | ACalled (GetTokenAccount _) (Returned mint) => [mint : PublicKey]
              | _ => []
              end) tr.

(** The errors logged by the [catch] of the loop, and the lines logged. *)
Definition balanceErrors (tr : list (AEvent Cmd Ans)) : list Err :=
  flat_map (fun ev : AEvent Cmd Ans =>
              match ev with
              | ALogged (ConsoleError msg error) =>
                  if (msg =? "Error processing token balance:")%string
                  then [error] else []
              | _ => []
              end) tr.

Definition logLines (tr : list (AEvent Cmd Ans)) : list string :=
  flat_map (fun ev : AEvent Cmd Ans =>
              match ev with
              | ALogged (ConsoleLog msg) => [msg]
              | _ => []
              end) tr.

(** The line logged for a token other than the settlement asset. *)
Definition receivedLine (vaultAddress : PublicKey) (mint : PublicKey) : string :=
  "Token " ++ mint ++ " received in vault " ++ vaultAddress.

End Endpoint.

(* ================================================================== *)
(** ** Worlds and inputs for the other modules *)

Module Fixture.

(** An aggregator transaction without an instruction of the aggregator. *)
Definition plainTx : Transaction :=
  mkTransaction
    [ mkInstruction "ComputeBudget111111111111111111111111111111" []
                    [x02; x40; x0d; x03; x00] ]
    (Some "aggregator-blockhash") (Some "vault-of-owner").

Definition plainEnv : Env :=
  mkEnv (getVaultAddress Sample.env) (getAssociatedTokenAddress Sample.env)
        (NEXT_PUBLIC_CBBTC_MINT Sample.env) (PublicKey_valid Sample.env)
        (fun _ => Returned plainTx).

(** A webhook watching one vault twice and another once. *)
Definition hook : Webhooks.HeliusWebhook :=
  Webhooks.mkHeliusWebhook "hook-1" "https://app.example/api/webhook"
                           ["TRANSFER"] ["vault-a"; "vault-b"; "vault-a"]
                           "enhanced".

(** A service that refuses every request. *)
Definition refusing (c : Webhooks.Cmd) (w : unit)
  : Outcome (Webhooks.Ans c) * unit :=
  (Returned (Webhooks.mkFetchResponse false "Unauthorized"
               (Returned "invalid api key")
               (Thrown (Error "Unexpected end of JSON input"))), w).

(** A library whose serialised form of a signed transaction is the length
    of its blockhash, enough to tell two checkpoints apart. *)
Definition relayerLib : Relayer.Lib :=
  Relayer.mkLib
    (fun secret => if (secret =? "[1,2,3]")%string
                   then Thrown (Error "Non-base58 character")
                   else Returned (Relayer.mkKeypair "relayer" secret))
    (fun secret => Returned (Relayer.mkKeypair "relayer-json" secret))
    (fun transaction keypair =>
       match recentBlockhash transaction with
       | Some b => Returned (Buffer.from [Z.of_nat (String.length b)])
       | None => Thrown (Error "Transaction recentBlockhash required")
       end).

Definition relayer : Relayer.MinimalRelayer :=
  Relayer.mkRelayer (Relayer.mkKeypair "relayer" "secret") "rpc-1".

(** A ledger that accepts everything. *)
Definition ledger (c : Relayer.Cmd) (w : unit) : Outcome (Relayer.Ans c) * unit :=
  (match c return Outcome (Relayer.Ans c) with
   | Relayer.GetLatestBlockhash _ => Returned ("fresh-blockhash", 1200)
   | Relayer.SendRawTransaction _ _ _ _ => Returned "signature"
   | Relayer.ConfirmTransaction _ _ _ _ _ => Returned None
   end, w).

(** A chain on which every address holds the account [info]. *)
Definition chain (info : option VaultInit.AccountInfo) (c : VaultInit.Cmd)
    (w : unit) : Outcome (VaultInit.Ans c) * unit :=
  (match c return Outcome (VaultInit.Ans c) with
   | VaultInit.GetAccountInfo _ => Returned info
   | VaultInit.InitializeVaultRpc _ => Returned "init-signature"
   end, w).

Definition endpointLib : Endpoint.Lib :=
  Endpoint.mkLib (fun n => if n <? 0
                           then Thrown (Error "Invalid public key input")
                           else Returned ("account-" ++ Z_toString n)).

(** A fetched transaction with two balances of the vault, the first with
    an index that is no key, and one balance of another owner. *)
Definition chainTx : Endpoint.ChainTransaction :=
  Endpoint.mkChainTransaction
    [ Endpoint.mkPostTokenBalance (Some "vault-of-owner") (-1);
      Endpoint.mkPostTokenBalance (Some "someone-else") 4;
      Endpoint.mkPostTokenBalance (Some "vault-of-owner") 3 ]
    ["vault-of-owner"; "payer"].

(** The ledger behind the endpoint: the pipeline's calls are answered by
    [Sample.respond]. *)
Definition endpointWorld (c : Endpoint.Cmd) (w : unit)
  : Outcome (Endpoint.Ans c) * unit :=
  match c return Outcome (Endpoint.Ans c) * unit with
  | Endpoint.Pipeline c => Sample.respond 200000 (JsString "1999") (Some 5000) c w
  | Endpoint.GetSignaturesForAddress _ _ =>
      (Returned [Endpoint.mkSignatureInfo "signature-1"], w)
  | Endpoint.GetTransaction _ => (Returned (Some chainTx), w)
  | Endpoint.GetTokenAccount _ => (Returned "USDC", w)
  end.

(** An account-change notification for the vault. *)
Definition accountBody : Endpoint.Body :=
  Endpoint.BodyObject
    (Endpoint.mkFields (Some "ACCOUNT") "" [] []
                       (Some [Endpoint.mkAccountDatum "vault-of-owner"])
                       JsUndefined None None).

(** A transfer notification carrying [Sample.deposit]. *)
Definition transferBody : Endpoint.Body :=
  Endpoint.BodyObject
    (Endpoint.mkFields (Some "TRANSFER") "deposit-signature" [Sample.deposit] []
                       None JsUndefined None None).

End Fixture.

(* ================================================================== *)
(** ** The swap attempts of a batch *)

Section Attempts.
Variable env : Env.
Variable isVault : string -> bool.
Variable ownerOf : string -> option PublicKey.
Context {World : Type}.
Variable respond : forall c : NetCmd, World -> Resp c * World.



End Attempts.

(** The quote requests of a run in full: input mint, output mint, amount
    and slippage. *)
Definition quoteRequests (tr : list Event)
  : list (PublicKey * PublicKey * Z * Z) :=
  flat_map (fun ev => match ev with
                      | NetEvent (FetchQuote inputMint outputMint amount slippageBps) _ =>
                          [(inputMint, outputMint, amount, slippageBps)]
                      | _ => []
                      end) tr.


(* ================================================================== *)
(** ** Little-endian fields and payloads *)

Local Close Scope string_scope.

Lemma Z_of_byte_range (b : byte) : 0 <= Buffer.Z_of_byte b < 256.
Proof.
  unfold Buffer.Z_of_byte. pose proof (Byte.to_N_bounded b). lia.
Qed.

Lemma Z_of_byte_of_Z (z : Z) : Buffer.Z_of_byte (Buffer.byte_of_Z z) = z mod 256.
Proof.
  unfold Buffer.Z_of_byte, Buffer.byte_of_Z.
  pose proof (Z.mod_pos_bound z 256 ltac:(lia)) as Hr.
  destruct (Byte.of_N (Z.to_N (z mod 256))) as [b|] eqn:E.
  - apply Byte.to_of_N in E. rewrite E. lia.
  - apply Byte.of_N_None_iff in E. lia.
Qed.

Lemma le_bytes_length (w : nat) : forall n, List.length (Buffer.le_bytes w n) = w.
Proof. induction w; intros; simpl; auto. Qed.

Lemma le_value_le_bytes (w : nat) :
  forall n, 0 <= n -> Buffer.le_value (Buffer.le_bytes w n) = n mod 256 ^ Z.of_nat w.
Proof.
  induction w as [|w IH]; intros n Hn.
  - simpl. now rewrite Z.mod_1_r.
  - cbn [Buffer.le_bytes Buffer.le_value].
    rewrite Z_of_byte_of_Z, Z.mod_mod by lia.
    rewrite IH by (apply Z.div_pos; lia).
    rewrite Nat2Z.inj_succ, Z.pow_succ_r by lia.
    rewrite Z.rem_mul_r by lia. lia.
Qed.

Lemma le_value_le_bytes_small (w : nat) (n : Z) :
  0 <= n < 256 ^ Z.of_nat w -> Buffer.le_value (Buffer.le_bytes w n) = n.
Proof.
  intros H. rewrite le_value_le_bytes by lia. apply Z.mod_small; lia.
Qed.

Lemma le_field (w : nat) (n : Z) :
  0 <= n < 256 ^ Z.of_nat w ->
  List.length (Buffer.le_bytes w n) = w /\
  Buffer.le_value (Buffer.le_bytes w n) = n.
Proof.
  intros H. split; [apply le_bytes_length | now apply le_value_le_bytes_small].
Qed.

Lemma byteLength_u64 (n : Z) : 0 <= n < 2 ^ 64 -> (BN.byteLength n <= 8)%nat.
Proof.
  intros H. unfold BN.byteLength.
  rewrite Z.abs_eq by lia.
  destruct (n =? 0) eqn:E; [lia|].
  apply Z.eqb_neq in E.
  assert (Z.log2 n < 64) by (apply Z.log2_lt_pow2; lia).
  pose proof (Z.log2_nonneg n).
  assert ((Z.log2 n + 8) / 8 < 9) by (apply Z.div_lt_upper_bound; lia).
  lia.
Qed.

Lemma toArrayLike_le_u64 (n : Z) :
  0 <= n < 2 ^ 64 -> BN.toArrayLike_le n 8 = Returned (Buffer.le_bytes 8 n).
Proof.
  intros H. unfold BN.toArrayLike_le.
  pose proof (byteLength_u64 n H) as Hb.
  apply Nat.leb_le in Hb. rewrite Hb. now rewrite Z.abs_eq by lia.
Qed.

Lemma writeUInt32LE_u32 (n : Z) :
  0 <= n < 2 ^ 32 -> Buffer.writeUInt32LE n = Returned (Buffer.le_bytes 4 n).
Proof.
  intros H. unfold Buffer.writeUInt32LE.
  replace (0 <=? n) with true by (symmetry; apply Z.leb_le; lia).
  replace (n <=? 4294967295) with true by (symmetry; apply Z.leb_le; lia).
  reflexivity.
Qed.

Lemma swapInstructionData_u64 (disc : Buffer.t) (amountIn minAmountOut : Z)
    (route : Buffer.t) :
  0 <= amountIn < 2 ^ 64 -> 0 <= minAmountOut < 2 ^ 64 ->
  Z.of_nat (List.length route) < 2 ^ 32 ->
  swapInstructionData disc amountIn minAmountOut route =
  Returned (disc ++ Buffer.le_bytes 8 amountIn ++ Buffer.le_bytes 8 minAmountOut
            ++ Buffer.le_bytes 4 (Z.of_nat (List.length route)) ++ route)%list.
Proof.
  intros Ha Hm Hr. unfold swapInstructionData.
  rewrite writeUInt32LE_u32 by lia. cbn [obind].
  rewrite !toArrayLike_le_u64 by lia. cbn [obind].
  unfold Buffer.concat. cbn [List.concat]. now rewrite !app_nil_r.
Qed.

(** Beyond the u32 range the length prefix cannot be written: the encoder
    throws. *)
Lemma swapInstructionData_long_route (disc : Buffer.t) (amountIn minAmountOut : Z)
    (route : Buffer.t) :
  2 ^ 32 <= Z.of_nat (List.length route) ->
  swapInstructionData disc amountIn minAmountOut route
  = Thrown (Error "The value of value is out of range.").
Proof.
  intros H. unfold swapInstructionData, Buffer.writeUInt32LE.
  replace (Z.of_nat (List.length route) <=? 4294967295) with false
    by (symmetry; apply Z.leb_gt; lia).
  now rewrite andb_false_r.
Qed.

(** C3. For u64 amounts and a route whose length fits the u32 prefix, the
    data of a [swapToSettlement] call is the discriminator
    [73,17,223,215,78,128,160,80], then [amountIn] as 8 little-endian
    bytes, [minAmountOut] as 8 little-endian bytes, the route length as 4
    little-endian bytes, and the route bytes; the [swapFeeToNative] call
    has the same payload behind [98,85,227,2,32,184,191,80]. *)
Theorem swap_payload_layout (amountIn minAmountOut : Z) (route : Buffer.t) :
  0 <= amountIn < 2 ^ 64 ->
  0 <= minAmountOut < 2 ^ 64 ->
  Z.of_nat (List.length route) < 2 ^ 32 ->
  exists a m l : Buffer.t,
    (List.length a = 8%nat /\ Buffer.le_value a = amountIn) /\
    (List.length m = 8%nat /\ Buffer.le_value m = minAmountOut) /\
    (List.length l = 4%nat /\ Buffer.le_value l = Z.of_nat (List.length route)) /\
    (exists d, map Buffer.Z_of_byte d = [73; 17; 223; 215; 78; 128; 160; 80] /\
       swapInstructionData discriminator amountIn minAmountOut route
       = Returned (d ++ a ++ m ++ l ++ route)%list) /\
    (exists d, map Buffer.Z_of_byte d = [98; 85; 227; 2; 32; 184; 191; 80] /\
       swapInstructionData swapFeeToSolDiscriminator amountIn minAmountOut route
       = Returned (d ++ a ++ m ++ l ++ route)%list).
Proof.
  intros Ha Hm Hr.
  exists (Buffer.le_bytes 8 amountIn), (Buffer.le_bytes 8 minAmountOut),
         (Buffer.le_bytes 4 (Z.of_nat (List.length route))).
  split; [|split; [|split; [|split]]].
  - apply le_field. change (256 ^ Z.of_nat 8) with (2 ^ 64). lia.
  - apply le_field. change (256 ^ Z.of_nat 8) with (2 ^ 64). lia.
  - apply le_field. change (256 ^ Z.of_nat 4) with (2 ^ 32). lia.
  - exists discriminator. split; [reflexivity|].
    now apply swapInstructionData_u64.
  - exists swapFeeToSolDiscriminator. split; [reflexivity|].
    now apply swapInstructionData_u64.
Qed.

Lemma swap_payload_layout_witness :
  exists a m l : Buffer.t,
    (List.length a = 8%nat /\ Buffer.le_value a = 2000000) /\
    (List.length m = 8%nat /\ Buffer.le_value m = 1999) /\
    (List.length l = 4%nat /\ Buffer.le_value l = 3) /\
    (exists d, map Buffer.Z_of_byte d = [73; 17; 223; 215; 78; 128; 160; 80] /\
       swapInstructionData discriminator 2000000 1999 [x01; x02; xff]
       = Returned (d ++ a ++ m ++ l ++ [x01; x02; xff])%list) /\
    (exists d, map Buffer.Z_of_byte d = [98; 85; 227; 2; 32; 184; 191; 80] /\
       swapInstructionData swapFeeToSolDiscriminator 2000000 1999 [x01; x02; xff]
       = Returned (d ++ a ++ m ++ l ++ [x01; x02; xff])%list).
Proof.
  apply (swap_payload_layout 2000000 1999 [x01; x02; xff]);
    cbn; lia.
Defined.

Lemma decode_encoded (d a m l route : Buffer.t) :
  List.length d = 8%nat -> List.length a = 8%nat -> List.length m = 8%nat ->
  List.length l = 4%nat ->
  Buffer.le_value l = Z.of_nat (List.length route) ->
  decodeSwapPayload (d ++ a ++ m ++ l ++ route)
  = Some (Buffer.le_value a, Buffer.le_value m, route).
Proof.
  intros Hd Ha Hm Hl Hv. unfold decodeSwapPayload.
  assert (S1 : skipn 8 (d ++ a ++ m ++ l ++ route) = a ++ m ++ l ++ route).
  { rewrite skipn_app, Hd, Nat.sub_diag. rewrite skipn_all2 by lia. reflexivity. }
  rewrite S1.
  assert (F1 : firstn 8 (a ++ m ++ l ++ route) = a).
  { rewrite firstn_app, Ha, Nat.sub_diag. rewrite firstn_all2 by lia.
    cbn. apply app_nil_r. }
  assert (S2 : skipn 8 (a ++ m ++ l ++ route) = m ++ l ++ route).
  { rewrite skipn_app, Ha, Nat.sub_diag. rewrite skipn_all2 by lia. reflexivity. }
  rewrite F1, S2.
  assert (F2 : firstn 8 (m ++ l ++ route) = m).
  { rewrite firstn_app, Hm, Nat.sub_diag. rewrite firstn_all2 by lia.
    cbn. apply app_nil_r. }
  assert (S3 : skipn 8 (m ++ l ++ route) = l ++ route).
  { rewrite skipn_app, Hm, Nat.sub_diag. rewrite skipn_all2 by lia. reflexivity. }
  rewrite F2, S3.
  assert (F3 : firstn 4 (l ++ route) = l).
  { rewrite firstn_app, Hl, Nat.sub_diag. rewrite firstn_all2 by lia.
    cbn. apply app_nil_r. }
  assert (S4 : skipn 4 (l ++ route) = route).
  { rewrite skipn_app, Hl, Nat.sub_diag. rewrite skipn_all2 by lia. reflexivity. }
  rewrite F3, S4, Hv, Nat2Z.id.
  replace (List.length (d ++ a ++ m ++ l ++ route) <? 28)%nat with false.
  2:{ symmetry. apply Nat.ltb_ge. rewrite !length_app. lia. }
  rewrite Nat.ltb_irrefl. now rewrite firstn_all.
Qed.

(** C9. Decoding the encoded [swapToSettlement] payload gives back the
    amounts and the route, for u64 amounts and every route whose length
    fits the u32 prefix, in particular for the lengths 0, 1 and 65535. *)
Theorem swap_payload_roundtrip (amountIn minAmountOut : Z) (route : Buffer.t) :
  0 <= amountIn < 2 ^ 64 ->
  0 <= minAmountOut < 2 ^ 64 ->
  Z.of_nat (List.length route) < 2 ^ 32 ->
  exists payload,
    swapInstructionData discriminator amountIn minAmountOut route
    = Returned payload /\
    decodeSwapPayload payload = Some (amountIn, minAmountOut, route).
Proof.
  intros Ha Hm Hr. eexists. split.
  - now apply swapInstructionData_u64.
  - rewrite decode_encoded.
    + rewrite !le_value_le_bytes_small; [reflexivity | |];
        change (256 ^ Z.of_nat 8) with (2 ^ 64); lia.
    + reflexivity.
    + apply le_bytes_length.
    + apply le_bytes_length.
    + apply le_bytes_length.
    + apply le_value_le_bytes_small. change (256 ^ Z.of_nat 4) with (2 ^ 32). lia.
Qed.

Lemma swap_payload_roundtrip_witness :
  exists payload,
    swapInstructionData discriminator 2000000 1999 (repeat xff (N.to_nat 65535))
    = Returned payload /\
    decodeSwapPayload payload
    = Some (2000000, 1999, repeat xff (N.to_nat 65535)).
Proof.
  apply (swap_payload_roundtrip 2000000 1999 (repeat xff (N.to_nat 65535))).
  - lia.
  - lia.
  - vm_compute. reflexivity.
Defined.

Local Close Scope Z_scope.
Local Open Scope string_scope.
Local Open Scope Z_scope.

(* ================================================================== *)
(** ** The account list, payload prefixes and fee arithmetic *)

(* ---- account list ---- *)

Lemma meta_copy (key : AccountMeta) :
  mkMeta (pubkey key) (isSigner key) (isWritable key) = key.
Proof. now destruct key. Qed.

Lemma map_meta_copy (ks : list AccountMeta) :
  map (fun key => mkMeta (pubkey key) (isSigner key) (isWritable key)) ks = ks.
Proof.
  induction ks as [|k ks IH]; cbn; [reflexivity|].
  now rewrite meta_copy, IH.
Qed.

Lemma markFirstSigner_signer (vault : PublicKey) (accs : list AccountMeta) :
  (exists acc, In acc accs /\ pubkey acc = vault) ->
  exists acc, In acc (markFirstSigner vault accs) /\
              pubkey acc = vault /\ isSigner acc = true.
Proof.
  induction accs as [|a accs IH]; intros [acc [Hin Hk]]; [contradiction|].
  cbn [markFirstSigner]. unfold PublicKey_equals.
  destruct (String.eqb_spec (pubkey a) vault) as [E|E].
  - exists (mkMeta (pubkey a) true (isWritable a)). cbn. auto.
  - destruct Hin as [->|Hin]; [contradiction|].
    destruct IH as [acc' [Hin' H']]; [now exists acc|].
    exists acc'. split; [now right | exact H'].
Qed.

Lemma markFirstSigner_pubkeys (vault : PublicKey) (accs : list AccountMeta) :
  map pubkey (markFirstSigner vault accs) = map pubkey accs.
Proof.
  induction accs as [|a accs IH]; cbn; [reflexivity|].
  destruct (PublicKey_equals (pubkey a) vault); cbn; [reflexivity|].
  now rewrite IH.
Qed.

Lemma find_vault_none (vault : PublicKey) (accs : list AccountMeta) :
  (forall key, In key accs -> pubkey key <> vault) ->
  find (fun acc => PublicKey_equals (pubkey acc) vault) accs = None.
Proof.
  induction accs as [|a accs IH]; intros H; cbn; [reflexivity|].
  unfold PublicKey_equals at 1.
  destruct (String.eqb_spec (pubkey a) vault) as [E|E].
  - exfalso. apply (H a); [now left | exact E].
  - apply IH. intros key Hk. apply H. now right.
Qed.

Lemma ensureVaultSigner_signer (vault : PublicKey) (ks : list AccountMeta) :
  exists acc, In acc (ensureVaultSigner vault ks) /\
              pubkey acc = vault /\ isSigner acc = true.
Proof.
  unfold ensureVaultSigner. rewrite map_meta_copy.
  destruct (find _ ks) as [found|] eqn:F.
  - apply markFirstSigner_signer. exists found.
    apply find_some in F. destruct F as [Hin Heq].
    split; [exact Hin | now apply String.eqb_eq].
  - exists (mkMeta vault true true). cbn. auto.
Qed.

Lemma ensureVaultSigner_absent (vault : PublicKey) (ks : list AccountMeta) :
  (forall key, In key ks -> pubkey key <> vault) ->
  ensureVaultSigner vault ks = mkMeta vault true true :: ks.
Proof.
  intros H. unfold ensureVaultSigner. rewrite map_meta_copy.
  now rewrite find_vault_none.
Qed.

Lemma ensureVaultSigner_present (vault : PublicKey) (ks : list AccountMeta) :
  (exists key, In key ks /\ pubkey key = vault) ->
  map pubkey (ensureVaultSigner vault ks) = map pubkey ks.
Proof.
  intros [key [Hin Hk]]. unfold ensureVaultSigner. rewrite map_meta_copy.
  destruct (find _ ks) as [found|] eqn:F.
  - apply markFirstSigner_pubkeys.
  - exfalso. apply (find_none _ _ F) in Hin.
    unfold PublicKey_equals in Hin. rewrite Hk, String.eqb_refl in Hin.
    discriminate.
Qed.

(* ---- payload prefixes ---- *)

Lemma swapInstructionData_prefix (disc : Buffer.t) (amount minAmountOut : Z)
    (route payload : Buffer.t) :
  swapInstructionData disc amount minAmountOut route = Returned payload ->
  exists a m l,
    payload = (disc ++ a ++ m ++ l ++ route)%list /\
    BN.toArrayLike_le amount 8 = Returned a /\
    BN.toArrayLike_le minAmountOut 8 = Returned m /\
    Buffer.writeUInt32LE (Z.of_nat (List.length route)) = Returned l.
Proof.
  unfold swapInstructionData. intros H.
  destruct (Buffer.writeUInt32LE _) as [l|] eqn:El; [|discriminate].
  destruct (BN.toArrayLike_le amount 8) as [a|] eqn:Ea; [|discriminate].
  destruct (BN.toArrayLike_le minAmountOut 8) as [m|] eqn:Em; [|discriminate].
  cbn in H. injection H as <-. exists a, m, l.
  unfold Buffer.concat. cbn [List.concat]. now rewrite !app_nil_r.
Qed.

Lemma toArrayLike_le_returned (n : Z) (w : nat) (b : Buffer.t) :
  BN.toArrayLike_le n w = Returned b ->
  b = Buffer.le_bytes w (Z.abs n) /\ (BN.byteLength n <= w)%nat.
Proof.
  unfold BN.toArrayLike_le.
  destruct (Nat.leb_spec (BN.byteLength n) w) as [Hb|Hb].
  - intros H. injection H as <-. auto.
  - discriminate.
Qed.

Lemma byteLength_bound (n : Z) :
  (BN.byteLength n <= 8)%nat -> Z.abs n < 2 ^ 64.
Proof.
  unfold BN.byteLength. destruct (Z.abs n =? 0) eqn:E.
  - apply Z.eqb_eq in E. rewrite E. lia.
  - apply Z.eqb_neq in E. intros H.
    pose proof (Z.abs_nonneg n) as Hn.
    pose proof (Z.log2_nonneg (Z.abs n)) as Hl.
    assert (Hq : (Z.log2 (Z.abs n) + 8) / 8 <= 8) by lia.
    assert (Z.log2 (Z.abs n) < 64).
    { destruct (Z_lt_le_dec (Z.log2 (Z.abs n)) 64) as [L|L]; [exact L|].
      exfalso.
      assert (9 <= (Z.log2 (Z.abs n) + 8) / 8)
        by (apply Z.div_le_lower_bound; lia).
      lia. }
    apply Z.log2_lt_pow2; lia.
Qed.

Lemma writeUInt32LE_returned (n : Z) (l : Buffer.t) :
  Buffer.writeUInt32LE n = Returned l -> l = Buffer.le_bytes 4 n.
Proof.
  unfold Buffer.writeUInt32LE.
  destruct ((0 <=? n) && (n <=? 4294967295)); [|discriminate].
  intros H. now injection H as <-.
Qed.

Lemma firstn_8_app (d rest : Buffer.t) :
  List.length d = 8%nat -> firstn 8 (d ++ rest) = d.
Proof.
  intros H. rewrite firstn_app, H, Nat.sub_diag, firstn_all2 by lia.
  cbn. apply app_nil_r.
Qed.

Lemma coverFeeData_returned (fee : Z) (d : Buffer.t) :
  coverFeeData fee = Returned d ->
  d = (coverFeeDiscriminator ++ Buffer.le_bytes 8 (Z.abs fee))%list /\
  Z.abs fee < 2 ^ 64.
Proof.
  unfold coverFeeData. intros H.
  destruct (BN.toArrayLike_le fee 8) as [a|] eqn:Ea; [|discriminate].
  cbn in H. injection H as <-.
  apply toArrayLike_le_returned in Ea. destruct Ea as [-> Hb].
  unfold Buffer.concat. cbn [List.concat]. rewrite app_nil_r.
  split; [reflexivity | now apply byteLength_bound].
Qed.

(* ---- fee arithmetic ---- *)

Lemma totalFee_floor (amountIn : Z) :
  0 <= amountIn -> totalFee amountIn = amountIn * 100 / 10000.
Proof.
  intros H. unfold totalFee. apply Z.quot_div_nonneg; lia.
Qed.

Lemma totalFee_nonneg (amountIn : Z) : 0 <= amountIn -> 0 <= totalFee amountIn.
Proof.
  intros H. rewrite totalFee_floor by lia. apply Z.div_pos; lia.
Qed.

Lemma feeToVault_floor (amountIn : Z) :
  0 <= amountIn -> feeToVault amountIn = amountIn * 100 / 10000 * 4 / 10.
Proof.
  intros H. unfold feeToVault.
  pose proof (totalFee_nonneg amountIn H).
  rewrite Z.quot_div_nonneg by lia. now rewrite totalFee_floor.
Qed.

(* ================================================================== *)
(** ** Runs *)

Section RunFacts.
Context {World : Type}.
Variable respond : forall c : NetCmd, World -> Resp c * World.

Lemma run_bind {A B} (p : Prog A) (f : A -> Prog B) (w : World) :
  run respond (bind p f) w =
  let '(o, w1, tr1) := run respond p w in
  match o with
  | Returned a =>
      let '(o2, w2, tr2) := run respond (f a) w1 in (o2, w2, (tr1 ++ tr2)%list)
  | Thrown e => (Thrown e, w1, tr1)
  end.
Proof.
  revert w. induction p as [a|e|c k IH|l q IH]; intros w; cbn [bind run].
  - destruct (run respond (f a) w) as [[o2 w2] tr2]. reflexivity.
  - reflexivity.
  - destruct (respond c w) as [r w1]. rewrite IH.
    destruct (run respond (k r) w1) as [[o w2] tr1].
    destruct o as [a|e]; [|reflexivity].
    destruct (run respond (f a) w2) as [[o2 w3] tr2]. reflexivity.
  - rewrite IH. destruct (run respond q w) as [[o w1] tr1].
    destruct o as [a|e]; [|reflexivity].
    destruct (run respond (f a) w1) as [[o2 w2] tr2]. reflexivity.
Qed.

Lemma run_try_catch {A} (p : Prog A) (h : Err -> Prog A) (w : World) :
  run respond (try_catch p h) w =
  let '(o, w1, tr1) := run respond p w in
  match o with
  | Returned a => (Returned a, w1, tr1)
  | Thrown e =>
      let '(o2, w2, tr2) := run respond (h e) w1 in (o2, w2, (tr1 ++ tr2)%list)
  end.
Proof.
  revert w. induction p as [a|e|c k IH|l q IH]; intros w; cbn [try_catch run].
  - reflexivity.
  - destruct (run respond (h e) w) as [[o2 w2] tr2]. reflexivity.
  - destruct (respond c w) as [r w1]. rewrite IH.
    destruct (run respond (k r) w1) as [[o w2] tr1].
    destruct o as [a|e]; [reflexivity|].
    destruct (run respond (h e) w2) as [[o2 w3] tr2]. reflexivity.
  - rewrite IH. destruct (run respond q w) as [[o w1] tr1].
    destruct o as [a|e]; [reflexivity|].
    destruct (run respond (h e) w1) as [[o2 w2] tr2]. reflexivity.
Qed.

Lemma wp_run {A} (p : Prog A) :
  forall Q, wp p Q ->
  forall w : World,
    Q (outcome_of (run respond p w)) (trace_of (run respond p w)).
Proof.
  induction p as [a|e|c k IH|l q IH]; intros Q H w.
  - exact H.
  - exact H.
  - cbn [run]. destruct (respond c w) as [r w1].
    specialize (IH r _ (H r) w1).
    destruct (run respond (k r) w1) as [[o w2] tr]. exact IH.
  - cbn [run]. specialize (IH _ H w).
    destruct (run respond q w) as [[o w1] tr]. exact IH.
Qed.

Lemma wp_run_eq {A} (p : Prog A) Q (w w' : World) o tr :
  wp p Q -> run respond p w = (o, w', tr) -> Q o tr.
Proof.
  intros H E. pose proof (wp_run p Q H w) as R. now rewrite E in R.
Qed.
End RunFacts.

Ltac destruct_head p :=
  lazymatch p with
  | bind ?q _ => destruct_head q
  | try_catch ?q _ => destruct_head q
  | lift ?o => destruct o eqn:?
  | (if ?b then _ else _) => destruct b eqn:?
  | match ?o with Some _ => _ | None => _ end => destruct o eqn:?
  end.

Ltac exec_step :=
  cbn [wp bind try_catch await lift console_log console_error];
  lazymatch goal with
  | |- forall r : Resp _, _ => intros [?|?]
  | |- wp ?p _ => destruct_head p
  end.

Ltac exec := repeat exec_step;
  cbn [wp bind try_catch await lift console_log console_error].

Lemma buildLeg_wp (env : Env) (leg : Leg) (vaultOwner mint : PublicKey)
    (amount : Z) :
  wp (buildLeg env leg vaultOwner mint amount)
     (fun o tr => forall tx, o = Returned tx ->
                             LegBuilt env leg vaultOwner mint amount tx tr).
Proof.
  destruct leg; cbn [buildLeg].
  - unfold buildSwapTransaction. exec.
    all: try (intros tx Htx; discriminate Htx).
    all: try (match goal with
              | |- context [includes ?a ?b] => destruct (includes a b)
              end; cbn; intros tx Htx; discriminate Htx).
    intros tx Htx. injection Htx as <-.
    match goal with
    | |- LegBuilt _ _ _ _ _ _ (?e1 :: ?e2 :: ?rest) =>
        change (e1 :: e2 :: rest) with ([e1; e2] ++ rest)%list
    end.
    eapply (LegBuilt_intro env Primary); eauto.
    + do 2 eexists. split; [reflexivity|].
      split; apply Z.ltb_ge; eassumption.
    + now apply negb_false_iff.
    + now apply negb_false_iff.
  - unfold buildSwapFeeToSolTransaction. exec.
    all: try (intros tx Htx; discriminate Htx).
    intros tx Htx. injection Htx as <-.
    match goal with
    | |- LegBuilt _ _ _ _ _ _ ?tr => change tr with ([] ++ tr)%list
    end.
    eapply (LegBuilt_intro env FeeConversion); eauto.
    + now apply negb_false_iff.
    + now apply negb_false_iff.
Qed.

Lemma buildLeg_returns (env : Env) (leg : Leg) (vaultOwner mint : PublicKey)
    (amount : Z) {World : Type}
    (respond : forall c : NetCmd, World -> Resp c * World)
    (w w' : World) (tx : Transaction) (tr : list Event) :
  run respond (buildLeg env leg vaultOwner mint amount) w = (Returned tx, w', tr) ->
  LegBuilt env leg vaultOwner mint amount tx tr.
Proof.
  intros H.
  exact (wp_run_eq respond _ _ w w' _ tr (buildLeg_wp env leg vaultOwner mint amount)
                   H tx eq_refl).
Qed.

(* ================================================================== *)
(** ** The assembled transaction *)

Lemma discriminator_lengths (leg : Leg) :
  List.length (legDiscriminator leg) = 8%nat /\
  List.length coverFeeDiscriminator = 8%nat /\
  legDiscriminator leg <> coverFeeDiscriminator.
Proof. destruct leg; repeat split; discriminate. Qed.

(** The checks ahead of the quote request reach neither the aggregator nor
    the relay. *)
Lemma preamble_projections (env : Env) (leg : Leg) (vaultOwner mint : PublicKey)
    (amount : Z) (preamble : list Event) :
  match leg with
  | Primary =>
      exists tokens balance,
        preamble =
          [ NetEvent (GetAccount (getAssociatedTokenAddress env mint
                                    (getVaultAddress env vaultOwner)))
                     (Returned tokens);
            NetEvent (GetBalance (getVaultAddress env vaultOwner))
                     (Returned balance) ] /\
        amount <= tokens /\ minRequiredBalance <= balance
  | FeeConversion => preamble = []
  end ->
  fetchedQuotes preamble = [] /\ fetchedSwaps preamble = [] /\
  feeProbes preamble = [] /\ quoteAmounts preamble = [] /\
  submissions preamble = [] /\ forallb isPipelineCall preamble = true.
Proof.
  destruct leg.
  - intros [tokens [balance [-> _]]]. repeat split; reflexivity.
  - intros ->. repeat split; reflexivity.
Qed.

Ltac open_build H :=
  apply buildLeg_returns in H;
  destruct H as [preamble quoteResponse quote minAmountOut swapResponse
    swapData aggregatorTx jupiterInstruction instructionData coverData
    relayerPubkey blockhash feeEstimate vault swapInstruction coverFeeInstruction
    probe Hpre Hqok Hqjson Hmin Hsok Hsjson Hdecode Hfind Hdata Hcover];
  pose proof (preamble_projections _ _ _ _ _ _ Hpre) as
    [Hquotes [Hswaps [Hprobes [Hamounts [Hsubs Hnet]]]]].

(** C1. Whatever the network answers, a transaction returned by either
    builder (the primary swap leg or the fee-conversion leg) holds exactly
    two instructions: the fee-coverage instruction first, the leg's swap
    instruction second, and never the two in the reverse order. *)
Theorem assembled_instruction_order (env : Env) (leg : Leg)
    (vaultOwner mint : PublicKey) (amount : Z) {World : Type}
    (respond : forall c : NetCmd, World -> Resp c * World)
    (w w' : World) (tx : Transaction) (tr : list Event) :
  run respond (buildLeg env leg vaultOwner mint amount) w = (Returned tx, w', tr) ->
  exists coverFee swap,
    instructions tx = [coverFee; swap] /\
    calls coverFeeDiscriminator coverFee /\
    calls (legDiscriminator leg) swap /\
    instructions tx <> [swap; coverFee].
Proof.
  intros H. open_build H.
  apply swapInstructionData_prefix in Hdata.
  destruct Hdata as [a [m [l [Hpayload _]]]].
  apply coverFeeData_returned in Hcover. destruct Hcover as [Hc _].
  destruct (discriminator_lengths leg) as [Hl [Hcl Hne]].
  assert (Hsw : firstn 8 (data swapInstruction) = legDiscriminator leg).
  { subst swapInstruction. cbn [data]. rewrite Hpayload. now apply firstn_8_app. }
  assert (Hcf : firstn 8 (data coverFeeInstruction) = coverFeeDiscriminator).
  { subst coverFeeInstruction. cbn [data]. rewrite Hc. now apply firstn_8_app. }
  exists coverFeeInstruction, swapInstruction. cbn [instructions].
  split; [reflexivity|]. split; [now split|]. split; [now split|].
  intros E. apply Hne. rewrite <- Hsw, <- Hcf.
  apply (f_equal (fun l => match l with
                           | ix :: _ => firstn 8 (data ix)
                           | [] => []
                           end)) in E.
  symmetry. exact E.
Qed.

Lemma assembled_instruction_order_witness :
  exists tx tr,
    run (Sample.respond 200000 (JsString "1999") (Some 5000))
        (buildLeg Sample.env Primary "owner" "USDC" 2000000) tt
    = (Returned tx, tt, tr) /\
    exists coverFee swap,
      instructions tx = [coverFee; swap] /\
      calls coverFeeDiscriminator coverFee /\
      calls (legDiscriminator Primary) swap /\
      instructions tx <> [swap; coverFee].
Proof.
  eexists. eexists. split.
  - vm_compute. reflexivity.
  - eapply (assembled_instruction_order Sample.env Primary "owner" "USDC" 2000000
              (Sample.respond 200000 (JsString "1999") (Some 5000)) tt tt).
    vm_compute. reflexivity.
Defined.

(** C4. In a build that returns, the network priced exactly one probe, which
    holds the swap instruction alone; the estimate is the base fee plus the
    fixed margin of 10000, where the base fee is the priced value when it is
    positive and the fallback 50000 when no value is available; the estimate
    is at least the priced value plus the margin; and the data of the
    fee-coverage instruction is its discriminator followed by the estimate
    as 8 little-endian bytes. *)
Theorem cover_fee_encodes_estimate (env : Env) (leg : Leg)
    (vaultOwner mint : PublicKey) (amount : Z) {World : Type}
    (respond : forall c : NetCmd, World -> Resp c * World)
    (w w' : World) (tx : Transaction) (tr : list Event) :
  run respond (buildLeg env leg vaultOwner mint amount) w = (Returned tx, w', tr) ->
  (forall probe v, In (probe, Some v) (feeProbes tr) ->
                   0 <= v /\ v + coverFeeInstructionCost <= 9007199254740991) ->
  exists probe feeEstimate swap coverFee discr feeAmount,
    feeProbes tr = [(probe, feeEstimate)] /\
    instructions probe = [swap] /\
    instructions tx = [coverFee; swap] /\
    data coverFee = (discr ++ feeAmount)%list /\
    map Buffer.Z_of_byte discr = [64; 23; 219; 120; 75; 63; 68; 190] /\
    List.length feeAmount = 8%nat /\
    Buffer.le_value feeAmount = estimatedFee feeEstimate /\
    estimatedFee feeEstimate = baseFee feeEstimate + 10000 /\
    (feeEstimate = None -> baseFee feeEstimate = 50000) /\
    (forall v, feeEstimate = Some v -> 0 < v -> baseFee feeEstimate = v) /\
    (forall v, feeEstimate = Some v -> v + 10000 <= estimatedFee feeEstimate).
Proof.
  intros H Hsafe. open_build H.
  assert (Hp : feeProbes
                 (preamble ++
                  [ NetEvent (FetchQuote mint (legOutputMint env leg) amount 50)
                             (Returned quoteResponse);
                    NetEvent (FetchSwap quote vault) (Returned swapResponse);
                    NetEvent GetRelayerPublicKey (Returned relayerPubkey);
                    NetEvent GetLatestBlockhash (Returned blockhash);
                    NetEvent (GetFeeForMessage probe) (Returned feeEstimate) ])
               = [(probe, feeEstimate)]).
  { unfold feeProbes in *. rewrite flat_map_app, Hprobes. reflexivity. }
  rewrite Hp in Hsafe.
  assert (Hnonneg : 0 <= estimatedFee feeEstimate).
  { unfold estimatedFee, baseFee, coverFeeInstructionCost.
    destruct feeEstimate as [v|]; [|lia].
    destruct (Hsafe probe v (or_introl eq_refl)) as [Hv _].
    destruct (v =? 0); lia. }
  apply coverFeeData_returned in Hcover. destruct Hcover as [Hc Hlt].
  rewrite Z.abs_eq in Hc, Hlt by exact Hnonneg.
  exists probe, feeEstimate, swapInstruction, coverFeeInstruction,
         coverFeeDiscriminator, (Buffer.le_bytes 8 (estimatedFee feeEstimate)).
  split; [exact Hp|]. split; [reflexivity|]. split; [reflexivity|].
  split; [exact Hc|]. split; [reflexivity|].
  split; [apply le_bytes_length|].
  split.
  { apply le_value_le_bytes_small. change (256 ^ Z.of_nat 8) with (2 ^ 64). lia. }
  split; [reflexivity|].
  split; [intros ->; reflexivity|].
  split.
  - intros v -> Hv. unfold baseFee.
    destruct (Z.eqb_spec v 0); [lia | reflexivity].
  - intros v ->. unfold estimatedFee, baseFee, coverFeeInstructionCost.
    destruct (Hsafe probe v (or_introl eq_refl)) as [Hv _].
    destruct (Z.eqb_spec v 0); lia.
Qed.

Lemma cover_fee_encodes_estimate_witness :
  exists tx tr,
    run (Sample.respond 200000 (JsString "1999") None)
        (buildLeg Sample.env FeeConversion "owner" "USDC" 8000) tt
    = (Returned tx, tt, tr) /\
    exists probe feeEstimate swap coverFee discr feeAmount,
      feeProbes tr = [(probe, feeEstimate)] /\
      instructions probe = [swap] /\
      instructions tx = [coverFee; swap] /\
      data coverFee = (discr ++ feeAmount)%list /\
      map Buffer.Z_of_byte discr = [64; 23; 219; 120; 75; 63; 68; 190] /\
      List.length feeAmount = 8%nat /\
      Buffer.le_value feeAmount = estimatedFee feeEstimate /\
      estimatedFee feeEstimate = baseFee feeEstimate + 10000 /\
      (feeEstimate = None -> baseFee feeEstimate = 50000) /\
      (forall v, feeEstimate = Some v -> 0 < v -> baseFee feeEstimate = v) /\
      (forall v, feeEstimate = Some v -> v + 10000 <= estimatedFee feeEstimate).
Proof.
  eexists. eexists. split.
  - vm_compute. reflexivity.
  - eapply (cover_fee_encodes_estimate Sample.env FeeConversion "owner" "USDC" 8000
              (Sample.respond 200000 (JsString "1999") None) tt tt).
    + vm_compute. reflexivity.
    + intros probe v Hin. vm_compute in Hin.
      destruct Hin as [Hin|[]]. discriminate Hin.
Defined.

(** C6. In a build that returns, for either leg, the accounts appended
    behind the fixed ones come from the aggregator instruction found in the
    fetched transaction; among them the vault appears marked as signer;
    when the aggregator's list lacks the vault, the appended list is that
    list with the vault in front, flagged signer and writable; when it has
    the vault, the appended keys are the aggregator's, in order. *)
Theorem vault_signs_aggregator_accounts (env : Env) (leg : Leg)
    (vaultOwner mint : PublicKey) (amount : Z) {World : Type}
    (respond : forall c : NetCmd, World -> Resp c * World)
    (w w' : World) (tx : Transaction) (tr : list Event) :
  run respond (buildLeg env leg vaultOwner mint amount) w = (Returned tx, w', tr) ->
  let vault := getVaultAddress env vaultOwner in
  exists swapResponse swapData aggregatorTx jupiterInstruction coverFee swap,
    fetchedSwaps tr = [swapResponse] /\
    json swapResponse = Returned swapData /\
    Transaction_from_base64 env (swapTransaction swapData) = Returned aggregatorTx /\
    find (fun ix => PublicKey_equals (programId ix) JUPITER_PROGRAM_ID)
         (instructions aggregatorTx) = Some jupiterInstruction /\
    instructions tx = [coverFee; swap] /\
    exists appended,
      keys swap = (legFixedKeys env leg vaultOwner mint ++ appended)%list /\
      (exists acc, In acc appended /\ pubkey acc = vault /\ isSigner acc = true) /\
      ((forall key, In key (keys jupiterInstruction) -> pubkey key <> vault) ->
       appended = mkMeta vault true true :: keys jupiterInstruction) /\
      ((exists key, In key (keys jupiterInstruction) /\ pubkey key = vault) ->
       map pubkey appended = map pubkey (keys jupiterInstruction)).
Proof.
  intros H vault0. open_build H. subst vault0. fold vault.
  exists swapResponse, swapData, aggregatorTx, jupiterInstruction,
         coverFeeInstruction, swapInstruction.
  split.
  { unfold fetchedSwaps in *. rewrite flat_map_app, Hswaps. reflexivity. }
  do 3 (split; [assumption|]). split; [reflexivity|].
  exists (ensureVaultSigner vault (keys jupiterInstruction)).
  split; [reflexivity|].
  split; [apply ensureVaultSigner_signer|].
  split; [apply ensureVaultSigner_absent | apply ensureVaultSigner_present].
Qed.

Lemma vault_signs_aggregator_accounts_witness :
  exists tx tr,
    run (Sample.respond 200000 (JsString "1999") (Some 5000))
        (buildLeg Sample.env Primary "owner" "USDC" 2000000) tt
    = (Returned tx, tt, tr) /\
    let vault := getVaultAddress Sample.env "owner" in
    exists swapResponse swapData aggregatorTx jupiterInstruction coverFee swap,
      fetchedSwaps tr = [swapResponse] /\
      json swapResponse = Returned swapData /\
      Transaction_from_base64 Sample.env (swapTransaction swapData)
      = Returned aggregatorTx /\
      find (fun ix => PublicKey_equals (programId ix) JUPITER_PROGRAM_ID)
           (instructions aggregatorTx) = Some jupiterInstruction /\
      instructions tx = [coverFee; swap] /\
      exists appended,
        keys swap = (legFixedKeys Sample.env Primary "owner" "USDC" ++ appended)%list /\
        (exists acc, In acc appended /\ pubkey acc = vault /\ isSigner acc = true) /\
        ((forall key, In key (keys jupiterInstruction) -> pubkey key <> vault) ->
         appended = mkMeta vault true true :: keys jupiterInstruction) /\
        ((exists key, In key (keys jupiterInstruction) /\ pubkey key = vault) ->
         map pubkey appended = map pubkey (keys jupiterInstruction)).
Proof.
  eexists. eexists. split.
  - vm_compute. reflexivity.
  - eapply (vault_signs_aggregator_accounts Sample.env Primary "owner" "USDC"
              2000000 (Sample.respond 200000 (JsString "1999") (Some 5000)) tt tt).
    vm_compute. reflexivity.
Defined.

(** C10. When the quote answer has no [outAmount] (undefined, null or the
    empty string), a build that returns, for either leg, carries a swap
    instruction whose minimum-output field is eight zero bytes, that is the
    value 0. *)
Theorem missing_outAmount_encodes_zero_minimum (env : Env) (leg : Leg)
    (vaultOwner mint : PublicKey) (amount : Z) {World : Type}
    (respond : forall c : NetCmd, World -> Resp c * World)
    (w w' : World) (tx : Transaction) (tr : list Event)
    (answer : Response Quote) (body : Quote) :
  run respond (buildLeg env leg vaultOwner mint amount) w = (Returned tx, w', tr) ->
  In answer (fetchedQuotes tr) ->
  json answer = Returned body ->
  outAmount body = JsUndefined \/ outAmount body = JsNull \/
  outAmount body = JsString "" ->
  exists coverFee swap amountIn routeLen route,
    instructions tx = [coverFee; swap] /\
    data swap = (legDiscriminator leg ++ amountIn ++ repeat x00 8
                 ++ routeLen ++ route)%list /\
    List.length amountIn = 8%nat /\
    List.length routeLen = 4%nat /\
    Buffer.le_value (repeat x00 8) = 0.
Proof.
  intros H Hin Hq Hout. open_build H.
  assert (Hqs : fetchedQuotes
                  (preamble ++
                   [ NetEvent (FetchQuote mint (legOutputMint env leg) amount 50)
                              (Returned quoteResponse);
                     NetEvent (FetchSwap quote vault) (Returned swapResponse);
                     NetEvent GetRelayerPublicKey (Returned relayerPubkey);
                     NetEvent GetLatestBlockhash (Returned blockhash);
                     NetEvent (GetFeeForMessage probe) (Returned feeEstimate) ])
                = [quoteResponse]).
  { unfold fetchedQuotes in *. rewrite flat_map_app, Hquotes. reflexivity. }
  rewrite Hqs in Hin. destruct Hin as [->|[]].
  rewrite Hq in Hqjson. injection Hqjson as ->.
  assert (Hzero : minAmountOut = 0).
  { destruct Hout as [E|[E|E]]; rewrite E in Hmin; cbn in Hmin;
      now injection Hmin as <-. }
  subst minAmountOut.
  apply swapInstructionData_prefix in Hdata.
  destruct Hdata as [a [m [l [Hpayload [Ha [Hm Hl]]]]]].
  apply toArrayLike_le_returned in Ha. destruct Ha as [Ha _].
  apply toArrayLike_le_returned in Hm. destruct Hm as [Hm _].
  apply writeUInt32LE_returned in Hl.
  exists coverFeeInstruction, swapInstruction, a, l, (data jupiterInstruction).
  split; [reflexivity|].
  split; [subst swapInstruction; cbn [data]; rewrite Hpayload, Hm; reflexivity|].
  split; [subst a; apply le_bytes_length|].
  split; [subst l; apply le_bytes_length | reflexivity].
Qed.

Lemma missing_outAmount_encodes_zero_minimum_witness :
  exists tx tr quoteResponse quote,
    run (Sample.respond 200000 JsUndefined (Some 5000))
        (buildLeg Sample.env Primary "owner" "USDC" 2000000) tt
    = (Returned tx, tt, tr) /\
    In quoteResponse (fetchedQuotes tr) /\
    json quoteResponse = Returned quote /\
    outAmount quote = JsUndefined /\
    exists coverFee swap amountIn routeLen route,
      instructions tx = [coverFee; swap] /\
      data swap = (legDiscriminator Primary ++ amountIn ++ repeat x00 8
                   ++ routeLen ++ route)%list /\
      List.length amountIn = 8%nat /\
      List.length routeLen = 4%nat /\
      Buffer.le_value (repeat x00 8) = 0.
Proof.
  eexists. eexists. eexists. eexists.
  split; [vm_compute; reflexivity|].
  split; [cbn; left; reflexivity|].
  split; [reflexivity|]. split; [reflexivity|].
  eapply (missing_outAmount_encodes_zero_minimum Sample.env Primary "owner" "USDC"
            2000000 (Sample.respond 200000 JsUndefined (Some 5000)) tt tt).
  - vm_compute. reflexivity.
  - cbn. left. reflexivity.
  - reflexivity.
  - left. reflexivity.
Defined.

(* ================================================================== *)
(** ** Guarded submission *)

Lemma wp_mono {A} (p : Prog A) :
  forall Q Q' : Outcome A -> list Event -> Prop,
    (forall o tr, Q o tr -> Q' o tr) -> wp p Q -> wp p Q'.
Proof.
  induction p as [a|e|c k IH|l q IH]; intros Q Q' HQ H; cbn [wp] in *.
  - now apply HQ.
  - now apply HQ.
  - intros r. eapply IH; [|apply H]. intros o tr. apply HQ.
  - eapply IH; [|apply H]. intros o tr. apply HQ.
Qed.

Lemma wp_bind {A B} (p : Prog A) (f : A -> Prog B) :
  forall Q : Outcome B -> list Event -> Prop,
    wp p (fun o tr =>
            match o with
            | Returned a => wp (f a) (fun o' tr' => Q o' (tr ++ tr')%list)
            | Thrown e => Q (Thrown e) tr
            end) ->
    wp (bind p f) Q.
Proof.
  induction p as [a|e|c k IH|l q IH]; intros Q H; cbn [wp bind] in *.
  - exact H.
  - exact H.
  - intros r. apply IH. exact (H r).
  - apply IH. exact H.
Qed.

(** The guarded form never throws. *)
Lemma wp_guarded (p : Prog unit) (msg : string) :
  wp (try_catch p (fun error => console_error msg error))
     (fun o _ => o = Returned tt).
Proof.
  induction p as [[]|e|c k IH|l q IH]; cbn [wp try_catch console_error].
  - reflexivity.
  - reflexivity.
  - intros r. apply IH.
  - apply IH.
Qed.

Lemma submit_wp (transaction : Transaction) (vault : PublicKey) :
  wp (submitSwapWithVaultFees transaction vault)
     (fun o tr =>
        forall balance, balancesRead tr = [(vault, balance)] ->
          (balance < minRequiredBalance ->
           o = Thrown (insufficientSol balance) /\ submissions tr = [] /\
           tr = [NetEvent (GetBalance vault) (Returned balance)]) /\
          (minRequiredBalance <= balance ->
           submissions tr = [transaction] /\
           exists r : Resp (SubmitViaRelayer transaction),
             tr = [NetEvent (GetBalance vault) (Returned balance);
                   NetEvent (SubmitViaRelayer transaction) r] /\
             o = r)).
Proof.
  unfold submitSwapWithVaultFees. exec.
  - intros balance E. cbn in E. injection E as <-.
    apply Z.ltb_lt in Heqb. split; [auto | lia].
  - intros balance E. cbn in E. injection E as <-.
    apply Z.ltb_ge in Heqb. split; [lia|]. intros _.
    split; [reflexivity|]. eexists. split; reflexivity.
  - intros balance E. cbn in E. injection E as <-.
    apply Z.ltb_ge in Heqb. split; [lia|]. intros _.
    split; [reflexivity|]. eexists. split; reflexivity.
  - intros balance E. discriminate E.
Qed.

(** C5, as amended. The threshold is the constant 100000.  When the vault
    balance read is strictly below it, submission is refused with the
    insufficient-balance error and nothing is handed to the relay; when the
    balance is at the threshold or above, the transaction is handed to the
    relay and the relay's answer is the result. *)
Theorem submission_guard (transaction : Transaction) (vault : PublicKey)
    {World : Type} (respond : forall c : NetCmd, World -> Resp c * World)
    (w w' : World) (o : Outcome string) (tr : list Event) (balance : Z) :
  run respond (submitSwapWithVaultFees transaction vault) w = (o, w', tr) ->
  balancesRead tr = [(vault, balance)] ->
  minRequiredBalance = 100000 /\
  (balance < minRequiredBalance ->
   o = Thrown (insufficientSol balance) /\ submissions tr = [] /\
   tr = [NetEvent (GetBalance vault) (Returned balance)]) /\
  (minRequiredBalance <= balance ->
   submissions tr = [transaction] /\
   exists r : Resp (SubmitViaRelayer transaction),
     tr = [NetEvent (GetBalance vault) (Returned balance);
           NetEvent (SubmitViaRelayer transaction) r] /\
     o = r).
Proof.
  intros H Hb. split; [reflexivity|].
  exact (wp_run_eq respond _ _ w w' o tr (submit_wp transaction vault) H balance Hb).
Qed.

Lemma submission_guard_witness :
  exists o tr,
    run (Sample.respond 99999 JsUndefined None)
        (submitSwapWithVaultFees Sample.transaction "vault-of-owner") tt
    = (o, tt, tr) /\
    balancesRead tr = [("vault-of-owner", 99999)] /\
    minRequiredBalance = 100000 /\
    (99999 < minRequiredBalance ->
     o = Thrown (insufficientSol 99999) /\ submissions tr = [] /\
     tr = [NetEvent (GetBalance "vault-of-owner") (Returned 99999)]) /\
    (minRequiredBalance <= 99999 ->
     submissions tr = [Sample.transaction] /\
     exists r : Resp (SubmitViaRelayer Sample.transaction),
       tr = [NetEvent (GetBalance "vault-of-owner") (Returned 99999);
             NetEvent (SubmitViaRelayer Sample.transaction) r] /\
       o = r).
Proof.
  eexists. eexists.
  split; [vm_compute; reflexivity|].
  split; [reflexivity|].
  eapply (submission_guard Sample.transaction "vault-of-owner"
            (Sample.respond 99999 JsUndefined None) tt tt).
  - vm_compute. reflexivity.
  - reflexivity.
Defined.

(** C5, as stated, fails: it is not the case that every balance not
    exceeding the threshold is refused without a submission.  At a balance
    of exactly 100000 the transaction is submitted. *)
Lemma submission_at_threshold_not_refused :
  ~ (forall balance : Z,
       balance <= minRequiredBalance ->
       exists e,
         outcome_of (run (Sample.respond balance JsUndefined None)
                         (submitSwapWithVaultFees Sample.transaction
                                                  "vault-of-owner") tt)
         = Thrown e /\
         submissions (trace_of (run (Sample.respond balance JsUndefined None)
                                    (submitSwapWithVaultFees Sample.transaction
                                                             "vault-of-owner") tt))
         = []).
Proof.
  intros H. destruct (H 100000) as [e [Ho _]].
  - unfold minRequiredBalance. lia.
  - vm_compute in Ho. discriminate Ho.
Qed.

(* ================================================================== *)
(** ** Swap attempts *)

Ltac leaf :=
  unfold attemptPost;
  split; [reflexivity|];
  split; [first [intros _; reflexivity | intros E; discriminate E]|];
  split; [reflexivity|];
  first [left; reflexivity | right; left; reflexivity | right; right; reflexivity].

Lemma swapAttempt_wp (env : Env) (vaultOwner : PublicKey) (mint : string) (n : Z) :
  wp (swapAttempt env vaultOwner mint n) (attemptPost n).
Proof.
  unfold swapAttempt, buildSwapTransaction, submitSwapWithVaultFees,
    buildSwapFeeToSolTransaction.
  exec.
  all: try (match goal with
            | |- context [includes ?a ?b] => destruct (includes a b)
            end; cbn [wp]).
  all: leaf.
Qed.

(* ================================================================== *)
(** ** The dispatcher *)


Section DispatcherFacts.
Variable env : Env.
Variable isVault : string -> bool.
Variable ownerOf : string -> option PublicKey.
Context {World : Type}.
Variable respond : forall c : NetCmd, World -> Resp c * World.



Lemma wp_token_transfer (t : TokenTransfer) :
  (exists n, BigInt.BigInt (tokenAmount t) = Returned n) ->
  wp (processTokenTransferWith env isVault ownerOf t)
     (fun o _ => o = Returned tt).
Proof.
  intros [n Hn]. unfold processTokenTransferWith.
  destruct (isVault (toTokenAccount t)); [|reflexivity].
  destruct (ownerOf (toTokenAccount t)) as [vaultOwner|]; [|reflexivity].
  rewrite Hn. cbn [lift bind].
  destruct (negb (mint t =? NEXT_PUBLIC_CBBTC_MINT env)%string && (n >? 0));
    [|reflexivity].
  cbn [console_log bind wp]. apply wp_guarded.
Qed.

Lemma wp_token_transfers (ts : list TokenTransfer) :
  Forall (fun t => exists n, BigInt.BigInt (tokenAmount t) = Returned n) ts ->
  wp (forEach ts (processTokenTransferWith env isVault ownerOf))
     (fun o _ => o = Returned tt).
Proof.
  induction 1 as [|t ts Ht _ IH]; cbn [forEach]; [reflexivity|].
  apply wp_bind. eapply wp_mono; [|apply (wp_token_transfer t Ht)].
  intros o tr ->. exact IH.
Qed.

Lemma wp_native_transfers (natives : list NativeTransfer) :
  wp (forEach natives (processNativeTransferWith isVault))
     (fun o _ => o = Returned tt).
Proof.
  induction natives as [|t natives IH]; cbn [forEach]; [reflexivity|].
  apply wp_bind. unfold processNativeTransferWith at 1.
  destruct (isVault (toUserAccount t)); cbn [console_log wp]; exact IH.
Qed.

Lemma batch_returns (tx : HeliusTransaction) (w : World) :
  Forall (fun t => exists n, BigInt.BigInt (tokenAmount t) = Returned n)
         (tokenTransfers tx) ->
  outcome_of (run respond (processHeliusTransactionWith env isVault ownerOf tx) w)
  = Returned tt.
Proof.
  intros H. unfold processHeliusTransactionWith.
  apply (wp_run respond _ (fun o _ => o = Returned tt)).
  apply wp_bind. eapply wp_mono; [|apply (wp_token_transfers _ H)].
  intros o tr ->. apply wp_native_transfers.
Qed.
End DispatcherFacts.

Section IsolationFacts.
Variable env : Env.
Variable isVault : string -> bool.
Variable ownerOf : string -> option PublicKey.
Context {World : Type}.
Variable respond : forall c : NetCmd, World -> Resp c * World.





End IsolationFacts.



(* ================================================================== *)
(** ** The handler of the source and the fee split *)

Lemma POST_replies_200 (env : Env) (isVault : string -> bool)
    (ownerOf : string -> option PublicKey)
    (otherFormats : HeliusTransaction -> Prog Reply) {World : Type}
    (respond : forall c : NetCmd, World -> Resp c * World)
    (body : HeliusTransaction) (w : World) :
  isTransferOrSwap (type body) = true ->
  Forall (fun t => exists n, BigInt.BigInt (tokenAmount t) = Returned n)
         (tokenTransfers body) ->
  outcome_of (run respond (POSTWith env isVault ownerOf otherFormats body) w)
  = Returned (mkReply 200 "Processed Helius transaction webhook").
Proof.
  intros Ht Hconv. unfold POSTWith. rewrite Ht.
  pose proof (batch_returns env isVault ownerOf respond body w Hconv) as Hret.
  cbn [forEach]. rewrite Ht. rewrite run_try_catch, !run_bind.
  destruct (run respond (processHeliusTransactionWith env isVault ownerOf body) w)
    as [[o w1] tr]. cbn in Hret. subst o. reflexivity.
Qed.

Lemma stand_in_token_transfers (env : Env) (ts : list TokenTransfer) :
  wp (forEach ts (processTokenTransferWith env (isVaultAddress env)
                                           getVaultOwnerFromAddress))
     (fun o tr => o = Returned tt /\ tr = []).
Proof.
  induction ts as [|t ts IH]; cbn [forEach]; [split; reflexivity|].
  apply wp_bind. unfold processTokenTransferWith at 1.
  unfold getVaultOwnerFromAddress.
  destruct (isVaultAddress env (toTokenAccount t)); cbn [wp]; exact IH.
Qed.

Lemma native_transfers_only_log (isVault : string -> bool)
    (natives : list NativeTransfer) :
  wp (forEach natives (processNativeTransferWith isVault))
     (fun o tr => o = Returned tt /\ count isPipelineCall tr = 0%nat).
Proof.
  induction natives as [|t natives IH]; cbn [forEach]; [split; reflexivity|].
  apply wp_bind. unfold processNativeTransferWith at 1.
  destruct (isVault (toUserAccount t)); cbn [console_log wp]; exact IH.
Qed.

(** With the owner lookup of the source, no transfer reaches the swap
    pipeline: the handler returns without a single network call. *)
Lemma stand_in_lookup_blocks_pipeline (env : Env) (tx : HeliusTransaction)
    {World : Type} (respond : forall c : NetCmd, World -> Resp c * World)
    (w : World) :
  outcome_of (run respond (processHeliusTransaction env tx) w) = Returned tt /\
  count isPipelineCall (trace_of (run respond (processHeliusTransaction env tx) w))
  = 0%nat.
Proof.
  apply (wp_run respond _
           (fun o tr => o = Returned tt /\ count isPipelineCall tr = 0%nat)).
  unfold processHeliusTransaction, processHeliusTransactionWith.
  apply wp_bind. eapply wp_mono; [|apply stand_in_token_transfers].
  intros o tr [-> ->]. cbn [app]. apply native_transfers_only_log.
Qed.

(** C7. A deposit to a valid address, in an asset other than the settlement
    asset and for a positive amount, is not dispatched by the handler of
    the source: the owner lookup answers no owner, and the handler returns
    without a quote request, a build or a submission. *)
Theorem deposit_is_not_dispatched :
  isVaultAddress Sample.env (toTokenAccount Sample.deposit) = true /\
  mint Sample.deposit <> NEXT_PUBLIC_CBBTC_MINT Sample.env /\
  BigInt.BigInt (tokenAmount Sample.deposit) = Returned 2000000 /\
  run (Sample.respond 200000 (JsString "1999") (Some 5000))
      (processHeliusTransaction Sample.env Sample.single) tt
  = (Returned tt, tt, []).
Proof.
  split; [reflexivity|]. split; [discriminate|]. split; reflexivity.
Qed.

Lemma new_PublicKey_returned (env : Env) (text : string) (key : PublicKey) :
  new_PublicKey env text = Returned key -> key = text.
Proof.
  unfold new_PublicKey. destruct (PublicKey_valid env text); [|discriminate].
  intros E. now injection E as <-.
Qed.

Lemma swapAttempt_fee_quote_wp (env : Env) (vaultOwner : PublicKey)
    (mint : string) (n : Z) :
  wp (swapAttempt env vaultOwner mint n)
     (fun o tr =>
        count isSwapSubmitted tr = 1%nat ->
        quoteRequests tr
        = (mint, NEXT_PUBLIC_CBBTC_MINT env, n, 50)
          :: (if feeToVault n >? 0
              then [(mint, WNATIVE_MINT, feeToVault n, 50)]
              else [])).
Proof.
  unfold swapAttempt, buildSwapTransaction, submitSwapWithVaultFees,
    buildSwapFeeToSolTransaction.
  exec.
  all: try (match goal with
            | |- context [includes ?a ?b] => destruct (includes a b)
            end; cbn [wp]).
  all: repeat match goal with
              | E : new_PublicKey _ _ = Returned _ |- _ =>
                  apply new_PublicKey_returned in E; subst
              end.
  all: first [intros E; discriminate E | intros _; reflexivity].
Qed.

(** C2. For every deposited amount [amountIn >= 0], the total fee is
    [floor (amountIn * 100 / 10000)] and the vault's share is
    [floor (totalFee * 4 / 10)]; the quote requests of a swap attempt are
    for [amountIn] and then for that share, whatever the aggregator
    answers; once the primary swap has been submitted the attempt does
    compute the share, from [amountIn]: when the share is positive the
    next quote it requests converts exactly that amount of the deposited
    mint to the native asset, and when it is zero it requests no other
    quote; and 1000000 yields 10000 and 4000. *)
Theorem fee_split_from_amountIn (amountIn : Z) :
  0 <= amountIn ->
  totalFee amountIn = amountIn * 100 / 10000 /\
  feeToVault amountIn = totalFee amountIn * 4 / 10 /\
  feeToVault amountIn = amountIn * 100 / 10000 * 4 / 10 /\
  (forall (env : Env) (vaultOwner : PublicKey) (mint : string) (World : Type)
          (respond : forall c : NetCmd, World -> Resp c * World) (w : World),
      let tr := trace_of (run respond (swapAttempt env vaultOwner mint amountIn) w) in
      quoteAmounts tr = [] \/ quoteAmounts tr = [amountIn] \/
      quoteAmounts tr = [amountIn; amountIn * 100 / 10000 * 4 / 10]) /\
  (forall (env : Env) (vaultOwner : PublicKey) (mint : string) (World : Type)
          (respond : forall c : NetCmd, World -> Resp c * World) (w : World),
      let tr := trace_of (run respond (swapAttempt env vaultOwner mint amountIn) w) in
      count isSwapSubmitted tr = 1%nat ->
      quoteRequests tr
      = (mint, NEXT_PUBLIC_CBBTC_MINT env, amountIn, 50)
        :: (if amountIn * 100 / 10000 * 4 / 10 >? 0
            then [(mint, WNATIVE_MINT, amountIn * 100 / 10000 * 4 / 10, 50)]
            else [])) /\
  totalFee 1000000 = 10000 /\
  feeToVault 1000000 = 4000.
Proof.
  intros H.
  split; [now apply totalFee_floor|].
  split.
  { rewrite feeToVault_floor by exact H. now rewrite totalFee_floor. }
  split; [now apply feeToVault_floor|].
  split; [|split; [|split; reflexivity]].
  - intros env vaultOwner mint World respond w tr.
    rewrite <- feeToVault_floor by exact H.
    pose proof (wp_run respond _ _ (swapAttempt_wp env vaultOwner mint amountIn) w)
      as [_ [_ [_ Hq]]].
    exact Hq.
  - intros env vaultOwner mint World respond w tr.
    rewrite <- feeToVault_floor by exact H.
    exact (wp_run respond _ _
             (swapAttempt_fee_quote_wp env vaultOwner mint amountIn) w).
Qed.

Lemma fee_split_from_amountIn_witness :
  0 <= 2000000 /\
  (totalFee 2000000 = 2000000 * 100 / 10000 /\
   feeToVault 2000000 = totalFee 2000000 * 4 / 10 /\
   feeToVault 2000000 = 2000000 * 100 / 10000 * 4 / 10 /\
   (forall (env : Env) (vaultOwner : PublicKey) (mint : string) (World : Type)
           (respond : forall c : NetCmd, World -> Resp c * World) (w : World),
       let tr := trace_of (run respond (swapAttempt env vaultOwner mint 2000000) w) in
       quoteAmounts tr = [] \/ quoteAmounts tr = [2000000] \/
       quoteAmounts tr = [2000000; 2000000 * 100 / 10000 * 4 / 10]) /\
   (forall (env : Env) (vaultOwner : PublicKey) (mint : string) (World : Type)
           (respond : forall c : NetCmd, World -> Resp c * World) (w : World),
       let tr := trace_of (run respond (swapAttempt env vaultOwner mint 2000000) w) in
       count isSwapSubmitted tr = 1%nat ->
       quoteRequests tr
       = (mint, NEXT_PUBLIC_CBBTC_MINT env, 2000000, 50)
         :: (if 2000000 * 100 / 10000 * 4 / 10 >? 0
             then [(mint, WNATIVE_MINT, 2000000 * 100 / 10000 * 4 / 10, 50)]
             else [])) /\
   totalFee 1000000 = 10000 /\
   feeToVault 1000000 = 4000) /\
  count isSwapSubmitted
    (trace_of (run (Sample.respond 200000 (JsString "1999") (Some 5000))
                   (swapAttempt Sample.env "owner" "USDC" 2000000) tt))
  = 1%nat /\
  quoteRequests
    (trace_of (run (Sample.respond 200000 (JsString "1999") (Some 5000))
                   (swapAttempt Sample.env "owner" "USDC" 2000000) tt))
  = [("USDC", "cbBTC", 2000000, 50); ("USDC", WNATIVE_MINT, 8000, 50)].
Proof.
  assert (Hpos : 0 <= 2000000) by lia.
  pose proof (fee_split_from_amountIn 2000000 Hpos) as H.
  split; [exact Hpos|]. split; [exact H|].
  destruct H as [_ [_ [_ [_ [Hq _]]]]].
  assert (Hs : count isSwapSubmitted
                 (trace_of (run (Sample.respond 200000 (JsString "1999") (Some 5000))
                                (swapAttempt Sample.env "owner" "USDC" 2000000) tt))
               = 1%nat) by (vm_compute; reflexivity).
  split; [exact Hs|].
  exact (Hq Sample.env "owner" "USDC" unit
            (Sample.respond 200000 (JsString "1999") (Some 5000)) tt Hs).
Defined.

(* ================================================================== *)
(** ** The builders, step by step *)

Lemma hasChar_app (c : ascii) (a b : string) :
  hasChar c (a ++ b) = hasChar c a || hasChar c b.
Proof.
  induction a as [|d a IH]; cbn; [reflexivity|].
  now rewrite IH, orb_assoc.
Qed.

Lemma hasChar_substring (c : ascii) (s : string) :
  forall m n, hasChar c (substring m n s) = true -> hasChar c s = true.
Proof.
  induction s as [|d s IH]; intros m n H.
  - destruct m, n; cbn in H; discriminate.
  - destruct m as [|m].
    + destruct n as [|n]; cbn in H; [discriminate|].
      cbn. apply orb_true_iff in H. apply orb_true_iff.
      destruct H as [H|H]; [now left | right; eapply IH; exact H].
    + cbn in H. cbn. apply orb_true_iff. right. eapply IH; exact H.
Qed.

Lemma includes_hasChar (c : ascii) (sub s : string) :
  includes sub s = true -> hasChar c sub = true -> hasChar c s = true.
Proof.
  unfold includes. destruct (String.index 0 sub s) as [m|] eqn:E; [|discriminate].
  intros _ H. apply index_correct1 in E.
  apply (hasChar_substring c s m (String.length sub)). now rewrite E.
Qed.

Lemma uint_no_letter (c : ascii) :
  (N_of_ascii c <? 48)%N || (57 <? N_of_ascii c)%N = true ->
  forall u, hasChar c (NilEmpty.string_of_uint u) = false.
Proof.
  intros Hc. induction u; cbn [NilEmpty.string_of_uint hasChar]; try reflexivity;
    rewrite IHu, orb_false_r; apply Ascii.eqb_neq; intros ->; cbn in Hc; discriminate.
Qed.

Lemma Z_toString_no_letter (c : ascii) (z : Z) :
  (N_of_ascii c <? 45)%N || (57 <? N_of_ascii c)%N = true ->
  hasChar c (Z_toString z) = false.
Proof.
  intros Hc. unfold Z_toString, NilZero.string_of_int.
  assert (Hc' : (N_of_ascii c <? 48)%N || (57 <? N_of_ascii c)%N = true).
  { apply orb_true_iff in Hc. apply orb_true_iff.
    destruct Hc as [H|H]; [left|now right].
    apply N.ltb_lt in H. apply N.ltb_lt. lia. }
  assert (Hu : forall u, hasChar c (NilZero.string_of_uint u) = false).
  { intros u. unfold NilZero.string_of_uint.
    destruct u; try apply (uint_no_letter c Hc').
    cbn. rewrite orb_false_r. apply Ascii.eqb_neq. intros ->. cbn in Hc. discriminate. }
  destruct (Z.to_int z) as [u|u].
  - apply Hu.
  - cbn [hasChar]. rewrite Hu, orb_false_r.
    apply Ascii.eqb_neq. intros ->. cbn in Hc. discriminate.
Qed.

Lemma insufficient_balance_message (tokens amount : Z) :
  includes "could not find account"
    ("Insufficient balance. Vault has " ++ Z_toString tokens
     ++ ", need " ++ Z_toString amount) = false.
Proof.
  destruct (includes _ _) eqn:E; [|reflexivity].
  apply (includes_hasChar "o") in E; [|reflexivity].
  rewrite !hasChar_app in E.
  rewrite !(Z_toString_no_letter "o") in E by reflexivity.
  cbn in E. discriminate E.
Qed.

Lemma wp_always {A} (p : Prog A) :
  forall Q : Outcome A -> list Event -> Prop, (forall o tr, Q o tr) -> wp p Q.
Proof.
  induction p as [a|e|c k IH|l q IH]; intros Q H; cbn [wp]; auto.
Qed.

Ltac by_wp H :=
  match type of H with
  | run _ _ _ = (?o, _, ?tr) =>
      pattern o, tr; eapply (wp_run_eq _); [|exact H]; clear H
  end.

(** X1. The first call of [buildSwapTransaction] reads the vault's token account
    for the input mint.  When the account holds less than the amount, the
    build stops there with the insufficient-balance error, which the
    [catch] around the check rethrows unchanged; when the read is rejected,
    the build stops there too, with the missing-account error if the
    message says so and with the rejection otherwise. *)
Theorem build_checks_token_balance (env : Env) (vaultOwner inputMint : PublicKey)
    (amount : Z) {World : Type}
    (respond : forall c : NetCmd, World -> Resp c * World)
    (w w' : World) (o : Outcome Transaction) (tr : list Event) :
  run respond (buildSwapTransaction env vaultOwner inputMint amount) w = (o, w', tr) ->
  exists (r : Outcome Z) (rest : list Event),
    tr = NetEvent (GetAccount (getAssociatedTokenAddress env inputMint
                                 (getVaultAddress env vaultOwner))) r :: rest /\
    match r with
    | Returned tokens =>
        tokens < amount ->
        rest = [] /\
        o = Thrown (Error ("Insufficient balance. Vault has " ++ Z_toString tokens
                           ++ ", need " ++ Z_toString amount))
    | Thrown e =>
        rest = [] /\
        o = Thrown (if includes "could not find account" (message e)
                    then Error "Vault token account does not exist"
                    else e)
    end.
Proof.
  intros H. by_wp H.
  unfold buildSwapTransaction. cbn [wp bind try_catch await lift].
  intros [tokens|e]; cbn [wp bind try_catch await lift].
  - destruct (tokens <? amount) eqn:E.
    + cbn [wp bind try_catch message].
      rewrite insufficient_balance_message. cbn [wp bind].
      eexists. eexists. split; [reflexivity|]. intros _. split; reflexivity.
    + apply wp_always. intros o' tr'. eexists. eexists. split; [reflexivity|].
      cbn. intros Hlt. apply Z.ltb_ge in E. lia.
  - destruct (includes "could not find account" (message e)) eqn:E;
      cbn [wp bind]; eexists; eexists; (split; [reflexivity|]); cbn;
      rewrite ?E; split; reflexivity.
Qed.

Lemma build_checks_token_balance_witness :
  exists o tr,
    run (Sample.respond 200000 (JsString "1999") (Some 5000))
        (buildSwapTransaction Sample.env "owner" "USDC" 6000000) tt = (o, tt, tr) /\
    exists (r : Outcome Z) (rest : list Event),
      tr = NetEvent (GetAccount (getAssociatedTokenAddress Sample.env "USDC"
                                   (getVaultAddress Sample.env "owner"))) r :: rest /\
      match r with
      | Returned tokens =>
          tokens < 6000000 ->
          rest = [] /\
          o = Thrown (Error ("Insufficient balance. Vault has " ++ Z_toString tokens
                             ++ ", need " ++ Z_toString 6000000))
      | Thrown e =>
          rest = [] /\
          o = Thrown (if includes "could not find account" (message e)
                      then Error "Vault token account does not exist"
                      else e)
      end.
Proof.
  eexists. eexists. split; [vm_compute; reflexivity|].
  eapply (build_checks_token_balance Sample.env "owner" "USDC" 6000000
            (Sample.respond 200000 (JsString "1999") (Some 5000)) tt tt).
  vm_compute. reflexivity.
Defined.

Lemma buildLeg_quiet_wp (env : Env) (leg : Leg) (vaultOwner mint : PublicKey)
    (amount : Z) :
  wp (buildLeg env leg vaultOwner mint amount)
     (fun _ tr =>
        submissions tr = [] /\ forallb isPipelineCall tr = true /\
        (List.length (quoteAmounts tr) <=? 1)%nat = true /\
        (List.length (swapRequests tr) <=? 1)%nat = true /\
        (List.length (feeProbes tr) <=? 1)%nat = true).
Proof.
  destruct leg; cbn [buildLeg];
    [unfold buildSwapTransaction | unfold buildSwapFeeToSolTransaction]; exec.
  all: try (match goal with
            | |- context [includes ?a ?b] => destruct (includes a b)
            end; cbn [wp]).
  all: repeat split; reflexivity.
Qed.

(** X2. Neither builder hands anything to the relay: a run of either, returning
    or not, consists of network calls only (it logs nothing), with no
    submission and at most one quote request, one swap-instruction request
    and one fee probe. *)
Theorem builders_never_submit (env : Env) (leg : Leg) (vaultOwner mint : PublicKey)
    (amount : Z) {World : Type}
    (respond : forall c : NetCmd, World -> Resp c * World)
    (w w' : World) (o : Outcome Transaction) (tr : list Event) :
  run respond (buildLeg env leg vaultOwner mint amount) w = (o, w', tr) ->
  submissions tr = [] /\
  count isPipelineCall tr = List.length tr /\
  (List.length (quoteAmounts tr) <= 1)%nat /\
  (List.length (swapRequests tr) <= 1)%nat /\
  (List.length (feeProbes tr) <= 1)%nat.
Proof.
  intros H.
  pose proof (wp_run_eq respond _ _ w w' o tr
                (buildLeg_quiet_wp env leg vaultOwner mint amount) H)
    as [Hs [Hn [Hq [Hr Hp]]]].
  split; [exact Hs|]. split.
  { unfold count. clear -Hn. induction tr as [|ev tr IH]; [reflexivity|].
    cbn in Hn |- *. apply andb_true_iff in Hn. destruct Hn as [He Hn].
    rewrite He. cbn. now rewrite IH. }
  repeat split; now apply Nat.leb_le.
Qed.

Lemma builders_never_submit_witness :
  exists o tr,
    run (Sample.respond 200000 (JsString "1999") (Some 5000))
        (buildLeg Sample.env Primary "owner" "USDC" 2000000) tt = (o, tt, tr) /\
    submissions tr = [] /\
    count isPipelineCall tr = List.length tr /\
    (List.length (quoteAmounts tr) <= 1)%nat /\
    (List.length (swapRequests tr) <= 1)%nat /\
    (List.length (feeProbes tr) <= 1)%nat.
Proof.
  eexists. eexists. split; [vm_compute; reflexivity|].
  eapply (builders_never_submit Sample.env Primary "owner" "USDC" 2000000
            (Sample.respond 200000 (JsString "1999") (Some 5000)) tt tt).
  vm_compute. reflexivity.
Defined.

(** X3. When the balance [buildSwapTransaction] reads for the vault is below
    [minRequiredBalance], the build throws the insufficient-SOL error after
    its two reads, before any quote is requested. *)
Theorem build_checks_sol_balance (env : Env) (vaultOwner inputMint : PublicKey)
    (amount : Z) {World : Type}
    (respond : forall c : NetCmd, World -> Resp c * World)
    (w w' : World) (o : Outcome Transaction) (tr : list Event) (balance : Z) :
  run respond (buildSwapTransaction env vaultOwner inputMint amount) w = (o, w', tr) ->
  balancesRead tr = [(getVaultAddress env vaultOwner, balance)] ->
  balance < minRequiredBalance ->
  o = Thrown (insufficientSol balance) /\
  quoteAmounts tr = [] /\ List.length tr = 2%nat.
Proof.
  intros H. revert balance. by_wp H.
  unfold buildSwapTransaction. exec.
  all: try (match goal with
            | |- context [includes ?a ?b] => destruct (includes a b)
            end; cbn [wp]).
  all: intros balance Hb Hlt; cbn in Hb; try discriminate Hb;
    injection Hb as <-.
  all: try (match goal with
            | E : (_ <? minRequiredBalance) = false |- _ =>
                apply Z.ltb_ge in E; lia
            end).
  all: repeat split; reflexivity.
Qed.

Lemma build_checks_sol_balance_witness :
  exists o tr,
    run (Sample.respond 99999 (JsString "1999") (Some 5000))
        (buildSwapTransaction Sample.env "owner" "USDC" 2000000) tt = (o, tt, tr) /\
    balancesRead tr = [(getVaultAddress Sample.env "owner", 99999)] /\
    99999 < minRequiredBalance /\
    o = Thrown (insufficientSol 99999) /\
    quoteAmounts tr = [] /\ List.length tr = 2%nat.
Proof.
  eexists. eexists. split; [vm_compute; reflexivity|].
  split; [reflexivity|]. split; [reflexivity|].
  eapply (build_checks_sol_balance Sample.env "owner" "USDC" 2000000
            (Sample.respond 99999 (JsString "1999") (Some 5000)) tt tt).
  - vm_compute. reflexivity.
  - reflexivity.
  - reflexivity.
Defined.

(** X4. When the aggregator answers the quote request of either builder with a
    response that is not [ok], the build throws the leg's quote error with
    the response text appended, right after that request: no
    swap-instruction request follows. *)
Theorem refused_quote_aborts_leg (env : Env) (leg : Leg)
    (vaultOwner mint : PublicKey) (amount : Z) {World : Type}
    (respond : forall c : NetCmd, World -> Resp c * World)
    (w w' : World) (o : Outcome Transaction) (tr : list Event)
    (answer : Response Quote) :
  run respond (buildLeg env leg vaultOwner mint amount) w = (o, w', tr) ->
  fetchedQuotes tr = [answer] ->
  ok answer = false ->
  swapRequests tr = [] /\
  List.length tr = S (preambleCalls leg) /\
  exists e, o = Thrown e /\
            forall t, text answer = Returned t ->
                      e = Error (quoteErrorPrefix leg ++ t).
Proof.
  intros H. revert answer. by_wp H.
  destruct leg; cbn [buildLeg];
    [unfold buildSwapTransaction | unfold buildSwapFeeToSolTransaction]; exec.
  all: try (match goal with
            | |- context [includes ?a ?b] => destruct (includes a b)
            end; cbn [wp]).
  all: intros answer Hq Hok; cbn in Hq; try discriminate Hq;
    injection Hq as <-.
  all: try (match goal with
            | E : negb (ok ?a) = false |- _ =>
                rewrite Hok in E; discriminate E
            end).
  all: split; [reflexivity|]; split; [reflexivity|];
    eexists; split; [reflexivity|]; intros t Ht;
    rewrite Ht in *.
  all: try discriminate.
  all: match goal with
       | E : Returned _ = Returned _ |- _ => injection E as <-
       end; reflexivity.
Qed.

Lemma refused_quote_aborts_leg_witness :
  exists o tr,
    run (Sample.respond 200000 (JsString "1999") (Some 5000))
        (buildLeg Sample.env FeeConversion "owner" "unlisted" 700) tt
    = (o, tt, tr) /\
    fetchedQuotes tr = [mkResponse false (Returned "no route")
                                   (Returned (mkQuote (JsString "1999") "route"))] /\
    swapRequests tr = [] /\
    List.length tr = S (preambleCalls FeeConversion) /\
    exists e, o = Thrown e /\
              forall t, Returned "no route" = Returned t ->
                        e = Error (quoteErrorPrefix FeeConversion ++ t).
Proof.
  eexists. eexists. split; [vm_compute; reflexivity|].
  split; [reflexivity|].
  eapply (refused_quote_aborts_leg Sample.env FeeConversion "owner" "unlisted" 700
            (Sample.respond 200000 (JsString "1999") (Some 5000)) tt tt _ _
            (mkResponse false (Returned "no route")
                        (Returned (mkQuote (JsString "1999") "route")))).
  - vm_compute. reflexivity.
  - reflexivity.
  - reflexivity.
Defined.

Lemma find_program_none (program : PublicKey) (ixs : list Instruction) :
  (forall ix, In ix ixs -> programId ix <> program) ->
  find (fun ix => PublicKey_equals (programId ix) program) ixs = None.
Proof.
  induction ixs as [|i ixs IH]; intros H; cbn; [reflexivity|].
  unfold PublicKey_equals at 1.
  destruct (String.eqb_spec (programId i) program) as [E|E].
  - exfalso. apply (H i); [now left | exact E].
  - apply IH. intros ix Hix. apply H. now right.
Qed.

(** X5. When the transaction the aggregator returns holds no instruction of the
    aggregator's program, either builder throws its instruction-not-found
    error right after the swap-instruction request: the relay identity,
    the blockhash and the fee are never asked for. *)
Theorem missing_aggregator_instruction_aborts_leg (env : Env) (leg : Leg)
    (vaultOwner mint : PublicKey) (amount : Z) {World : Type}
    (respond : forall c : NetCmd, World -> Resp c * World)
    (w w' : World) (o : Outcome Transaction) (tr : list Event)
    (answer : Response SwapData) (body : SwapData) (fetched : Transaction) :
  run respond (buildLeg env leg vaultOwner mint amount) w = (o, w', tr) ->
  fetchedSwaps tr = [answer] ->
  ok answer = true ->
  json answer = Returned body ->
  Transaction_from_base64 env (swapTransaction body) = Returned fetched ->
  (forall ix, In ix (instructions fetched) -> programId ix <> JUPITER_PROGRAM_ID) ->
  o = Thrown (Error (missingInstructionError leg)) /\
  relayersRead tr = [] /\ blockhashesRead tr = [] /\ feeProbes tr = [] /\
  List.length tr = S (S (preambleCalls leg)).
Proof.
  intros H Hs Hok Hj Hd Hnone. apply find_program_none in Hnone.
  revert answer body fetched Hs Hok Hj Hd Hnone. by_wp H.
  destruct leg; cbn [buildLeg];
    [unfold buildSwapTransaction | unfold buildSwapFeeToSolTransaction]; exec.
  all: try (match goal with
            | |- context [includes ?a ?b] => destruct (includes a b)
            end; cbn [wp]).
  all: intros answer body fetched Hs Hok Hj Hd Hnone; cbn in Hs;
    try discriminate Hs; injection Hs as <-.
  all: try (match goal with
            | E : negb (ok ?a) = true |- _ => rewrite Hok in E; discriminate E
            end).
  all: rewrite Hj in *; try discriminate.
  all: match goal with
       | E : Returned _ = Returned _ |- _ => injection E as <-
       end.
  all: rewrite Hd in *; try discriminate.
  all: match goal with
       | E : Returned _ = Returned _ |- _ => injection E as <-
       end.
  all: rewrite Hnone in *; try discriminate.
  all: repeat split; reflexivity.
Qed.

Lemma missing_aggregator_instruction_aborts_leg_witness :
  exists o tr,
    run (Sample.respond 200000 (JsString "1999") (Some 5000))
        (buildLeg Fixture.plainEnv Primary "owner" "USDC" 2000000) tt
    = (o, tt, tr) /\
    fetchedSwaps tr = [mkResponse true (Returned "")
                                  (Returned (mkSwapData "AQID"))] /\
    Transaction_from_base64 Fixture.plainEnv "AQID" = Returned Fixture.plainTx /\
    (forall ix, In ix (instructions Fixture.plainTx) ->
                programId ix <> JUPITER_PROGRAM_ID) /\
    o = Thrown (Error (missingInstructionError Primary)) /\
    relayersRead tr = [] /\ blockhashesRead tr = [] /\ feeProbes tr = [] /\
    List.length tr = S (S (preambleCalls Primary)).
Proof.
  assert (Hplain : forall ix, In ix (instructions Fixture.plainTx) ->
                              programId ix <> JUPITER_PROGRAM_ID).
  { intros ix [<-|[]]. discriminate. }
  eexists. eexists. split; [vm_compute; reflexivity|].
  split; [reflexivity|]. split; [reflexivity|]. split; [exact Hplain|].
  eapply (missing_aggregator_instruction_aborts_leg Fixture.plainEnv Primary
            "owner" "USDC" 2000000
            (Sample.respond 200000 (JsString "1999") (Some 5000)) tt tt _ _
            (mkResponse true (Returned "") (Returned (mkSwapData "AQID")))
            (mkSwapData "AQID") Fixture.plainTx).
  - vm_compute. reflexivity.
  - reflexivity.
  - reflexivity.
  - reflexivity.
  - reflexivity.
  - exact Hplain.
Defined.

(** X6. A transaction returned by either builder carries the blockhash and the
    relay identity that the run read, once each, and the fee probe was
    priced with the same two; the cover-fee instruction lists the vault,
    the owner, the relay and the system program, and neither it nor the
    fixed accounts of the swap instruction name a signer. *)
Theorem built_transaction_checkpoint_and_payer (env : Env) (leg : Leg)
    (vaultOwner mint : PublicKey) (amount : Z) {World : Type}
    (respond : forall c : NetCmd, World -> Resp c * World)
    (w w' : World) (tx : Transaction) (tr : list Event) :
  run respond (buildLeg env leg vaultOwner mint amount) w = (Returned tx, w', tr) ->
  exists relayerPubkey blockhash probe feeEstimate coverFee swap,
    relayersRead tr = [relayerPubkey] /\
    blockhashesRead tr = [blockhash] /\
    feeProbes tr = [(probe, feeEstimate)] /\
    recentBlockhash tx = Some blockhash /\
    feePayer tx = Some relayerPubkey /\
    recentBlockhash probe = Some blockhash /\
    feePayer probe = Some relayerPubkey /\
    instructions tx = [coverFee; swap] /\
    keys coverFee =
      [ mkMeta (getVaultAddress env vaultOwner) false true;
        mkMeta vaultOwner false false;
        mkMeta relayerPubkey false true;
        mkMeta SystemProgram_programId false false ] /\
    Forall (fun key => isSigner key = false) (keys coverFee) /\
    Forall (fun key => isSigner key = false)
           (firstn (List.length (legFixedKeys env leg vaultOwner mint)) (keys swap)).
Proof.
  intros H. open_build H.
  exists relayerPubkey, blockhash, probe, feeEstimate, coverFeeInstruction,
         swapInstruction.
  split. { unfold relayersRead in *. rewrite flat_map_app.
           destruct leg; [destruct Hpre as [? [? [-> _]]] | subst preamble];
             reflexivity. }
  split. { unfold blockhashesRead in *. rewrite flat_map_app.
           destruct leg; [destruct Hpre as [? [? [-> _]]] | subst preamble];
             reflexivity. }
  split. { unfold feeProbes in *. rewrite flat_map_app, Hprobes. reflexivity. }
  do 6 (split; [reflexivity|]).
  split.
  - repeat constructor.
  - subst swapInstruction. cbn [keys]. rewrite firstn_app, Nat.sub_diag.
    rewrite firstn_all. cbn [firstn]. rewrite app_nil_r.
    destruct leg; repeat constructor.
Qed.

Lemma built_transaction_checkpoint_and_payer_witness :
  exists tx tr,
    run (Sample.respond 200000 (JsString "1999") (Some 5000))
        (buildLeg Sample.env Primary "owner" "USDC" 2000000) tt
    = (Returned tx, tt, tr) /\
    exists relayerPubkey blockhash probe feeEstimate coverFee swap,
      relayersRead tr = [relayerPubkey] /\
      blockhashesRead tr = [blockhash] /\
      feeProbes tr = [(probe, feeEstimate)] /\
      recentBlockhash tx = Some blockhash /\
      feePayer tx = Some relayerPubkey /\
      recentBlockhash probe = Some blockhash /\
      feePayer probe = Some relayerPubkey /\
      instructions tx = [coverFee; swap] /\
      keys coverFee =
        [ mkMeta (getVaultAddress Sample.env "owner") false true;
          mkMeta "owner" false false;
          mkMeta relayerPubkey false true;
          mkMeta SystemProgram_programId false false ] /\
      Forall (fun key => isSigner key = false) (keys coverFee) /\
      Forall (fun key => isSigner key = false)
             (firstn (List.length (legFixedKeys Sample.env Primary "owner" "USDC"))
                     (keys swap)).
Proof.
  eexists. eexists. split; [vm_compute; reflexivity|].
  eapply (built_transaction_checkpoint_and_payer Sample.env Primary "owner" "USDC"
            2000000 (Sample.respond 200000 (JsString "1999") (Some 5000)) tt tt).
  vm_compute. reflexivity.
Defined.

(** X7. The swap instruction of a returned transaction is built from what the
    run fetched: its data is the leg's discriminator, the requested amount,
    the [outAmount] of the fetched quote (zero when missing), the length
    of the aggregator instruction's data, and that data, the aggregator
    instruction being the first one of the fetched transaction that
    belongs to the aggregator's program. *)
Theorem built_payload_carries_request (env : Env) (leg : Leg)
    (vaultOwner mint : PublicKey) (amount : Z) {World : Type}
    (respond : forall c : NetCmd, World -> Resp c * World)
    (w w' : World) (tx : Transaction) (tr : list Event) :
  run respond (buildLeg env leg vaultOwner mint amount) w = (Returned tx, w', tr) ->
  0 <= amount ->
  exists quoteResponse quote minAmountOut swapResponse swapData aggregatorTx
         jupiterInstruction coverFee swap a m l,
    fetchedQuotes tr = [quoteResponse] /\
    json quoteResponse = Returned quote /\
    BigInt.BigInt (js_or (outAmount quote) (JsString "0")) = Returned minAmountOut /\
    fetchedSwaps tr = [swapResponse] /\
    json swapResponse = Returned swapData /\
    Transaction_from_base64 env (swapTransaction swapData) = Returned aggregatorTx /\
    find (fun ix => PublicKey_equals (programId ix) JUPITER_PROGRAM_ID)
         (instructions aggregatorTx) = Some jupiterInstruction /\
    instructions tx = [coverFee; swap] /\
    data swap = (legDiscriminator leg ++ a ++ m ++ l
                 ++ data jupiterInstruction)%list /\
    (List.length a = 8%nat /\ Buffer.le_value a = amount /\ amount < 2 ^ 64) /\
    (List.length m = 8%nat /\ Buffer.le_value m = Z.abs minAmountOut /\
     Z.abs minAmountOut < 2 ^ 64) /\
    (List.length l = 4%nat /\
     Buffer.le_value l = Z.of_nat (List.length (data jupiterInstruction))).
Proof.
  intros H Hpos. open_build H.
  apply swapInstructionData_prefix in Hdata.
  destruct Hdata as [a [m [l [Hpayload [Ha [Hm Hl]]]]]].
  apply toArrayLike_le_returned in Ha. destruct Ha as [Ha Hab].
  apply toArrayLike_le_returned in Hm. destruct Hm as [Hm Hmb].
  apply byteLength_bound in Hab, Hmb.
  rewrite Z.abs_eq in Ha, Hab by exact Hpos.
  assert (Hrange : 0 <= Z.of_nat (List.length (data jupiterInstruction)) < 2 ^ 32).
  { unfold Buffer.writeUInt32LE in Hl.
    destruct (Z.leb_spec 0 (Z.of_nat (List.length (data jupiterInstruction))));
      [|discriminate].
    destruct (Z.leb_spec (Z.of_nat (List.length (data jupiterInstruction)))
                         4294967295); [lia | discriminate]. }
  apply writeUInt32LE_returned in Hl.
  exists quoteResponse, quote, minAmountOut, swapResponse, swapData, aggregatorTx,
         jupiterInstruction, coverFeeInstruction, swapInstruction, a, m, l.
  split. { unfold fetchedQuotes in *. rewrite flat_map_app, Hquotes. reflexivity. }
  do 2 (split; [assumption|]).
  split. { unfold fetchedSwaps in *. rewrite flat_map_app, Hswaps. reflexivity. }
  do 3 (split; [assumption|]).
  split; [reflexivity|]. split; [exact Hpayload|].
  subst a m l.
  split; [|split].
  - split; [apply le_bytes_length|]. split; [|exact Hab].
    apply le_value_le_bytes_small. change (256 ^ Z.of_nat 8) with (2 ^ 64). lia.
  - split; [apply le_bytes_length|]. split; [|exact Hmb].
    apply le_value_le_bytes_small. change (256 ^ Z.of_nat 8) with (2 ^ 64).
    pose proof (Z.abs_nonneg minAmountOut). lia.
  - apply le_field. change (256 ^ Z.of_nat 4) with (2 ^ 32). lia.
Qed.

Lemma built_payload_carries_request_witness :
  exists tx tr,
    run (Sample.respond 200000 (JsString "1999") (Some 5000))
        (buildLeg Sample.env Primary "owner" "USDC" 2000000) tt
    = (Returned tx, tt, tr) /\
    0 <= 2000000 /\
    exists quoteResponse quote minAmountOut swapResponse swapData aggregatorTx
           jupiterInstruction coverFee swap a m l,
      fetchedQuotes tr = [quoteResponse] /\
      json quoteResponse = Returned quote /\
      BigInt.BigInt (js_or (outAmount quote) (JsString "0")) = Returned minAmountOut /\
      fetchedSwaps tr = [swapResponse] /\
      json swapResponse = Returned swapData /\
      Transaction_from_base64 Sample.env (swapTransaction swapData)
      = Returned aggregatorTx /\
      find (fun ix => PublicKey_equals (programId ix) JUPITER_PROGRAM_ID)
           (instructions aggregatorTx) = Some jupiterInstruction /\
      instructions tx = [coverFee; swap] /\
      data swap = (legDiscriminator Primary ++ a ++ m ++ l
                   ++ data jupiterInstruction)%list /\
      (List.length a = 8%nat /\ Buffer.le_value a = 2000000 /\ 2000000 < 2 ^ 64) /\
      (List.length m = 8%nat /\ Buffer.le_value m = Z.abs minAmountOut /\
       Z.abs minAmountOut < 2 ^ 64) /\
      (List.length l = 4%nat /\
       Buffer.le_value l = Z.of_nat (List.length (data jupiterInstruction))).
Proof.
  eexists. eexists. split; [vm_compute; reflexivity|].
  split; [lia|].
  eapply (built_payload_carries_request Sample.env Primary "owner" "USDC"
            2000000 (Sample.respond 200000 (JsString "1999") (Some 5000)) tt tt).
  - vm_compute. reflexivity.
  - lia.
Defined.

(* ================================================================== *)
(** ** What a swap attempt hands to the relay *)

Lemma coveredSwap_built (disc : Buffer.t) (amount minAmountOut fee : Z)
    (route d c : Buffer.t) (ks1 ks2 : list AccountMeta) (bh : string)
    (rp : PublicKey) :
  List.length disc = 8%nat ->
  swapInstructionData disc amount minAmountOut route = Returned d ->
  coverFeeData fee = Returned c ->
  coveredSwap disc
    (Tx.set_feePayer
       (Tx.set_recentBlockhash
          (Tx.add (Tx.add Tx.empty (mkInstruction PROGRAM_ID ks1 c))
                  (mkInstruction PROGRAM_ID ks2 d)) bh) rp).
Proof.
  intros Hl Hd Hc.
  apply swapInstructionData_prefix in Hd. destruct Hd as [a [m [l [-> _]]]].
  apply coverFeeData_returned in Hc. destruct Hc as [-> _].
  eexists. eexists. split; [reflexivity|]. split; split; try reflexivity.
  cbn [data]. now apply firstn_8_app.
Qed.

Lemma swapAttempt_submissions_wp (env : Env) (vaultOwner : PublicKey)
    (mint : string) (n : Z) :
  wp (swapAttempt env vaultOwner mint n)
     (fun o tr =>
        attemptSubmissions (submissions tr) /\
        (o = Returned tt ->
         List.length (submissions tr) = if feeToVault n >? 0 then 2%nat else 1%nat) /\
        ((2 <=? List.length (quoteAmounts tr))%nat = true ->
         count isSwapSubmitted tr = 1%nat /\ submissions tr <> []) /\
        ((feeToVault n >? 0) = false ->
         (List.length (quoteAmounts tr) <=? 1)%nat = true /\
         (List.length (submissions tr) <=? 1)%nat = true)).
Proof.
  unfold swapAttempt, buildSwapTransaction, submitSwapWithVaultFees,
    buildSwapFeeToSolTransaction.
  exec.
  all: try (match goal with
            | |- context [includes ?a ?b] => destruct (includes a b)
            end; cbn [wp]).
  all: split; [cbn [submissions flat_map app attemptSubmissions];
               try exact I;
               repeat split;
               try (eapply coveredSwap_built; [reflexivity | eassumption | eassumption])|].
  all: split; [first [intros E; discriminate E | intros _; reflexivity]|].
  all: split; [first [intros E; discriminate E
                     | intros _; split; [reflexivity | discriminate]]|].
  all: first [intros E; discriminate E | intros _; split; reflexivity].
Qed.

(** X8. Whatever the network answers, the [try] block of the dispatcher hands
    the relay at most two transactions, the primary swap and then the fee
    conversion, each made of a cover-fee instruction followed by the swap
    instruction of its leg; when it returns, it has handed over two if the
    vault's share of the fee is positive and one otherwise; and the fee
    conversion is only quoted once the primary swap has been submitted. *)
Theorem attempt_submits_covered_swaps (env : Env) (vaultOwner : PublicKey)
    (mint : string) (n : Z) {World : Type}
    (respond : forall c : NetCmd, World -> Resp c * World)
    (w w' : World) (o : Outcome unit) (tr : list Event) :
  run respond (swapAttempt env vaultOwner mint n) w = (o, w', tr) ->
  attemptSubmissions (submissions tr) /\
  (o = Returned tt ->
   List.length (submissions tr) = if feeToVault n >? 0 then 2%nat else 1%nat) /\
  ((2 <= List.length (quoteAmounts tr))%nat ->
   count isSwapSubmitted tr = 1%nat /\ submissions tr <> []).
Proof.
  intros H.
  pose proof (wp_run_eq respond _ _ w w' o tr
                (swapAttempt_submissions_wp env vaultOwner mint n) H)
    as [H1 [H2 [H3 _]]].
  split; [exact H1|]. split; [exact H2|].
  intros Hq. apply H3. now apply Nat.leb_le.
Qed.

Lemma attempt_submits_covered_swaps_witness :
  exists o tr,
    run (Sample.respond 200000 (JsString "1999") (Some 5000))
        (swapAttempt Sample.env "owner" "USDC" 2000000) tt = (o, tt, tr) /\
    attemptSubmissions (submissions tr) /\
    (o = Returned tt ->
     List.length (submissions tr)
     = if feeToVault 2000000 >? 0 then 2%nat else 1%nat) /\
    ((2 <= List.length (quoteAmounts tr))%nat ->
     count isSwapSubmitted tr = 1%nat /\ submissions tr <> []).
Proof.
  eexists. eexists. split; [vm_compute; reflexivity|].
  eapply (attempt_submits_covered_swaps Sample.env "owner" "USDC" 2000000
            (Sample.respond 200000 (JsString "1999") (Some 5000)) tt tt).
  vm_compute. reflexivity.
Defined.

Lemma feeToVault_zero_iff (n : Z) : 0 <= n -> (feeToVault n = 0 <-> n < 300).
Proof.
  intros H. rewrite feeToVault_floor by exact H.
  replace (n * 100 / 10000) with (n / 100).
  2:{ replace 10000 with (100 * 100) by reflexivity.
      rewrite Z.mul_comm. rewrite Z.div_mul_cancel_l; lia. }
  split; intros E.
  - destruct (Z_lt_le_dec n 300) as [L|L]; [exact L|]. exfalso.
    assert (3 <= n / 100) by (apply Z.div_le_lower_bound; lia).
    assert (1 <= n / 100 * 4 / 10) by (apply Z.div_le_lower_bound; lia).
    lia.
  - assert (n / 100 < 3) by (apply Z.div_lt_upper_bound; lia).
    assert (0 <= n / 100) by (apply Z.div_pos; lia).
    apply Z.div_small. lia.
Qed.

(** X9. The vault's share of the fee is zero exactly for amounts below 300: for
    those the swap attempt makes no fee conversion (at most one quote and
    one submission), and for an amount of 300 or more an attempt that
    returns has submitted both transactions. *)
Theorem dust_deposit_skips_fee_conversion (env : Env) (vaultOwner : PublicKey)
    (mint : string) (n : Z) {World : Type}
    (respond : forall c : NetCmd, World -> Resp c * World)
    (w w' : World) (o : Outcome unit) (tr : list Event) :
  0 <= n ->
  run respond (swapAttempt env vaultOwner mint n) w = (o, w', tr) ->
  (feeToVault n = 0 <-> n < 300) /\
  (n < 300 ->
   (List.length (quoteAmounts tr) <= 1)%nat /\
   (List.length (submissions tr) <= 1)%nat) /\
  (300 <= n -> o = Returned tt -> List.length (submissions tr) = 2%nat).
Proof.
  intros Hn H.
  pose proof (feeToVault_zero_iff n Hn) as Hz.
  pose proof (wp_run_eq respond _ _ w w' o tr
                (swapAttempt_submissions_wp env vaultOwner mint n) H)
    as [_ [H2 [_ H4]]].
  split; [exact Hz|]. split.
  - intros Hlt. apply Hz in Hlt.
    assert (E : (feeToVault n >? 0) = false) by (rewrite Hlt; reflexivity).
    destruct (H4 E) as [A B]. split; now apply Nat.leb_le.
  - intros Hge Ho. specialize (H2 Ho).
    assert (E : (feeToVault n >? 0) = true).
    { apply Z.gtb_lt.
      assert (0 <= feeToVault n).
      { rewrite feeToVault_floor by exact Hn.
        apply Z.div_pos; [|lia]. apply Z.mul_nonneg_nonneg; [|lia].
        apply Z.div_pos; lia. }
      assert (feeToVault n <> 0) by (intros E0; apply Hz in E0; lia).
      lia. }
    now rewrite E in H2.
Qed.

Lemma dust_deposit_skips_fee_conversion_witness :
  exists o tr,
    0 <= 299 /\
    run (Sample.respond 200000 (JsString "1") (Some 5000))
        (swapAttempt Sample.env "owner" "USDC" 299) tt = (o, tt, tr) /\
    (feeToVault 299 = 0 <-> 299 < 300) /\
    (299 < 300 ->
     (List.length (quoteAmounts tr) <= 1)%nat /\
     (List.length (submissions tr) <= 1)%nat) /\
    (300 <= 299 -> o = Returned tt -> List.length (submissions tr) = 2%nat).
Proof.
  eexists. eexists. split; [lia|].
  split; [vm_compute; reflexivity|].
  eapply (dust_deposit_skips_fee_conversion Sample.env "owner" "USDC" 299
            (Sample.respond 200000 (JsString "1") (Some 5000)) tt tt).
  - lia.
  - vm_compute. reflexivity.
Defined.

(** X10. The dispatcher, over any membership check and owner lookup, does
    nothing at all for a transfer whose destination is no vault, whose
    vault has no known owner, whose mint is the settlement asset, or whose
    amount is not positive: no call, no log, no change of the world. *)
Theorem dispatcher_skips (env : Env) (isVault : string -> bool)
    (ownerOf : string -> option PublicKey) {World : Type}
    (respond : forall c : NetCmd, World -> Resp c * World)
    (t : TokenTransfer) (w : World) :
  isVault (toTokenAccount t) = false \/
  ownerOf (toTokenAccount t) = None \/
  (exists n, BigInt.BigInt (tokenAmount t) = Returned n /\
             (mint t = NEXT_PUBLIC_CBBTC_MINT env \/ n <= 0)) ->
  run respond (processTokenTransferWith env isVault ownerOf t) w
  = (Returned tt, w, []).
Proof.
  intros H. unfold processTokenTransferWith.
  destruct (isVault (toTokenAccount t)) eqn:Ev; [|reflexivity].
  destruct (ownerOf (toTokenAccount t)) as [vaultOwner|] eqn:Eo; [|reflexivity].
  destruct H as [H|[H|[n [Hn Hskip]]]]; try discriminate.
  rewrite Hn. cbn [lift bind].
  replace (negb (mint t =? NEXT_PUBLIC_CBBTC_MINT env)%string && (n >? 0))
    with false; [reflexivity|].
  symmetry. apply andb_false_iff. destruct Hskip as [Hm|Hle].
  - left. apply negb_false_iff. now apply String.eqb_eq.
  - right. rewrite Z.gtb_ltb. apply Z.ltb_ge. exact Hle.
Qed.

Lemma dispatcher_skips_witness :
  run (Sample.respond 200000 (JsString "1999") (Some 5000))
      (processTokenTransferWith Sample.env (isVaultAddress Sample.env)
         Sample.ownerOf (mkTokenTransfer "vault-of-owner" "cbBTC" (JsInt 5))) tt
  = (Returned tt, tt, []).
Proof.
  apply (dispatcher_skips Sample.env (isVaultAddress Sample.env) Sample.ownerOf
           (Sample.respond 200000 (JsString "1999") (Some 5000))
           (mkTokenTransfer "vault-of-owner" "cbBTC" (JsInt 5)) tt).
  right. right. exists 5. split; [reflexivity | left; reflexivity].
Defined.

(** X11. The conversion of the amount is outside the [try] block: when the first
    transfer of a batch goes to a vault with a known owner and its amount
    does not convert, the handler throws at once, the remaining transfers
    are not looked at, and [POST] answers with status 500 and the message
    of the conversion error. *)
Theorem malformed_amount_aborts_batch (env : Env) (isVault : string -> bool)
    (ownerOf : string -> option PublicKey) {World : Type}
    (respond : forall c : NetCmd, World -> Resp c * World)
    (tx : HeliusTransaction)
    (t : TokenTransfer) (rest : list TokenTransfer) (vaultOwner : PublicKey)
    (e : Err) (otherFormats : HeliusTransaction -> Prog Reply) (w : World) :
  tokenTransfers tx = t :: rest ->
  isVault (toTokenAccount t) = true ->
  ownerOf (toTokenAccount t) = Some vaultOwner ->
  BigInt.BigInt (tokenAmount t) = Thrown e ->
  run respond (processHeliusTransactionWith env isVault ownerOf tx) w
  = (Thrown e, w, []) /\
  (isTransferOrSwap (type tx) = true ->
   run respond (POSTWith env isVault ownerOf otherFormats tx) w
   = (Returned (mkReply 500 (if (message e =? "")%string
                             then "Internal server error" else message e)),
      w, [LogEvent (ConsoleError "Webhook error:" e)])).
Proof.
  intros Hts Hv Ho Hb.
  assert (R : run respond (processHeliusTransactionWith env isVault ownerOf tx) w
              = (Thrown e, w, [])).
  { unfold processHeliusTransactionWith. rewrite Hts. cbn [forEach].
    rewrite !run_bind. unfold processTokenTransferWith at 1.
    rewrite Hv, Ho, Hb. reflexivity. }
  split; [exact R|].
  intros Ht. unfold POSTWith. rewrite Ht. cbn [forEach]. rewrite Ht.
  rewrite run_try_catch, !run_bind, R. reflexivity.
Qed.

Lemma malformed_amount_aborts_batch_witness :
  run (Sample.respond 200000 (JsString "1999") (Some 5000))
      (processHeliusTransactionWith Sample.env (isVaultAddress Sample.env)
         Sample.ownerOf
         (mkHeliusTransaction "TRANSFER" "deposit-signature"
            [mkTokenTransfer "vault-of-owner" "USDC" (JsFraction "0.5");
             Sample.deposit] [])) tt
  = (Thrown (Error "The number 0.5 cannot be converted to a BigInt because it is not an integer"),
     tt, []) /\
  (isTransferOrSwap "TRANSFER" = true ->
   run (Sample.respond 200000 (JsString "1999") (Some 5000))
       (POSTWith Sample.env (isVaultAddress Sample.env) Sample.ownerOf
          (fun _ => Ret (mkReply 400 "Unknown webhook format"))
          (mkHeliusTransaction "TRANSFER" "deposit-signature"
             [mkTokenTransfer "vault-of-owner" "USDC" (JsFraction "0.5");
              Sample.deposit] [])) tt
   = (Returned (mkReply 500 "The number 0.5 cannot be converted to a BigInt because it is not an integer"),
      tt,
      [LogEvent (ConsoleError "Webhook error:"
         (Error "The number 0.5 cannot be converted to a BigInt because it is not an integer"))])).
Proof.
  apply (malformed_amount_aborts_batch Sample.env (isVaultAddress Sample.env)
           Sample.ownerOf (Sample.respond 200000 (JsString "1999") (Some 5000))
           (mkHeliusTransaction "TRANSFER" "deposit-signature"
              [mkTokenTransfer "vault-of-owner" "USDC" (JsFraction "0.5");
               Sample.deposit] [])
           (mkTokenTransfer "vault-of-owner" "USDC" (JsFraction "0.5"))
           [Sample.deposit] "owner"
           (Error "The number 0.5 cannot be converted to a BigInt because it is not an integer")
           (fun _ => Ret (mkReply 400 "Unknown webhook format")) tt);
    reflexivity.
Defined.

(* ================================================================== *)
(** ** The vault among the aggregator's accounts *)

Lemma markFirstSigner_idempotent (vault : PublicKey) (accs : list AccountMeta) :
  markFirstSigner vault (markFirstSigner vault accs) = markFirstSigner vault accs.
Proof.
  induction accs as [|a accs IH]; cbn [markFirstSigner]; [reflexivity|].
  destruct (PublicKey_equals (pubkey a) vault) eqn:E; cbn [markFirstSigner pubkey].
  - rewrite E. reflexivity.
  - rewrite E, IH. reflexivity.
Qed.

Lemma markFirstSigner_others (vault : PublicKey) (accs : list AccountMeta) :
  filter (fun acc => negb (PublicKey_equals (pubkey acc) vault))
         (markFirstSigner vault accs)
  = filter (fun acc => negb (PublicKey_equals (pubkey acc) vault)) accs.
Proof.
  induction accs as [|a accs IH]; cbn [markFirstSigner]; [reflexivity|].
  destruct (PublicKey_equals (pubkey a) vault) eqn:E; cbn [filter pubkey];
    rewrite E; cbn [negb]; [reflexivity | now rewrite IH].
Qed.

Lemma markFirstSigner_keeps_signers (vault : PublicKey) (accs : list AccountMeta) :
  Forall2 (fun before after =>
             pubkey after = pubkey before /\
             isWritable after = isWritable before /\
             (isSigner before = true -> isSigner after = true))
          accs (markFirstSigner vault accs).
Proof.
  induction accs as [|a accs IH]; cbn [markFirstSigner]; [constructor|].
  destruct (PublicKey_equals (pubkey a) vault).
  - constructor; [cbn; auto|].
    clear. induction accs; constructor; auto.
  - constructor; auto.
Qed.

(** X12. Ensuring the vault among the aggregator's accounts is idempotent, leaves
    every account with another key as it was and in place, and changes the
    list only by an optional vault entry in front, signer and writable:
    behind it the keys and the writable flags are those of the
    aggregator, and no signer flag is cleared. *)
Theorem ensureVaultSigner_is_idempotent_and_minimal (vault : PublicKey)
    (ks : list AccountMeta) :
  ensureVaultSigner vault (ensureVaultSigner vault ks) = ensureVaultSigner vault ks /\
  filter (fun acc => negb (PublicKey_equals (pubkey acc) vault))
         (ensureVaultSigner vault ks)
  = filter (fun acc => negb (PublicKey_equals (pubkey acc) vault)) ks /\
  (exists front,
      (front = [] \/ front = [mkMeta vault true true]) /\
      exists rest,
        ensureVaultSigner vault ks = (front ++ rest)%list /\
        Forall2 (fun before after =>
                   pubkey after = pubkey before /\
                   isWritable after = isWritable before /\
                   (isSigner before = true -> isSigner after = true))
                ks rest).
Proof.
  assert (Hself : PublicKey_equals vault vault = true)
    by apply String.eqb_refl.
  destruct (find (fun acc => PublicKey_equals (pubkey acc) vault) ks)
    as [found|] eqn:F.
  - assert (E : ensureVaultSigner vault ks = markFirstSigner vault ks).
    { unfold ensureVaultSigner. now rewrite map_meta_copy, F. }
    rewrite E. split; [|split].
    + unfold ensureVaultSigner. rewrite map_meta_copy.
      destruct (find _ (markFirstSigner vault ks)) eqn:F'.
      * apply markFirstSigner_idempotent.
      * exfalso. apply find_some in F. destruct F as [Hin Heq].
        destruct (markFirstSigner_signer vault ks) as [acc [Hin' [Hk _]]].
        { exists found. split; [exact Hin | now apply String.eqb_eq]. }
        apply (find_none _ _ F') in Hin'. unfold PublicKey_equals in Hin'.
        rewrite Hk, String.eqb_refl in Hin'. discriminate.
    + apply markFirstSigner_others.
    + exists []. split; [now left|]. exists (markFirstSigner vault ks).
      split; [reflexivity|]. apply markFirstSigner_keeps_signers.
  - assert (E : ensureVaultSigner vault ks = mkMeta vault true true :: ks).
    { unfold ensureVaultSigner. now rewrite map_meta_copy, F. }
    rewrite E. split; [|split].
    + unfold ensureVaultSigner. rewrite map_meta_copy.
      cbn [find pubkey]. rewrite Hself. cbn [markFirstSigner pubkey isWritable].
      rewrite Hself. reflexivity.
    + cbn [filter pubkey]. rewrite Hself. reflexivity.
    + exists [mkMeta vault true true]. split; [now right|]. exists ks.
      split; [reflexivity|].
      clear. induction ks; constructor; auto.
Qed.

(* ================================================================== *)
(** ** Runs of asynchronous programs *)

Section AsyncFacts.
Context {Cmd : Type} {Ans : Cmd -> Type}.

Lemma awp_always {A} (p : Async Cmd Ans A) :
  forall Q : Outcome A -> list (AEvent Cmd Ans) -> Prop,
    (forall o tr, Q o tr) -> awp p Q.
Proof.
  induction p as [a|e|c k IH|l q IH]; intros Q H; cbn [awp]; auto.
Qed.

Lemma awp_mono {A} (p : Async Cmd Ans A) :
  forall Q Q' : Outcome A -> list (AEvent Cmd Ans) -> Prop,
    (forall o tr, Q o tr -> Q' o tr) -> awp p Q -> awp p Q'.
Proof.
  induction p as [a|e|c k IH|l q IH]; intros Q Q' HQ H; cbn [awp] in *.
  - now apply HQ.
  - now apply HQ.
  - intros r. eapply IH; [|apply H]. intros o tr. apply HQ.
  - eapply IH; [|apply H]. intros o tr. apply HQ.
Qed.

Lemma awp_bind {A B} (p : Async Cmd Ans A) (f : A -> Async Cmd Ans B) :
  forall Q : Outcome B -> list (AEvent Cmd Ans) -> Prop,
    awp p (fun o tr =>
             match o with
             | Returned a => awp (f a) (fun o' tr' => Q o' (tr ++ tr')%list)
             | Thrown e => Q (Thrown e) tr
             end) ->
    awp (abind p f) Q.
Proof.
  induction p as [a|e|c k IH|l q IH]; intros Q H; cbn [awp abind] in *.
  - exact H.
  - exact H.
  - intros r. apply IH. exact (H r).
  - apply IH. exact H.
Qed.

Lemma awp_try {A} (p : Async Cmd Ans A) (h : Err -> Async Cmd Ans A) :
  forall Q : Outcome A -> list (AEvent Cmd Ans) -> Prop,
    awp p (fun o tr =>
             match o with
             | Returned a => Q (Returned a) tr
             | Thrown e => awp (h e) (fun o' tr' => Q o' (tr ++ tr')%list)
             end) ->
    awp (atry p h) Q.
Proof.
  induction p as [a|e|c k IH|l q IH]; intros Q H; cbn [awp atry] in *.
  - exact H.
  - exact H.
  - intros r. apply IH. exact (H r).
  - apply IH. exact H.
Qed.

Section ARunFacts.
Context {World : Type}.
Variable respond : forall c : Cmd, World -> Outcome (Ans c) * World.

Lemma arun_bind {A B} (p : Async Cmd Ans A) (f : A -> Async Cmd Ans B) (w : World) :
  arun respond (abind p f) w =
  let '(o, w1, tr1) := arun respond p w in
  match o with
  | Returned a =>
      let '(o2, w2, tr2) := arun respond (f a) w1 in (o2, w2, (tr1 ++ tr2)%list)
  | Thrown e => (Thrown e, w1, tr1)
  end.
Proof.
  revert w. induction p as [a|e|c k IH|l q IH]; intros w; cbn [abind arun].
  - destruct (arun respond (f a) w) as [[o2 w2] tr2]. reflexivity.
  - reflexivity.
  - destruct (respond c w) as [r w1]. rewrite IH.
    destruct (arun respond (k r) w1) as [[o w2] tr1].
    destruct o as [a|e]; [|reflexivity].
    destruct (arun respond (f a) w2) as [[o2 w3] tr2]. reflexivity.
  - rewrite IH. destruct (arun respond q w) as [[o w1] tr1].
    destruct o as [a|e]; [|reflexivity].
    destruct (arun respond (f a) w1) as [[o2 w2] tr2]. reflexivity.
Qed.

Lemma awp_run_eq {A} (p : Async Cmd Ans A) :
  forall (Q : Outcome A -> list (AEvent Cmd Ans) -> Prop) (w w' : World) o tr,
    awp p Q -> arun respond p w = (o, w', tr) -> Q o tr.
Proof.
  induction p as [a|e|c k IH|l q IH]; intros Q w w' o tr H E; cbn [arun awp] in *.
  - injection E as <- _ <-. exact H.
  - injection E as <- _ <-. exact H.
  - destruct (respond c w) as [r w1].
    destruct (arun respond (k r) w1) as [[o1 w2] tr1] eqn:E1.
    injection E as <- _ <-. exact (IH r _ w1 w2 o1 tr1 (H r) E1).
  - destruct (arun respond q w) as [[o1 w1] tr1] eqn:E1.
    injection E as <- _ <-. exact (IH _ w w1 o1 tr1 H E1).
Qed.
End ARunFacts.
End AsyncFacts.

Ltac adestruct_head p :=
  lazymatch p with
  | abind ?q _ => adestruct_head q
  | atry ?q _ => adestruct_head q
  | alift ?o => destruct o eqn:?
  | (if ?b then _ else _) => destruct b eqn:?
  | match ?o with Some _ => _ | None => _ end => destruct o eqn:?
  end.

Ltac aexec_step :=
  cbn [awp abind atry aawait alift alog aerror];
  lazymatch goal with
  | |- forall r : Outcome _, _ => intros [?|?]
  | |- awp ?p _ => adestruct_head p
  end.

Ltac aexec := repeat aexec_step;
  cbn [awp abind atry aawait alift alog aerror].

Ltac by_awp H :=
  match type of H with
  | arun _ _ _ = (?o, _, ?tr) =>
      pattern o, tr; eapply (awp_run_eq _); [|exact H]; clear H
  end.

(* ================================================================== *)
(** ** Webhook management *)

Lemma listed_In (address : string) (addresses : list string) :
  Webhooks.listed address addresses = true <-> In address addresses.
Proof.
  unfold Webhooks.listed. rewrite existsb_exists. split.
  - intros [a [Hin Heq]]. apply String.eqb_eq in Heq. now subst.
  - intros Hin. exists address. split; [exact Hin | apply String.eqb_refl].
Qed.

Lemma filter_drops (address : string) (addresses : list string) :
  ~ In address (filter (fun addr => negb (addr =? address)%string) addresses).
Proof.
  intros H. apply filter_In in H. destruct H as [_ H].
  now rewrite String.eqb_refl in H.
Qed.

Lemma filter_keeps_others (address other : string) (addresses : list string) :
  other <> address ->
  count_occ string_dec
    (filter (fun addr => negb (addr =? address)%string) addresses) other
  = count_occ string_dec addresses other.
Proof.
  intros Hne. induction addresses as [|a l IH]; [reflexivity|].
  cbn [filter]. destruct (String.eqb_spec a address) as [E|E]; cbn [negb].
  - subst a. rewrite count_occ_cons_neq by (intros E'; now apply Hne).
    exact IH.
  - cbn [count_occ]. destruct (string_dec a other); now rewrite IH.
Qed.

Lemma filter_absent (address : string) (addresses : list string) :
  ~ In address addresses ->
  filter (fun addr => negb (addr =? address)%string) addresses = addresses.
Proof.
  induction addresses as [|a l IH]; intros H; [reflexivity|].
  cbn [filter]. destruct (String.eqb_spec a address) as [E|E]; cbn [negb].
  - exfalso. apply H. now left.
  - rewrite IH; [reflexivity|]. intros Hin. apply H. now right.
Qed.

Lemma count_occ_appended (address : string) (addresses : list string) :
  ~ In address addresses ->
  count_occ string_dec (addresses ++ [address]) address = 1%nat.
Proof.
  intros H. rewrite count_occ_app.
  rewrite (proj1 (count_occ_not_In string_dec addresses address) H).
  cbn. now destruct (string_dec address address).
Qed.

Lemma NoDup_appended (address : string) (addresses : list string) :
  ~ In address addresses -> NoDup addresses -> NoDup (addresses ++ [address]).
Proof.
  intros H Hn. induction Hn as [|a l Ha Hl IH]; cbn.
  - constructor; [intros [] | constructor].
  - constructor.
    + intros Hin. apply in_app_or in Hin. destruct Hin as [Hin|[<-|[]]].
      * now apply Ha.
      * apply H. now left.
    + apply IH. intros Hin. apply H. now right.
Qed.

Ltac read_fetch Hf :=
  cbn in Hf;
  repeat match goal with
         | E : negb (Webhooks.ok ?r) = _ |- _ =>
             apply (f_equal negb) in E; rewrite negb_involutive in E; cbn in E
         end;
  repeat match goal with
         | E : Webhooks.ok ?r = _ |- _ => rewrite E in Hf
         | E : Webhooks.json ?r = _ |- _ => rewrite E in Hf
         end;
  cbn in Hf.

(** X13. [addVaultToWebhook], when it has fetched the webhook: a vault already
    listed is left alone, with no update sent; otherwise the one update
    sent keeps the transaction types, appends the vault to the addresses,
    lists it exactly once, and keeps the list free of duplicates if it
    was. *)
Theorem add_vault_registers_once (webhookId vaultAddress apiKey : string)
    {World : Type}
    (respond : forall c : Webhooks.Cmd, World -> Outcome (Webhooks.Ans c) * World)
    (w w' : World) (o : Outcome unit)
    (tr : list (AEvent Webhooks.Cmd Webhooks.Ans)) (hook : Webhooks.HeliusWebhook) :
  arun respond (Webhooks.addVaultToWebhook webhookId vaultAddress apiKey) w
  = (o, w', tr) ->
  Webhooks.fetchedWebhooks tr = [hook] ->
  (In vaultAddress (Webhooks.accountAddresses hook) ->
   o = Returned tt /\ Webhooks.updates tr = []) /\
  (~ In vaultAddress (Webhooks.accountAddresses hook) ->
   Webhooks.updates tr
   = [(Webhooks.transactionTypes hook,
       (Webhooks.accountAddresses hook ++ [vaultAddress])%list)] /\
   count_occ string_dec
     (Webhooks.accountAddresses hook ++ [vaultAddress]) vaultAddress = 1%nat /\
   (NoDup (Webhooks.accountAddresses hook) ->
    NoDup (Webhooks.accountAddresses hook ++ [vaultAddress]))).
Proof.
  intros H. revert hook. by_awp H.
  unfold Webhooks.addVaultToWebhook. aexec.
  all: intros hook Hf; cbn in Hf;
    repeat match goal with
           | E : negb (Webhooks.ok ?r) = _ |- _ =>
               apply (f_equal negb) in E; rewrite negb_involutive in E; cbn in E
           end;
    repeat match goal with
           | E : Webhooks.ok ?r = _ |- _ => rewrite E in Hf
           | E : Webhooks.json ?r = _ |- _ => rewrite E in Hf
           end;
    cbn in Hf; try discriminate Hf; injection Hf as <-.
  all: match goal with
       | E : Webhooks.listed _ _ = true |- _ => apply listed_In in E
       | E : Webhooks.listed _ (Webhooks.accountAddresses ?fetched) = false |- _ =>
           assert (~ In vaultAddress (Webhooks.accountAddresses fetched))
             by (intros Hin; apply listed_In in Hin; congruence)
       end.
  all: split; [intros Hin | intros Hout]; try contradiction.
  all: try (split; reflexivity).
  all: split; [reflexivity|]; split;
    [now apply count_occ_appended | now apply NoDup_appended].
Qed.

Lemma add_vault_registers_once_witness :
  exists o hook' tr,
    arun Webhooks.store
         (Webhooks.addVaultToWebhook "hook-1" "vault-c" "key") Fixture.hook
    = (o, hook', tr) /\
    Webhooks.fetchedWebhooks tr = [Fixture.hook] /\
    (In "vault-c" (Webhooks.accountAddresses Fixture.hook) ->
     o = Returned tt /\ Webhooks.updates tr = []) /\
    (~ In "vault-c" (Webhooks.accountAddresses Fixture.hook) ->
     Webhooks.updates tr
     = [(Webhooks.transactionTypes Fixture.hook,
         (Webhooks.accountAddresses Fixture.hook ++ ["vault-c"])%list)] /\
     count_occ string_dec
       (Webhooks.accountAddresses Fixture.hook ++ ["vault-c"]) "vault-c" = 1%nat /\
     (NoDup (Webhooks.accountAddresses Fixture.hook) ->
      NoDup (Webhooks.accountAddresses Fixture.hook ++ ["vault-c"]))).
Proof.
  eexists. eexists. eexists. split; [vm_compute; reflexivity|].
  split; [reflexivity|].
  eapply (add_vault_registers_once "hook-1" "vault-c" "key" Webhooks.store
            Fixture.hook).
  - vm_compute. reflexivity.
  - reflexivity.
Defined.

(** X14. [removeVaultFromWebhook], when it has fetched the webhook, sends one
    update with the same transaction types, in which the vault no longer
    occurs, every other address occurs as often as before, and which is
    the fetched list itself when the vault was not listed. *)
Theorem remove_vault_drops_every_occurrence (webhookId vaultAddress apiKey : string)
    {World : Type}
    (respond : forall c : Webhooks.Cmd, World -> Outcome (Webhooks.Ans c) * World)
    (w w' : World) (o : Outcome unit)
    (tr : list (AEvent Webhooks.Cmd Webhooks.Ans)) (hook : Webhooks.HeliusWebhook) :
  arun respond (Webhooks.removeVaultFromWebhook webhookId vaultAddress apiKey) w
  = (o, w', tr) ->
  Webhooks.fetchedWebhooks tr = [hook] ->
  exists kept,
    Webhooks.updates tr = [(Webhooks.transactionTypes hook, kept)] /\
    ~ In vaultAddress kept /\
    (forall other, other <> vaultAddress ->
       count_occ string_dec kept other
       = count_occ string_dec (Webhooks.accountAddresses hook) other) /\
    (~ In vaultAddress (Webhooks.accountAddresses hook) ->
     kept = Webhooks.accountAddresses hook).
Proof.
  intros H. revert hook. by_awp H.
  unfold Webhooks.removeVaultFromWebhook. aexec.
  all: intros hook Hf; read_fetch Hf; try discriminate Hf; injection Hf as <-.
  all: eexists; split; [reflexivity|]; split; [apply filter_drops|];
    split; [intros other Hne; now apply filter_keeps_others
           | apply filter_absent].
Qed.

Lemma remove_vault_drops_every_occurrence_witness :
  exists o hook' tr,
    arun Webhooks.store
         (Webhooks.removeVaultFromWebhook "hook-1" "vault-a" "key") Fixture.hook
    = (o, hook', tr) /\
    Webhooks.fetchedWebhooks tr = [Fixture.hook] /\
    exists kept,
      Webhooks.updates tr = [(Webhooks.transactionTypes Fixture.hook, kept)] /\
      ~ In "vault-a" kept /\
      (forall other, other <> "vault-a" ->
         count_occ string_dec kept other
         = count_occ string_dec (Webhooks.accountAddresses Fixture.hook) other) /\
      (~ In "vault-a" (Webhooks.accountAddresses Fixture.hook) ->
       kept = Webhooks.accountAddresses Fixture.hook).
Proof.
  eexists. eexists. eexists. split; [vm_compute; reflexivity|].
  split; [reflexivity|].
  eapply (remove_vault_drops_every_occurrence "hook-1" "vault-a" "key"
            Webhooks.store Fixture.hook).
  - vm_compute. reflexivity.
  - reflexivity.
Defined.

(** X15. In both helpers a response that is not [ok] is never passed over: a run
    that returns met none; a run that fetched no webhook sent no update and
    threw after its single request; and a run that met one refusal threw
    the get error or the update error, by the request refused, with the
    status text of the refusal. *)
Theorem webhook_failures_are_reported (webhookId vaultAddress apiKey : string)
    (remove : bool) {World : Type}
    (respond : forall c : Webhooks.Cmd, World -> Outcome (Webhooks.Ans c) * World)
    (w w' : World) (o : Outcome unit)
    (tr : list (AEvent Webhooks.Cmd Webhooks.Ans)) :
  arun respond
       (if remove
        then Webhooks.removeVaultFromWebhook webhookId vaultAddress apiKey
        else Webhooks.addVaultToWebhook webhookId vaultAddress apiKey) w
  = (o, w', tr) ->
  (o = Returned tt -> Webhooks.refusals tr = []) /\
  (Webhooks.fetchedWebhooks tr = [] ->
   Webhooks.updates tr = [] /\ (List.length tr <= 1)%nat /\ exists e, o = Thrown e) /\
  (forall r, Webhooks.refusals tr = [r] ->
     o = Thrown (Error (match Webhooks.updates tr with
                        | [] => "Failed to get webhook: "
                        | _ :: _ => "Failed to update webhook: "
                        end ++ Webhooks.statusText r))).
Proof.
  intros H. by_awp H.
  destruct remove;
    [unfold Webhooks.removeVaultFromWebhook | unfold Webhooks.addVaultToWebhook];
    aexec.
  all: split; [intros Ho; try discriminate Ho; cbn;
               repeat match goal with
                      | E : negb (Webhooks.ok ?r) = _ |- _ =>
                          apply (f_equal negb) in E; rewrite negb_involutive in E;
                          cbn in E
                      end;
               repeat match goal with
                      | E : Webhooks.ok ?r = _ |- _ => rewrite E
                      end; reflexivity|].
  all: split;
    [intros Hf; read_fetch Hf; try discriminate Hf;
     (split; [reflexivity|]; split; [cbn; lia|]; eexists; reflexivity)|].
  all: intros r Hr; cbn in Hr;
    repeat match goal with
           | E : negb (Webhooks.ok ?r) = _ |- _ =>
               apply (f_equal negb) in E; rewrite negb_involutive in E; cbn in E
           end;
    repeat match goal with
           | E : Webhooks.ok ?r = _ |- _ => rewrite E in Hr
           end;
    cbn in Hr; try discriminate Hr; injection Hr as <-; reflexivity.
Qed.

Lemma webhook_failures_are_reported_witness :
  exists o tr,
    arun Fixture.refusing
         (Webhooks.addVaultToWebhook "hook-1" "vault-c" "key") tt = (o, tt, tr) /\
    (o = Returned tt -> Webhooks.refusals tr = []) /\
    (Webhooks.fetchedWebhooks tr = [] ->
     Webhooks.updates tr = [] /\ (List.length tr <= 1)%nat /\
     exists e, o = Thrown e) /\
    (forall r, Webhooks.refusals tr = [r] ->
       o = Thrown (Error (match Webhooks.updates tr with
                          | [] => "Failed to get webhook: "
                          | _ :: _ => "Failed to update webhook: "
                          end ++ Webhooks.statusText r))).
Proof.
  eexists. eexists. split; [vm_compute; reflexivity|].
  eapply (webhook_failures_are_reported "hook-1" "vault-c" "key" false
            Fixture.refusing tt tt).
  vm_compute. reflexivity.
Defined.

(** X16. On a service that keeps what it is sent: after [addVaultToWebhook] the
    vault is listed and a second call only reads and logs; after
    [removeVaultFromWebhook] it is not listed; and for a vault that was
    not listed at first, adding and then removing restores the webhook. *)
Theorem add_then_remove_on_store (webhookId vaultAddress apiKey : string)
    (hook : Webhooks.HeliusWebhook) :
  exists hook1 hook2 tr1 tr2,
    arun Webhooks.store
         (Webhooks.addVaultToWebhook webhookId vaultAddress apiKey) hook
    = (Returned tt, hook1, tr1) /\
    arun Webhooks.store
         (Webhooks.addVaultToWebhook webhookId vaultAddress apiKey) hook1
    = (Returned tt, hook1,
       [ACalled (Webhooks.Fetch "GET" (Webhooks.webhookUrl webhookId apiKey) None)
                (Returned (Webhooks.mkFetchResponse true "OK" (Returned "")
                                                    (Returned hook1)));
        ALogged (ConsoleLog ("Vault " ++ vaultAddress ++ " already in webhook"))]) /\
    In vaultAddress (Webhooks.accountAddresses hook1) /\
    arun Webhooks.store
         (Webhooks.removeVaultFromWebhook webhookId vaultAddress apiKey) hook1
    = (Returned tt, hook2, tr2) /\
    ~ In vaultAddress (Webhooks.accountAddresses hook2) /\
    (~ In vaultAddress (Webhooks.accountAddresses hook) ->
     Webhooks.accountAddresses hook1
     = (Webhooks.accountAddresses hook ++ [vaultAddress])%list /\
     hook2 = hook).
Proof.
  destruct hook as [id url types addresses kind].
  destruct (Webhooks.listed vaultAddress addresses) eqn:E.
  - exists (Webhooks.mkHeliusWebhook id url types addresses kind).
    exists (Webhooks.mkHeliusWebhook id url types
              (filter (fun addr => negb (addr =? vaultAddress)%string) addresses)
              kind).
    do 2 eexists.
    unfold Webhooks.addVaultToWebhook, Webhooks.removeVaultFromWebhook.
    cbn [arun abind aawait alift Webhooks.store Webhooks.ok Webhooks.json negb
         Webhooks.accountAddresses Webhooks.transactionTypes alog
         Webhooks.webhookID Webhooks.webhookURL Webhooks.webhookType].
    rewrite E.
    cbn [arun abind aawait alift Webhooks.store Webhooks.ok Webhooks.json negb
         Webhooks.accountAddresses Webhooks.transactionTypes alog].
    split; [reflexivity|]. split; [reflexivity|].
    split; [now apply listed_In|]. split; [reflexivity|].
    split; [apply filter_drops|].
    intros Hout. apply listed_In in E. contradiction.
  - assert (E1 : Webhooks.listed vaultAddress (addresses ++ [vaultAddress]) = true).
    { apply listed_In, in_or_app. right. now left. }
    exists (Webhooks.mkHeliusWebhook id url types (addresses ++ [vaultAddress]) kind).
    exists (Webhooks.mkHeliusWebhook id url types
              (filter (fun addr => negb (addr =? vaultAddress)%string)
                      (addresses ++ [vaultAddress]))
              kind).
    do 2 eexists.
    unfold Webhooks.addVaultToWebhook, Webhooks.removeVaultFromWebhook.
    cbn [arun abind aawait alift Webhooks.store Webhooks.ok Webhooks.json negb
         Webhooks.accountAddresses Webhooks.transactionTypes alog
         Webhooks.webhookID Webhooks.webhookURL Webhooks.webhookType].
    rewrite E, E1.
    cbn [arun abind aawait alift Webhooks.store Webhooks.ok Webhooks.json negb
         Webhooks.accountAddresses Webhooks.transactionTypes alog
         Webhooks.webhookID Webhooks.webhookURL Webhooks.webhookType].
    split; [reflexivity|]. split; [reflexivity|].
    split; [now apply listed_In|]. split; [reflexivity|].
    split; [apply filter_drops|].
    intros Hout. split; [reflexivity|].
    rewrite filter_app, (filter_absent vaultAddress addresses Hout).
    cbn [filter]. rewrite String.eqb_refl. cbn [negb]. now rewrite app_nil_r.
Qed.

(** X17. On the same service, [createHeliusWebhook] returns a webhook of type
    enhanced for TRANSFER transactions at the given URL, watching the
    initial addresses (none by default); [addVaultToWebhook] on it keeps
    all that and leaves the vault watched, alone when no initial address
    was given. *)
Theorem create_then_add_on_store (webhookURL apiKey vaultAddress : string)
    (initialVaultAddresses : option (list string))
    (service : Webhooks.HeliusWebhook) :
  exists created watched tr1 tr2,
    arun Webhooks.store
         (Webhooks.createHeliusWebhook webhookURL apiKey initialVaultAddresses)
         service
    = (Returned created, created, tr1) /\
    created = Webhooks.mkHeliusWebhook (Webhooks.webhookID service) webhookURL
                ["TRANSFER"]
                (match initialVaultAddresses with Some l => l | None => [] end)
                "enhanced" /\
    arun Webhooks.store
         (Webhooks.addVaultToWebhook (Webhooks.webhookID created) vaultAddress
                                     apiKey) created
    = (Returned tt, watched, tr2) /\
    In vaultAddress (Webhooks.accountAddresses watched) /\
    Webhooks.transactionTypes watched = ["TRANSFER"] /\
    Webhooks.webhookType watched = "enhanced" /\
    Webhooks.webhookURL watched = webhookURL /\
    (initialVaultAddresses = None ->
     Webhooks.accountAddresses watched = [vaultAddress]).
Proof.
  set (initial := match initialVaultAddresses with Some l => l | None => [] end).
  destruct (Webhooks.listed vaultAddress initial) eqn:E.
  - exists (Webhooks.mkHeliusWebhook (Webhooks.webhookID service) webhookURL
              ["TRANSFER"] initial "enhanced").
    exists (Webhooks.mkHeliusWebhook (Webhooks.webhookID service) webhookURL
              ["TRANSFER"] initial "enhanced").
    do 2 eexists.
    unfold Webhooks.createHeliusWebhook, Webhooks.addVaultToWebhook.
    fold initial.
    cbn [arun abind aawait alift Webhooks.store Webhooks.ok Webhooks.json negb
         Webhooks.accountAddresses Webhooks.transactionTypes alog
         Webhooks.webhookID Webhooks.webhookURL Webhooks.webhookType app].
    rewrite E.
    cbn [arun abind aawait alift Webhooks.store Webhooks.ok Webhooks.json negb
         Webhooks.accountAddresses Webhooks.transactionTypes alog app].
    split; [reflexivity|]. split; [reflexivity|]. split; [reflexivity|].
    split; [now apply listed_In|]. do 3 (split; [reflexivity|]).
    intros ->. subst initial. discriminate E.
  - exists (Webhooks.mkHeliusWebhook (Webhooks.webhookID service) webhookURL
              ["TRANSFER"] initial "enhanced").
    exists (Webhooks.mkHeliusWebhook (Webhooks.webhookID service) webhookURL
              ["TRANSFER"] (initial ++ [vaultAddress]) "enhanced").
    do 2 eexists.
    unfold Webhooks.createHeliusWebhook, Webhooks.addVaultToWebhook.
    fold initial.
    cbn [arun abind aawait alift Webhooks.store Webhooks.ok Webhooks.json negb
         Webhooks.accountAddresses Webhooks.transactionTypes alog
         Webhooks.webhookID Webhooks.webhookURL Webhooks.webhookType app].
    rewrite E.
    cbn [arun abind aawait alift Webhooks.store Webhooks.ok Webhooks.json negb
         Webhooks.accountAddresses Webhooks.transactionTypes alog
         Webhooks.webhookID Webhooks.webhookURL Webhooks.webhookType app].
    split; [reflexivity|]. split; [reflexivity|]. split; [reflexivity|].
    split; [apply in_or_app; right; now left|]. do 3 (split; [reflexivity|]).
    intros ->. reflexivity.
Qed.

(* ================================================================== *)
(** ** The relayer *)

Lemma submitTransaction_checkpoint (lib : Relayer.Lib)
    (relayer : Relayer.MinimalRelayer) (transaction : Transaction) :
  awp (Relayer.submitTransaction lib relayer transaction)
      (fun o tr =>
         forall (fresh : string) (height : Z),
           Relayer.blockhashes tr = [(fresh, height)] ->
           let signed :=
             mkTransaction (instructions transaction)
               (Some (match recentBlockhash transaction with
                      | Some own => if (own =? "")%string then fresh else own
                      | None => fresh
                      end))
               (Some (Relayer.getPublicKey relayer)) in
           (forall raw answer, Relayer.sent tr = [(raw, answer)] ->
              Relayer.signAndSerialize lib signed (Relayer.relayerKeypair relayer)
              = Returned raw) /\
           (forall signature blockhash h answer,
              Relayer.confirmations tr = [(signature, blockhash, h, answer)] ->
              blockhash = fresh /\ h = height /\
              exists raw, Relayer.sent tr = [(raw, Returned signature)]) /\
           (forall failure,
              Relayer.signAndSerialize lib signed (Relayer.relayerKeypair relayer)
              = Thrown failure ->
              o = Thrown failure /\ Relayer.sent tr = [])).
Proof.
  unfold Relayer.submitTransaction. aexec.
  all: intros fresh height Hb; cbn in Hb; try discriminate Hb;
    injection Hb as Hb; subst a; cbn [fst snd] in *.
  all: match goal with
       | E : Relayer.signAndSerialize _ ?t _ = _ |- _ =>
           assert (Ht : t = mkTransaction (instructions transaction)
                              (Some (match recentBlockhash transaction with
                                     | Some own => if (own =? "")%string
                                                   then fresh else own
                                     | None => fresh
                                     end))
                              (Some (Relayer.getPublicKey relayer)));
           [destruct transaction as [ixs [own|] payer]; cbn;
            [destruct (own =? "")%string|]; reflexivity
           | rewrite Ht in E]
       end.
  all: cbv zeta; split; [|split].
  all: try (intros raw answer Hs; cbn in Hs; try discriminate Hs;
            injection Hs as <- <-; assumption).
  all: try (intros signature blockhash h answer Hc; cbn in Hc;
            try discriminate Hc; injection Hc as <- <- <- <-;
            split; [reflexivity|]; split; [reflexivity|];
            eexists; reflexivity).
  all: intros failure He; try rewrite He in *; try discriminate.
  all: match goal with
       | E : Thrown _ = Thrown _ |- _ => injection E as <-
       end; split; reflexivity.
Qed.

Lemma submitTransaction_trace (lib : Relayer.Lib)
    (relayer : Relayer.MinimalRelayer) (transaction : Transaction) :
  awp (Relayer.submitTransaction lib relayer transaction)
      (fun o tr =>
         (List.length (Relayer.sent tr) <= 1)%nat /\
         (List.length (Relayer.confirmations tr) <= 1)%nat /\
         (forall signature blockhash h value,
            Relayer.confirmations tr = [(signature, blockhash, h, Returned value)] ->
            o = Returned signature) /\
         (forall signature blockhash h e,
            Relayer.confirmations tr = [(signature, blockhash, h, Thrown e)] ->
            o = Thrown e) /\
         (forall raw e,
            Relayer.sent tr = [(raw, Thrown e)] ->
            o = Thrown e /\ Relayer.confirmations tr = []) /\
         (forall signature,
            o = Returned signature ->
            exists raw blockhash h value,
              Relayer.sent tr = [(raw, Returned signature)] /\
              Relayer.confirmations tr
              = [(signature, blockhash, h, Returned value)]) /\
         Forall (fun conn => conn = Relayer.connection relayer)
                (Relayer.connectionsUsed tr)).
Proof.
  unfold Relayer.submitTransaction. aexec.
  all: split; [cbn; lia|]; split; [cbn; lia|].
  all: split; [intros signature blockhash h value Hc; cbn in Hc;
               try discriminate Hc; injection Hc as <- _ _ _; reflexivity|].
  all: split; [intros signature blockhash h failure Hc; cbn in Hc;
               try discriminate Hc; injection Hc as <- _ _ <-; reflexivity|].
  all: split; [intros raw failure Hs; cbn in Hs; try discriminate Hs;
               injection Hs as <- <-; split; reflexivity|].
  all: split; [intros signature Ho; try discriminate Ho; injection Ho as <-;
               do 4 eexists; split; reflexivity|].
  all: cbn; repeat constructor.
Qed.

Lemma construct_connection (lib : Relayer.Lib) (conn : Relayer.Connection)
    (key : string) (relayer : Relayer.MinimalRelayer) :
  Relayer.construct lib conn key = Returned relayer ->
  Relayer.connection relayer = conn.
Proof.
  unfold Relayer.construct.
  destruct (Relayer.keypairFromBase58 lib key).
  - intros H. injection H as <-. reflexivity.
  - destruct (Relayer.keypairFromJson lib key); [|discriminate].
    intros H. injection H as <-. reflexivity.
Qed.

(** X18. Once [getRelayer] has created the relayer, the module keeps it: every
    later call answers that same relayer whatever the secret key and the
    connection passed then, and [submitViaRelayer] sends its calls over
    the connection the relayer was created with, not the one it is given. *)
Theorem relayer_is_created_once (lib : Relayer.Lib) (key : option string)
    (first : Relayer.Connection) (relayer : Relayer.MinimalRelayer)
    (instance : option Relayer.MinimalRelayer) :
  Relayer.getRelayer lib key first None = (Returned relayer, instance) ->
  instance = Some relayer /\
  Relayer.connection relayer = first /\
  forall (key' : option string) (later : Relayer.Connection)
         (transaction : Transaction) {World : Type}
         (respond : forall c : Relayer.Cmd,
                      World -> Outcome (Relayer.Ans c) * World)
         (w : World),
    Relayer.getRelayer lib key' later instance = (Returned relayer, instance) /\
    snd (Relayer.submitViaRelayer lib key' later transaction instance) = instance /\
    Forall (fun conn => conn = first)
           (Relayer.connectionsUsed
              (snd (arun respond
                         (fst (Relayer.submitViaRelayer lib key' later transaction
                                                        instance)) w))).
Proof.
  unfold Relayer.getRelayer at 1.
  destruct key as [key|]; [|discriminate].
  destruct (key =? "")%string; [discriminate|].
  destruct (Relayer.construct lib first key) as [r|e] eqn:E; [|discriminate].
  intros H. injection H as <- <-.
  pose proof (construct_connection lib first key r E) as Hc.
  split; [reflexivity|]. split; [exact Hc|].
  intros key' later transaction World respond w.
  split; [reflexivity|]. split; [reflexivity|].
  unfold Relayer.submitViaRelayer. cbn [Relayer.getRelayer fst snd].
  destruct (arun respond (Relayer.submitTransaction lib r transaction) w)
    as [[o w'] tr] eqn:R.
  cbn [snd].
  pose proof (awp_run_eq respond _ _ w w' o tr
                (submitTransaction_trace lib r transaction) R)
    as [_ [_ [_ [_ [_ [_ Hall]]]]]].
  rewrite Hc in Hall. exact Hall.
Qed.

Lemma relayer_is_created_once_witness :
  Relayer.getRelayer Fixture.relayerLib (Some "secret") "rpc-1" None
  = (Returned Fixture.relayer, Some Fixture.relayer) /\
  Some Fixture.relayer = Some Fixture.relayer /\
  Relayer.connection Fixture.relayer = "rpc-1" /\
  forall (key' : option string) (later : Relayer.Connection)
         (transaction : Transaction) {World : Type}
         (respond : forall c : Relayer.Cmd,
                      World -> Outcome (Relayer.Ans c) * World)
         (w : World),
    Relayer.getRelayer Fixture.relayerLib key' later (Some Fixture.relayer)
    = (Returned Fixture.relayer, Some Fixture.relayer) /\
    snd (Relayer.submitViaRelayer Fixture.relayerLib key' later transaction
                                  (Some Fixture.relayer))
    = Some Fixture.relayer /\
    Forall (fun conn => conn = "rpc-1")
           (Relayer.connectionsUsed
              (snd (arun respond
                         (fst (Relayer.submitViaRelayer Fixture.relayerLib key'
                                 later transaction (Some Fixture.relayer))) w))).
Proof.
  split; [reflexivity|].
  apply (relayer_is_created_once Fixture.relayerLib (Some "secret") "rpc-1"
           Fixture.relayer (Some Fixture.relayer)).
  reflexivity.
Defined.

(** X19. [submitTransaction] signs the transaction with its own blockhash when
    it has one and with the fresh one otherwise, and with the relayer as
    payer; the confirmation is asked for the signature the send returned,
    at the fresh blockhash and height in either case; and when signing
    fails nothing is sent. *)
Theorem relayer_keeps_set_checkpoint (lib : Relayer.Lib)
    (relayer : Relayer.MinimalRelayer) (transaction : Transaction)
    {World : Type}
    (respond : forall c : Relayer.Cmd, World -> Outcome (Relayer.Ans c) * World)
    (w w' : World) (o : Outcome string)
    (tr : list (AEvent Relayer.Cmd Relayer.Ans)) (fresh : string) (height : Z) :
  arun respond (Relayer.submitTransaction lib relayer transaction) w = (o, w', tr) ->
  Relayer.blockhashes tr = [(fresh, height)] ->
  let signed :=
    mkTransaction (instructions transaction)
      (Some (match recentBlockhash transaction with
             | Some own => if (own =? "")%string then fresh else own
             | None => fresh
             end))
      (Some (Relayer.getPublicKey relayer)) in
  (forall raw answer, Relayer.sent tr = [(raw, answer)] ->
     Relayer.signAndSerialize lib signed (Relayer.relayerKeypair relayer)
     = Returned raw) /\
  (forall signature blockhash h answer,
     Relayer.confirmations tr = [(signature, blockhash, h, answer)] ->
     blockhash = fresh /\ h = height /\
     exists raw, Relayer.sent tr = [(raw, Returned signature)]) /\
  (forall failure,
     Relayer.signAndSerialize lib signed (Relayer.relayerKeypair relayer)
     = Thrown failure ->
     o = Thrown failure /\ Relayer.sent tr = []).
Proof.
  intros H.
  exact (awp_run_eq respond _ _ w w' o tr
           (submitTransaction_checkpoint lib relayer transaction) H fresh height).
Qed.

Lemma relayer_keeps_set_checkpoint_witness :
  exists o tr,
    arun Fixture.ledger
         (Relayer.submitTransaction Fixture.relayerLib Fixture.relayer
            Sample.transaction) tt = (o, tt, tr) /\
    Relayer.blockhashes tr = [("fresh-blockhash", 1200)] /\
    let signed :=
      mkTransaction (instructions Sample.transaction)
        (Some (match recentBlockhash Sample.transaction with
               | Some own => if (own =? "")%string then "fresh-blockhash" else own
               | None => "fresh-blockhash"
               end))
        (Some (Relayer.getPublicKey Fixture.relayer)) in
    (forall raw answer, Relayer.sent tr = [(raw, answer)] ->
       Relayer.signAndSerialize Fixture.relayerLib signed
         (Relayer.relayerKeypair Fixture.relayer) = Returned raw) /\
    (forall signature blockhash h answer,
       Relayer.confirmations tr = [(signature, blockhash, h, answer)] ->
       blockhash = "fresh-blockhash" /\ h = 1200 /\
       exists raw, Relayer.sent tr = [(raw, Returned signature)]) /\
    (forall failure,
       Relayer.signAndSerialize Fixture.relayerLib signed
         (Relayer.relayerKeypair Fixture.relayer) = Thrown failure ->
       o = Thrown failure /\ Relayer.sent tr = []).
Proof.
  eexists. eexists. split; [vm_compute; reflexivity|].
  split; [reflexivity|].
  eapply (relayer_keeps_set_checkpoint Fixture.relayerLib Fixture.relayer
            Sample.transaction Fixture.ledger tt tt).
  - vm_compute. reflexivity.
  - reflexivity.
Defined.

(** X20. [submitTransaction] sends at most once and confirms at most once, over
    the relayer's own connection; a rejected send is the outcome and is
    not confirmed; a rejected confirmation is the outcome; and a
    confirmation that resolves yields the signature whatever it resolves
    to, an error of the transaction included. *)
Theorem relayer_sends_once_and_ignores_confirmation_value (lib : Relayer.Lib)
    (relayer : Relayer.MinimalRelayer) (transaction : Transaction)
    {World : Type}
    (respond : forall c : Relayer.Cmd, World -> Outcome (Relayer.Ans c) * World)
    (w w' : World) (o : Outcome string)
    (tr : list (AEvent Relayer.Cmd Relayer.Ans)) :
  arun respond (Relayer.submitTransaction lib relayer transaction) w = (o, w', tr) ->
  (List.length (Relayer.sent tr) <= 1)%nat /\
  (List.length (Relayer.confirmations tr) <= 1)%nat /\
  (forall signature blockhash h value,
     Relayer.confirmations tr = [(signature, blockhash, h, Returned value)] ->
     o = Returned signature) /\
  (forall signature blockhash h e,
     Relayer.confirmations tr = [(signature, blockhash, h, Thrown e)] ->
     o = Thrown e) /\
  (forall raw e,
     Relayer.sent tr = [(raw, Thrown e)] ->
     o = Thrown e /\ Relayer.confirmations tr = []) /\
  (forall signature,
     o = Returned signature ->
     exists raw blockhash h value,
       Relayer.sent tr = [(raw, Returned signature)] /\
       Relayer.confirmations tr = [(signature, blockhash, h, Returned value)]) /\
  Forall (fun conn => conn = Relayer.connection relayer)
         (Relayer.connectionsUsed tr).
Proof.
  intros H.
  exact (awp_run_eq respond _ _ w w' o tr
           (submitTransaction_trace lib relayer transaction) H).
Qed.

Lemma relayer_sends_once_and_ignores_confirmation_value_witness :
  exists o tr,
    arun Fixture.ledger
         (Relayer.submitTransaction Fixture.relayerLib Fixture.relayer
            Sample.transaction) tt = (o, tt, tr) /\
    (List.length (Relayer.sent tr) <= 1)%nat /\
    (List.length (Relayer.confirmations tr) <= 1)%nat /\
    (forall signature blockhash h value,
       Relayer.confirmations tr = [(signature, blockhash, h, Returned value)] ->
       o = Returned signature) /\
    (forall signature blockhash h e,
       Relayer.confirmations tr = [(signature, blockhash, h, Thrown e)] ->
       o = Thrown e) /\
    (forall raw e,
       Relayer.sent tr = [(raw, Thrown e)] ->
       o = Thrown e /\ Relayer.confirmations tr = []) /\
    (forall signature,
       o = Returned signature ->
       exists raw blockhash h value,
         Relayer.sent tr = [(raw, Returned signature)] /\
         Relayer.confirmations tr = [(signature, blockhash, h, Returned value)]) /\
    Forall (fun conn => conn = Relayer.connection Fixture.relayer)
           (Relayer.connectionsUsed tr).
Proof.
  eexists. eexists. split; [vm_compute; reflexivity|].
  eapply (relayer_sends_once_and_ignores_confirmation_value Fixture.relayerLib
            Fixture.relayer Sample.transaction Fixture.ledger tt tt).
  vm_compute. reflexivity.
Defined.

(** X21. A transaction returned by a builder and then handed to
    [submitTransaction] is signed and sent with the blockhash the builder
    read when it priced the fee, not with the one the relayer reads; the
    confirmation, though, is asked at the relayer's fresh blockhash. *)
Theorem built_transaction_keeps_estimation_checkpoint (env : Env) (leg : Leg)
    (vaultOwner mint : PublicKey) (amount : Z) {World : Type}
    (respond : forall c : NetCmd, World -> Resp c * World)
    (w w' : World) (tx : Transaction) (tr : list Event)
    (lib : Relayer.Lib) (relayer : Relayer.MinimalRelayer) {Ledger : Type}
    (answer : forall c : Relayer.Cmd, Ledger -> Outcome (Relayer.Ans c) * Ledger)
    (l l' : Ledger) (o : Outcome string)
    (sends : list (AEvent Relayer.Cmd Relayer.Ans))
    (estimated fresh : string) (height : Z) :
  run respond (buildLeg env leg vaultOwner mint amount) w = (Returned tx, w', tr) ->
  blockhashesRead tr = [estimated] ->
  estimated <> "" ->
  arun answer (Relayer.submitTransaction lib relayer tx) l = (o, l', sends) ->
  Relayer.blockhashes sends = [(fresh, height)] ->
  (forall raw result, Relayer.sent sends = [(raw, result)] ->
     Relayer.signAndSerialize lib
       (mkTransaction (instructions tx) (Some estimated)
                      (Some (Relayer.getPublicKey relayer)))
       (Relayer.relayerKeypair relayer) = Returned raw) /\
  (forall signature blockhash h result,
     Relayer.confirmations sends = [(signature, blockhash, h, result)] ->
     blockhash = fresh).
Proof.
  intros Hb Hread Hne Hs Hfresh.
  pose proof (awp_run_eq answer _ _ l l' o sends
                (submitTransaction_checkpoint lib relayer tx) Hs fresh height
                Hfresh) as [Hsent [Hconf _]].
  assert (Hrecent : recentBlockhash tx = Some estimated).
  { open_build Hb. cbn [recentBlockhash].
    assert (E : blockhashesRead
                  (preamble ++
                   [ NetEvent (FetchQuote mint (legOutputMint env leg) amount 50)
                              (Returned quoteResponse);
                     NetEvent (FetchSwap quote vault) (Returned swapResponse);
                     NetEvent GetRelayerPublicKey (Returned relayerPubkey);
                     NetEvent GetLatestBlockhash (Returned blockhash);
                     NetEvent (GetFeeForMessage probe) (Returned feeEstimate) ])
                = [blockhash]).
    { unfold blockhashesRead. rewrite flat_map_app.
      destruct leg; [destruct Hpre as [? [? [-> _]]] | subst preamble];
        reflexivity. }
    rewrite E in Hread. now injection Hread as <-. }
  rewrite Hrecent in Hsent.
  apply String.eqb_neq in Hne. rewrite Hne in Hsent.
  split; [exact Hsent|].
  intros signature blockhash h result Hc.
  now destruct (Hconf signature blockhash h result Hc) as [-> _].
Qed.

Lemma built_transaction_keeps_estimation_checkpoint_witness :
  exists tx tr o sends,
    run (Sample.respond 200000 (JsString "1999") (Some 5000))
        (buildLeg Sample.env Primary "owner" "USDC" 2000000) tt
    = (Returned tx, tt, tr) /\
    blockhashesRead tr = ["blockhash"] /\
    "blockhash" <> "" /\
    arun Fixture.ledger
         (Relayer.submitTransaction Fixture.relayerLib Fixture.relayer tx) tt
    = (o, tt, sends) /\
    Relayer.blockhashes sends = [("fresh-blockhash", 1200)] /\
    (forall raw result, Relayer.sent sends = [(raw, result)] ->
       Relayer.signAndSerialize Fixture.relayerLib
         (mkTransaction (instructions tx) (Some "blockhash")
                        (Some (Relayer.getPublicKey Fixture.relayer)))
         (Relayer.relayerKeypair Fixture.relayer) = Returned raw) /\
    (forall signature blockhash h result,
       Relayer.confirmations sends = [(signature, blockhash, h, result)] ->
       blockhash = "fresh-blockhash").
Proof.
  eexists. eexists. eexists. eexists.
  split; [vm_compute; reflexivity|].
  split; [reflexivity|]. split; [discriminate|].
  split; [vm_compute; reflexivity|].
  split; [reflexivity|].
  eapply (built_transaction_keeps_estimation_checkpoint Sample.env Primary
            "owner" "USDC" 2000000
            (Sample.respond 200000 (JsString "1999") (Some 5000)) tt tt _ _
            Fixture.relayerLib Fixture.relayer Fixture.ledger tt tt _ _
            "blockhash" "fresh-blockhash" 1200).
  - vm_compute. reflexivity.
  - reflexivity.
  - discriminate.
  - vm_compute. reflexivity.
  - reflexivity.
Defined.

(* ================================================================== *)
(** ** Vault initialisation *)

(** X22. [initializeVault] of [lib/vault.ts] initialises nothing: it reads the
    vault account once and, when the read resolves, returns the derived
    address whether the account exists or not. *)
Theorem initializeVault_only_reads (env : Env) (owner : PublicKey)
    {World : Type}
    (respond : forall c : VaultInit.Cmd, World -> Outcome (VaultInit.Ans c) * World)
    (w w' : World) (o : Outcome PublicKey)
    (tr : list (AEvent VaultInit.Cmd VaultInit.Ans)) :
  arun respond (VaultInit.initializeVault env owner) w = (o, w', tr) ->
  VaultInit.initializations tr = [] /\
  List.length tr = 1%nat /\
  forall address info,
    VaultInit.accountInfos tr = [(address, info)] ->
    address = getVaultAddress env owner /\
    o = Returned (getVaultAddress env owner).
Proof.
  intros H. by_awp H. unfold VaultInit.initializeVault. aexec.
  all: split; [reflexivity|]; split; [reflexivity|].
  all: intros address info Hi; cbn in Hi; try discriminate Hi;
    injection Hi as <- <-; split; reflexivity.
Qed.

Lemma initializeVault_only_reads_witness :
  exists o tr,
    arun (Fixture.chain None) (VaultInit.initializeVault Sample.env "owner") tt
    = (o, tt, tr) /\
    VaultInit.initializations tr = [] /\
    List.length tr = 1%nat /\
    forall address info,
      VaultInit.accountInfos tr = [(address, info)] ->
      address = getVaultAddress Sample.env "owner" /\
      o = Returned (getVaultAddress Sample.env "owner").
Proof.
  eexists. eexists. split; [vm_compute; reflexivity|].
  eapply (initializeVault_only_reads Sample.env "owner" (Fixture.chain None) tt tt).
  vm_compute. reflexivity.
Defined.

(** X23. [initializeVaultClient] throws before any call when no wallet is
    connected; otherwise it reads the vault derived from the wallet's key,
    returns it without an initialisation when the account exists, and
    otherwise sends one initialisation, for that owner, vault, mint and
    associated token account, and can only return that vault. *)
Theorem initializeVaultClient_initializes_at_most_once (env : Env)
    (wallet : VaultInit.Wallet) {World : Type}
    (respond : forall c : VaultInit.Cmd, World -> Outcome (VaultInit.Ans c) * World)
    (w w' : World) (o : Outcome PublicKey)
    (tr : list (AEvent VaultInit.Cmd VaultInit.Ans)) :
  arun respond (VaultInit.initializeVaultClient env wallet) w = (o, w', tr) ->
  (VaultInit.publicKey wallet = None ->
   o = Thrown (Error "Wallet not connected") /\ tr = []) /\
  (forall walletKey address info,
     VaultInit.publicKey wallet = Some walletKey ->
     VaultInit.accountInfos tr = [(address, info)] ->
     let vault := getVaultAddress env walletKey in
     address = vault /\
     match info with
     | Some _ => o = Returned vault /\ VaultInit.initializations tr = []
     | None =>
         VaultInit.initializations tr =
           [VaultInit.mkInitializeAccounts walletKey vault
              (NEXT_PUBLIC_CBBTC_MINT env) (getVaultCbbtcAta env vault)
              TOKEN_PROGRAM_ID VaultInit.ASSOCIATED_TOKEN_PROGRAM_ID
              SystemProgram_programId] /\
         (forall result, o = Returned result -> result = vault)
     end).
Proof.
  intros H. by_awp H. unfold VaultInit.initializeVaultClient.
  destruct (VaultInit.publicKey wallet) as [walletKey|]; aexec.
  all: split; [intros Hn; try discriminate Hn; split; reflexivity|].
  all: intros key address info Hk Hi; try discriminate Hk.
  all: injection Hk as <-; cbn in Hi; try discriminate Hi.
  all: injection Hi as <- <-; cbn iota; split; [reflexivity|].
  all: try (split; reflexivity).
  all: split; [reflexivity|]; intros result Hr; try discriminate Hr;
    now injection Hr as <-.
Qed.

Lemma initializeVaultClient_initializes_at_most_once_witness :
  exists o tr,
    arun (Fixture.chain None)
         (VaultInit.initializeVaultClient Sample.env
            (VaultInit.mkWallet (Some "owner"))) tt = (o, tt, tr) /\
    (VaultInit.publicKey (VaultInit.mkWallet (Some "owner")) = None ->
     o = Thrown (Error "Wallet not connected") /\ tr = []) /\
    (forall walletKey address info,
       VaultInit.publicKey (VaultInit.mkWallet (Some "owner")) = Some walletKey ->
       VaultInit.accountInfos tr = [(address, info)] ->
       let vault := getVaultAddress Sample.env walletKey in
       address = vault /\
       match info with
       | Some _ => o = Returned vault /\ VaultInit.initializations tr = []
       | None =>
           VaultInit.initializations tr =
             [VaultInit.mkInitializeAccounts walletKey vault
                (NEXT_PUBLIC_CBBTC_MINT Sample.env)
                (getVaultCbbtcAta Sample.env vault)
                TOKEN_PROGRAM_ID VaultInit.ASSOCIATED_TOKEN_PROGRAM_ID
                SystemProgram_programId] /\
           (forall result, o = Returned result -> result = vault)
       end).
Proof.
  eexists. eexists. split; [vm_compute; reflexivity|].
  eapply (initializeVaultClient_initializes_at_most_once Sample.env
            (VaultInit.mkWallet (Some "owner")) (Fixture.chain None) tt tt).
  vm_compute. reflexivity.
Defined.

(** X24. The two checks disagree on an account without data: [isVaultInitialized]
    answers false for it, while [initializeVaultClient] takes the vault
    for existing and returns without initialising it. *)
Theorem empty_account_is_never_initialized (env : Env) (walletKey : PublicKey)
    (info : VaultInit.AccountInfo) {World : Type}
    (respond : forall c : VaultInit.Cmd, World -> Outcome (VaultInit.Ans c) * World)
    (w1 w1' w2 w2' : World) (o1 : Outcome bool) (o2 : Outcome PublicKey)
    (tr1 tr2 : list (AEvent VaultInit.Cmd VaultInit.Ans)) :
  VaultInit.dataLength info <= 0 ->
  arun respond (VaultInit.isVaultInitialized env walletKey) w1 = (o1, w1', tr1) ->
  VaultInit.accountInfos tr1 = [(getVaultAddress env walletKey, Some info)] ->
  arun respond (VaultInit.initializeVaultClient env
                  (VaultInit.mkWallet (Some walletKey))) w2 = (o2, w2', tr2) ->
  VaultInit.accountInfos tr2 = [(getVaultAddress env walletKey, Some info)] ->
  o1 = Returned false /\
  o2 = Returned (getVaultAddress env walletKey) /\
  VaultInit.initializations tr2 = [].
Proof.
  intros Hlen H1 Hi1 H2 Hi2.
  split.
  - revert Hi1. by_awp H1. unfold VaultInit.isVaultInitialized. aexec.
    all: intros Hi; cbn in Hi; try discriminate Hi; injection Hi as ->.
    cbn. f_equal. apply Z.ltb_ge. exact Hlen.
  - revert Hi2. by_awp H2. unfold VaultInit.initializeVaultClient.
    cbn [VaultInit.publicKey]. aexec.
    all: intros Hi; cbn in Hi; try discriminate Hi; injection Hi as Hi;
      try discriminate Hi.
    split; reflexivity.
Qed.

Lemma empty_account_is_never_initialized_witness :
  exists o1 tr1 o2 tr2,
    VaultInit.dataLength (VaultInit.mkAccountInfo 0) <= 0 /\
    arun (Fixture.chain (Some (VaultInit.mkAccountInfo 0)))
         (VaultInit.isVaultInitialized Sample.env "owner") tt = (o1, tt, tr1) /\
    VaultInit.accountInfos tr1
    = [(getVaultAddress Sample.env "owner", Some (VaultInit.mkAccountInfo 0))] /\
    arun (Fixture.chain (Some (VaultInit.mkAccountInfo 0)))
         (VaultInit.initializeVaultClient Sample.env
            (VaultInit.mkWallet (Some "owner"))) tt = (o2, tt, tr2) /\
    VaultInit.accountInfos tr2
    = [(getVaultAddress Sample.env "owner", Some (VaultInit.mkAccountInfo 0))] /\
    o1 = Returned false /\
    o2 = Returned (getVaultAddress Sample.env "owner") /\
    VaultInit.initializations tr2 = [].
Proof.
  do 4 eexists.
  split; [cbn; lia|].
  split; [vm_compute; reflexivity|]. split; [reflexivity|].
  split; [vm_compute; reflexivity|]. split; [reflexivity|].
  eapply (empty_account_is_never_initialized Sample.env "owner"
            (VaultInit.mkAccountInfo 0)
            (Fixture.chain (Some (VaultInit.mkAccountInfo 0))) tt tt tt tt).
  - cbn. lia.
  - vm_compute. reflexivity.
  - reflexivity.
  - vm_compute. reflexivity.
  - reflexivity.
Defined.

(* ================================================================== *)
(** ** The endpoint *)

Section EndpointFacts.
Variable env : Env.
Variable lib : Endpoint.Lib.

Lemma quiet_app (a b : list (AEvent Endpoint.Cmd Endpoint.Ans)) :
  Endpoint.quiet (a ++ b) = Endpoint.quiet a && Endpoint.quiet b.
Proof. apply forallb_app. Qed.

Lemma quiet_embedded (tr : list Event) :
  count isPipelineCall tr = 0%nat ->
  Endpoint.quiet (map Endpoint.embedEvent tr) = true.
Proof.
  unfold count. induction tr as [|ev tr IH]; intros H; [reflexivity|].
  cbn [filter] in H. destruct ev as [c r|l]; cbn in H; [discriminate|].
  cbn. now apply IH.
Qed.

Lemma embed_awp {A} (p : Prog A) :
  forall Q : Outcome A -> list Event -> Prop,
    wp p Q ->
    awp (Endpoint.embed p)
        (fun o tr => exists tr0, tr = map Endpoint.embedEvent tr0 /\ Q o tr0).
Proof.
  induction p as [a|e|c k IH|l q IH]; intros Q H; cbn [wp Endpoint.embed awp] in *.
  - exists []. now split.
  - exists []. now split.
  - intros r. eapply awp_mono; [|apply (IH r _ (H r))].
    intros o tr [tr0 [-> HQ]]. exists (NetEvent c r :: tr0). now split.
  - eapply awp_mono; [|apply (IH _ H)].
    intros o tr [tr0 [-> HQ]]. exists (LogEvent l :: tr0). now split.
Qed.

Lemma awp_then_reply {A} (p : Endpoint.Task A) (reply : Reply)
    (Q : Outcome Reply -> list (AEvent Endpoint.Cmd Endpoint.Ans) -> Prop) :
  (forall tr, Q (Returned reply) tr) ->
  (forall e tr, Q (Thrown e) tr) ->
  awp (abind p (fun _ => ARet reply)) Q.
Proof.
  intros Hr Ht. apply awp_bind. apply awp_always.
  intros [a|e] tr; cbn [awp]; auto.
Qed.

Lemma awp_bind_trace {A B} (P : list (AEvent Endpoint.Cmd Endpoint.Ans) -> Prop)
    (p : Endpoint.Task A) (f : A -> Endpoint.Task B) :
  (forall a b, P a -> P b -> P (a ++ b)%list) ->
  awp p (fun _ tr => P tr) ->
  (forall a, awp (f a) (fun _ tr => P tr)) ->
  awp (abind p f) (fun _ tr => P tr).
Proof.
  intros Happ Hp Hf. apply awp_bind. eapply awp_mono; [|exact Hp].
  intros [a|e] tr Htr; [|exact Htr].
  eapply awp_mono; [|apply Hf]. intros o' tr' Htr'. now apply Happ.
Qed.

Lemma awp_forEach_trace {T} (P : list (AEvent Endpoint.Cmd Endpoint.Ans) -> Prop)
    (xs : list T) (body : T -> Endpoint.Task unit) :
  P [] ->
  (forall a b, P a -> P b -> P (a ++ b)%list) ->
  (forall x, awp (body x) (fun _ tr => P tr)) ->
  awp (aforEach xs body) (fun _ tr => P tr).
Proof.
  intros Hnil Happ Hbody. induction xs as [|x xs IH]; cbn [aforEach].
  - exact Hnil.
  - apply awp_bind_trace; auto.
Qed.

Lemma quiet_concat (a b : list (AEvent Endpoint.Cmd Endpoint.Ans)) :
  Endpoint.quiet a = true -> Endpoint.quiet b = true ->
  Endpoint.quiet (a ++ b) = true.
Proof. intros Ha Hb. now rewrite quiet_app, Ha, Hb. Qed.

Lemma balance_step_wp (cbbtcMint vaultAddress : PublicKey)
    (postBalance : Endpoint.PostTokenBalance) :
  awp (if Endpoint.ownedBy vaultAddress postBalance
       then
         atry
           (abind (alift (Endpoint.PublicKey_of_number lib
                            (Endpoint.accountIndex postBalance)))
              (fun tokenAccount =>
                 abind (@aawait Endpoint.Cmd Endpoint.Ans
                          (Endpoint.GetTokenAccount tokenAccount))
                   (fun mint =>
                      if negb (mint =? cbbtcMint)%string
                      then alog ("Token " ++ mint ++ " received in vault "
                                 ++ vaultAddress)
                      else ARet tt)))
           (fun error => aerror "Error processing token balance:" error)
       else ARet tt)
      (fun o tr =>
         o = Returned tt /\ Endpoint.quiet tr = true /\
         (List.length (Endpoint.lookups tr)
          <= if Endpoint.ownedBy vaultAddress postBalance then 1 else 0)%nat).
Proof.
  destruct (Endpoint.ownedBy vaultAddress postBalance); aexec;
    repeat split; cbn; lia.
Qed.

Lemma lookups_app (a b : list (AEvent Endpoint.Cmd Endpoint.Ans)) :
  Endpoint.lookups (a ++ b) = (Endpoint.lookups a ++ Endpoint.lookups b)%list.
Proof. unfold Endpoint.lookups. apply flat_map_app. Qed.

Lemma balances_wp (cbbtcMint vaultAddress : PublicKey)
    (balances : list Endpoint.PostTokenBalance) :
  awp (aforEach balances
         (fun postBalance =>
            if Endpoint.ownedBy vaultAddress postBalance
            then
              atry
                (abind (alift (Endpoint.PublicKey_of_number lib
                                 (Endpoint.accountIndex postBalance)))
                   (fun tokenAccount =>
                      abind (@aawait Endpoint.Cmd Endpoint.Ans
                               (Endpoint.GetTokenAccount tokenAccount))
                        (fun mint =>
                           if negb (mint =? cbbtcMint)%string
                           then alog ("Token " ++ mint ++ " received in vault "
                                      ++ vaultAddress)
                           else ARet tt)))
                (fun error => aerror "Error processing token balance:" error)
            else ARet tt))
      (fun o tr =>
         o = Returned tt /\ Endpoint.quiet tr = true /\
         (List.length (Endpoint.lookups tr)
          <= List.length (filter (Endpoint.ownedBy vaultAddress) balances))%nat).
Proof.
  induction balances as [|b balances IH]; cbn [aforEach].
  - cbn. repeat split. lia.
  - apply awp_bind.
    eapply awp_mono; [|apply (balance_step_wp cbbtcMint vaultAddress b)].
    intros o tr [-> [Hq Hl]].
    eapply awp_mono; [|exact IH].
    intros o' tr' [-> [Hq' Hl']]. split; [reflexivity|].
    split; [now apply quiet_concat|].
    rewrite lookups_app, length_app. cbn [filter].
    destruct (Endpoint.ownedBy vaultAddress b); cbn [List.length]; lia.
Qed.

Lemma processTransaction_wp (vaultAddress : PublicKey)
    (tx : Endpoint.ChainTransaction) :
  awp (Endpoint.processTransaction env lib vaultAddress tx)
      (fun o tr =>
         Endpoint.quiet tr = true /\
         if PublicKey_valid env (NEXT_PUBLIC_CBBTC_MINT env)
         then o = Returned tt /\
              (List.length (Endpoint.lookups tr)
               <= List.length (Endpoint.owned vaultAddress tx))%nat
         else o = Thrown (Error "Invalid public key input") /\ tr = []).
Proof.
  unfold Endpoint.processTransaction, new_PublicKey, Endpoint.owned.
  destruct (PublicKey_valid env (NEXT_PUBLIC_CBBTC_MINT env));
    cbn [alift abind awp]; [|repeat split].
  eapply awp_mono; [|apply balances_wp].
  intros o tr [-> [Hq Hl]]. repeat split; assumption.
Qed.

Lemma processTransaction_quiet (vaultAddress : PublicKey)
    (tx : Endpoint.ChainTransaction) :
  awp (Endpoint.processTransaction env lib vaultAddress tx)
      (fun _ tr => Endpoint.quiet tr = true).
Proof.
  eapply awp_mono; [|apply processTransaction_wp]. now intros o tr [H _].
Qed.

Lemma pollVault_quiet (vaultAddress : PublicKey) :
  awp (Endpoint.pollVault env lib vaultAddress)
      (fun _ tr => Endpoint.quiet tr = true).
Proof.
  unfold Endpoint.pollVault. cbn [awp abind aawait alift].
  intros [signatures|e]; cbn [awp abind alift]; [|reflexivity].
  eapply awp_mono;
    [|apply (awp_forEach_trace (fun tr => Endpoint.quiet tr = true) signatures);
      [reflexivity | apply quiet_concat|]].
  - intros o tr H. exact H.
  - intros sig. cbn [awp abind aawait alift].
    intros [[tx|]|e]; cbn [awp abind alift]; try reflexivity.
    eapply awp_mono; [|apply processTransaction_quiet].
    intros o tr H. exact H.
Qed.

Lemma helius_quiet (tx : HeliusTransaction) :
  awp (Endpoint.embed (processHeliusTransaction env tx))
      (fun _ tr => Endpoint.quiet tr = true).
Proof.
  eapply awp_mono;
    [|apply (embed_awp _ (fun o tr => o = Returned tt /\
                                       count isPipelineCall tr = 0%nat))].
  - intros o tr [tr0 [-> [_ H]]]. now apply quiet_embedded.
  - unfold processHeliusTransaction, processHeliusTransactionWith.
    apply wp_bind. eapply wp_mono; [|apply stand_in_token_transfers].
    intros o tr [-> ->]. cbn [app]. apply native_transfers_only_log.
Qed.

Lemma awp_try_trace {A} (P : list (AEvent Endpoint.Cmd Endpoint.Ans) -> Prop)
    (p : Endpoint.Task A) (h : Err -> Endpoint.Task A) :
  (forall a b, P a -> P b -> P (a ++ b)%list) ->
  awp p (fun _ tr => P tr) ->
  (forall e, awp (h e) (fun _ tr => P tr)) ->
  awp (atry p h) (fun _ tr => P tr).
Proof.
  intros Happ Hp Hh. apply awp_try. eapply awp_mono; [|exact Hp].
  intros [a|e] tr Htr; [exact Htr|].
  eapply awp_mono; [|apply Hh]. intros o' tr' Htr'. now apply Happ.
Qed.

Ltac quiet_seq :=
  apply awp_bind_trace; [apply quiet_concat | | intros; try reflexivity].

Lemma POST_quiet (request : Outcome Endpoint.Body) :
  awp (Endpoint.POST env lib request) (fun _ tr => Endpoint.quiet tr = true).
Proof.
  unfold Endpoint.POST.
  apply awp_try_trace; [apply quiet_concat | | intros e; reflexivity].
  destruct request as [body|e]; cbn [alift abind]; [|reflexivity].
  destruct body as [items|v|fields].
  - reflexivity.
  - destruct v; reflexivity.
  - destruct (Endpoint.typeIs fields "TRANSFER" || Endpoint.typeIs fields "SWAP").
    { quiet_seq. cbn [aforEach]. quiet_seq.
      destruct (isTransferOrSwap _); [apply helius_quiet | reflexivity]. }
    destruct (Endpoint.typeIs fields "ACCOUNT").
    { destruct (Endpoint.accountData fields) as [[|datum data]|];
        try reflexivity.
      quiet_seq; [destruct (new_PublicKey env _); reflexivity|].
      quiet_seq. apply pollVault_quiet. }
    destruct (truthy (Endpoint.webhookId fields)).
    { destruct (Endpoint.account fields) as [a|]; [|reflexivity].
      destruct (a =? "")%string; [reflexivity|].
      quiet_seq; [destruct (new_PublicKey env _); reflexivity|].
      quiet_seq. apply pollVault_quiet. }
    destruct (Endpoint.transaction fields) as [ref|]; [|reflexivity].
    quiet_seq; [cbn [aawait awp]; intros [r|e]; reflexivity|].
    quiet_seq. destruct a as [tx|]; [|reflexivity].
    apply (awp_forEach_trace (fun tr => Endpoint.quiet tr = true));
      [reflexivity | apply quiet_concat|].
    intros key. apply processTransaction_quiet.
Qed.

Lemma POST_answers (request : Outcome Endpoint.Body) :
  awp (Endpoint.POST env lib request)
      (fun o tr => exists reply, o = Returned reply /\ Endpoint.answered reply tr).
Proof.
  unfold Endpoint.POST. apply awp_try.
  assert (Hcatch : forall (error : Err) tr,
             awp (Endpoint.serverError error)
                 (fun o' tr' =>
                    exists reply, o' = Returned reply /\
                                  Endpoint.answered reply (tr ++ tr'))).
  { intros error tr. cbn. eexists. split; [reflexivity|].
    right. right. exists error, tr. split; reflexivity. }
  set (P := fun (o : Outcome Reply) tr =>
              match o with
              | Returned a =>
                  exists reply, Returned a = Returned reply /\
                                Endpoint.answered reply tr
              | Thrown e =>
                  awp (Endpoint.serverError e)
                      (fun o' tr' =>
                         exists reply, o' = Returned reply /\
                                       Endpoint.answered reply (tr ++ tr'))
              end).
  match goal with |- awp ?p _ => change (awp p P) end.
  assert (Hok : forall note tr, P (Returned (mkReply 200 note)) tr).
  { intros note tr. cbn. eexists. split; [reflexivity|]. now left. }
  assert (Hbad : P (Returned (mkReply 400 "Unknown webhook format")) []).
  { cbn. eexists. split; [reflexivity|]. right. left. now split. }
  assert (Hthrown : forall e tr, P (Thrown e) tr).
  { intros e tr. apply Hcatch. }
  assert (Hseq : forall {A} (p : Endpoint.Task A) note,
             awp (abind p (fun _ => ARet (mkReply 200 note))) P).
  { intros A p note. apply awp_then_reply; auto. }
  destruct request as [body|e]; cbn [alift abind awp]; [|apply Hthrown].
  destruct body as [items|v|fields].
  - exact Hbad.
  - destruct v; cbn [awp]; solve [exact Hbad | apply Hthrown].
  - destruct (Endpoint.typeIs fields "TRANSFER" || Endpoint.typeIs fields "SWAP");
      [apply Hseq|].
    destruct (Endpoint.typeIs fields "ACCOUNT").
    { destruct (Endpoint.accountData fields) as [[|datum data]|];
        try apply Hok.
      destruct (new_PublicKey env (Endpoint.datumAccount datum)) as [vault|e];
        cbn [alift abind awp]; [apply Hseq | apply Hthrown]. }
    destruct (truthy (Endpoint.webhookId fields)).
    { destruct (Endpoint.account fields) as [a|]; [|apply Hok].
      destruct (a =? "")%string; [apply Hok|].
      destruct (new_PublicKey env a) as [vault|e];
        cbn [alift abind awp]; [apply Hseq | apply Hthrown]. }
    destruct (Endpoint.transaction fields) as [ref|]; [|exact Hbad].
    cbn [aawait abind awp]. intros [tx|e]; cbn [alift abind awp];
      [|apply Hthrown].
    apply awp_then_reply; intros; [apply Hok | apply Hthrown].
Qed.

End EndpointFacts.

(** X25. In no format and for no answer of the ledger does the endpoint make a
    call of the swap pipeline: no token account or balance of a vault is
    read, no quote or swap instruction fetched, nothing priced or handed
    to the relay. *)
Theorem endpoint_never_reaches_pipeline (env : Env) (lib : Endpoint.Lib)
    (request : Outcome Endpoint.Body)
    {World : Type}
    (respond : forall c : Endpoint.Cmd, World -> Outcome (Endpoint.Ans c) * World)
    (w w' : World) (o : Outcome Reply)
    (tr : list (AEvent Endpoint.Cmd Endpoint.Ans)) :
  arun respond (Endpoint.POST env lib request) w = (o, w', tr) ->
  forall ev, In ev tr -> Endpoint.isPipeline ev = false.
Proof.
  intros H.
  pose proof (awp_run_eq respond _ _ w w' o tr (POST_quiet env lib request) H) as Hq.
  unfold Endpoint.quiet in Hq. rewrite forallb_forall in Hq.
  intros ev Hin. apply Hq in Hin. now apply negb_true_iff.
Qed.

Lemma endpoint_never_reaches_pipeline_witness :
  exists o tr,
    arun Fixture.endpointWorld
         (Endpoint.POST Sample.env Fixture.endpointLib
            (Returned Fixture.accountBody)) tt = (o, tt, tr) /\
    forall ev, In ev tr -> Endpoint.isPipeline ev = false.
Proof.
  eexists. eexists. split; [vm_compute; reflexivity|].
  eapply (endpoint_never_reaches_pipeline Sample.env Fixture.endpointLib
            (Returned Fixture.accountBody) Fixture.endpointWorld tt tt).
  vm_compute. reflexivity.
Defined.

(** X26. [POST] never throws: every run answers, with status 200, 400 or 500.
    A reply of status 400 is the unknown-format reply and comes after no
    call and no log; a reply of status 500 carries the message of the
    error caught (or the default text when it is empty), and that error
    is the last thing logged. *)
Theorem endpoint_always_answers (env : Env) (lib : Endpoint.Lib)
    (request : Outcome Endpoint.Body)
    {World : Type}
    (respond : forall c : Endpoint.Cmd, World -> Outcome (Endpoint.Ans c) * World)
    (w w' : World) (o : Outcome Reply)
    (tr : list (AEvent Endpoint.Cmd Endpoint.Ans)) :
  arun respond (Endpoint.POST env lib request) w = (o, w', tr) ->
  exists reply, o = Returned reply /\ Endpoint.answered reply tr.
Proof.
  intros H. exact (awp_run_eq respond _ _ w w' o tr (POST_answers env lib request) H).
Qed.

Lemma endpoint_always_answers_witness :
  exists o tr,
    arun Fixture.endpointWorld
         (Endpoint.POST Sample.env Fixture.endpointLib
            (Returned Fixture.transferBody)) tt = (o, tt, tr) /\
    exists reply, o = Returned reply /\ Endpoint.answered reply tr.
Proof.
  eexists. eexists. split; [vm_compute; reflexivity|].
  eapply (endpoint_always_answers Sample.env Fixture.endpointLib
            (Returned Fixture.transferBody) Fixture.endpointWorld tt tt).
  vm_compute. reflexivity.
Defined.

Lemma balances_trace_wp (lib : Endpoint.Lib) (cbbtcMint vaultAddress : PublicKey)
    (balances : list Endpoint.PostTokenBalance) :
  awp (aforEach balances
         (fun postBalance =>
            if Endpoint.ownedBy vaultAddress postBalance
            then
              atry
                (abind (alift (Endpoint.PublicKey_of_number lib
                                 (Endpoint.accountIndex postBalance)))
                   (fun tokenAccount =>
                      abind (@aawait Endpoint.Cmd Endpoint.Ans
                               (Endpoint.GetTokenAccount tokenAccount))
                        (fun mint =>
                           if negb (mint =? cbbtcMint)%string
                           then alog ("Token " ++ mint ++ " received in vault "
                                      ++ vaultAddress)
                           else ARet tt)))
                (fun error => aerror "Error processing token balance:" error)
            else ARet tt))
      (fun o tr =>
         o = Returned tt /\
         Endpoint.lookups tr
         = flat_map (fun postBalance =>
                       match Endpoint.PublicKey_of_number lib
                               (Endpoint.accountIndex postBalance) with
                       | Returned tokenAccount => [tokenAccount]
                       | Thrown _ => []
                       end) (filter (Endpoint.ownedBy vaultAddress) balances) /\
         Permutation (Endpoint.balanceErrors tr)
           (flat_map (fun postBalance =>
                        match Endpoint.PublicKey_of_number lib
                                (Endpoint.accountIndex postBalance) with
                        | Returned _ => []
                        | Thrown error => [error]
                        end) (filter (Endpoint.ownedBy vaultAddress) balances)
            ++ Endpoint.rejectedLookups tr) /\
         Endpoint.logLines tr
         = map (Endpoint.receivedLine vaultAddress)
               (filter (fun mint => negb (mint =? cbbtcMint)%string)
                       (Endpoint.resolvedMints tr))).
Proof.
  induction balances as [|b balances IH]; cbn [aforEach].
  - cbn. repeat split. constructor.
  - apply awp_bind. cbn [filter].
    destruct (Endpoint.ownedBy vaultAddress b).
    2:{ cbn [awp app]. exact IH. }
    cbn [flat_map].
    destruct (Endpoint.PublicKey_of_number lib (Endpoint.accountIndex b))
      as [tokenAccount|failure].
    + cbn [alift abind atry aawait awp].
      intros [mint|failure]; cbn [alift abind atry awp aerror].
      * destruct (negb (mint =? cbbtcMint)%string) eqn:E;
          cbn [alog atry awp]; (eapply awp_mono; [|exact IH]);
          intros o tr [-> [Hl [Hp Hg]]]; (split; [reflexivity|]);
          unfold Endpoint.lookups, Endpoint.balanceErrors,
            Endpoint.rejectedLookups, Endpoint.logLines,
            Endpoint.resolvedMints in *;
          cbn [flat_map app filter map String.eqb]; rewrite ?E;
          cbn [flat_map app filter map];
          (split; [now rewrite Hl|]); (split; [exact Hp|]);
          now rewrite Hg.
      * eapply awp_mono; [|exact IH].
        intros o tr [-> [Hl [Hp Hg]]]. split; [reflexivity|].
        unfold Endpoint.lookups, Endpoint.balanceErrors,
          Endpoint.rejectedLookups, Endpoint.logLines,
          Endpoint.resolvedMints in *.
        cbn [flat_map app filter map String.eqb Ascii.eqb Bool.eqb].
        split; [now rewrite Hl|]. split; [|exact Hg].
        now apply Permutation_cons_app.
    + cbn [alift abind atry awp aerror].
      eapply awp_mono; [|exact IH].
      intros o tr [-> [Hl [Hp Hg]]]. split; [reflexivity|].
      unfold Endpoint.lookups, Endpoint.balanceErrors,
        Endpoint.rejectedLookups, Endpoint.logLines,
        Endpoint.resolvedMints in *.
      cbn [flat_map app filter map String.eqb Ascii.eqb Bool.eqb].
      split; [exact Hl|]. split; [|exact Hg].
      now apply perm_skip.
Qed.

Lemma processTransaction_trace_wp (env : Env) (lib : Endpoint.Lib)
    (vaultAddress : PublicKey) (tx : Endpoint.ChainTransaction) :
  PublicKey_valid env (NEXT_PUBLIC_CBBTC_MINT env) = true ->
  awp (Endpoint.processTransaction env lib vaultAddress tx)
      (fun o tr =>
         o = Returned tt /\
         Endpoint.lookups tr = Endpoint.ownedAccounts lib vaultAddress tx /\
         Permutation (Endpoint.balanceErrors tr)
           (Endpoint.indexErrors lib vaultAddress tx
            ++ Endpoint.rejectedLookups tr) /\
         Endpoint.logLines tr
         = map (Endpoint.receivedLine vaultAddress)
               (filter (fun mint =>
                          negb (mint =? NEXT_PUBLIC_CBBTC_MINT env)%string)
                       (Endpoint.resolvedMints tr))).
Proof.
  intros Hvalid.
  unfold Endpoint.processTransaction, new_PublicKey. rewrite Hvalid.
  cbn [alift abind]. apply balances_trace_wp.
Qed.

(** X27. [processTransaction] never throws, the settlement mint being a
    valid key (the import of [lib/vault] has built it before): every
    balance the vault owns is processed, whatever happened to the ones
    before it.  The token accounts looked up are those of all its balances
    whose index [new PublicKey] accepts, in order; the errors logged by
    the [catch] are the errors of the other indices and of the rejected
    lookups, each once; and the lines logged are the received lines of the
    resolved mints other than the settlement mint, in order. *)
Theorem processTransaction_isolates_balances (env : Env) (lib : Endpoint.Lib)
    (vaultAddress : PublicKey)
    (tx : Endpoint.ChainTransaction) {World : Type}
    (respond : forall c : Endpoint.Cmd, World -> Outcome (Endpoint.Ans c) * World)
    (w w' : World) (o : Outcome unit)
    (tr : list (AEvent Endpoint.Cmd Endpoint.Ans)) :
  PublicKey_valid env (NEXT_PUBLIC_CBBTC_MINT env) = true ->
  arun respond (Endpoint.processTransaction env lib vaultAddress tx) w
  = (o, w', tr) ->
  o = Returned tt /\
  Endpoint.lookups tr = Endpoint.ownedAccounts lib vaultAddress tx /\
  Permutation (Endpoint.balanceErrors tr)
    (Endpoint.indexErrors lib vaultAddress tx ++ Endpoint.rejectedLookups tr) /\
  Endpoint.logLines tr
  = map (Endpoint.receivedLine vaultAddress)
        (filter (fun mint => negb (mint =? NEXT_PUBLIC_CBBTC_MINT env)%string)
                (Endpoint.resolvedMints tr)) /\
  (List.length (Endpoint.lookups tr)
   <= List.length (Endpoint.owned vaultAddress tx))%nat.
Proof.
  intros Hvalid H.
  destruct (awp_run_eq respond _ _ w w' o tr
              (processTransaction_trace_wp env lib vaultAddress tx Hvalid) H)
    as [Ho [Hl [Hp Hg]]].
  repeat split; try assumption.
  rewrite Hl. unfold Endpoint.ownedAccounts.
  induction (Endpoint.owned vaultAddress tx) as [|b bs IH]; [reflexivity|].
  cbn [flat_map]. rewrite length_app.
  destruct (Endpoint.PublicKey_of_number lib (Endpoint.accountIndex b));
    cbn [List.length]; lia.
Qed.

Lemma processTransaction_isolates_balances_witness :
  exists o tr,
    PublicKey_valid Sample.env (NEXT_PUBLIC_CBBTC_MINT Sample.env) = true /\
    arun Fixture.endpointWorld
         (Endpoint.processTransaction Sample.env Fixture.endpointLib
            "vault-of-owner" Fixture.chainTx) tt = (o, tt, tr) /\
    o = Returned tt /\
    Endpoint.lookups tr
    = Endpoint.ownedAccounts Fixture.endpointLib "vault-of-owner" Fixture.chainTx /\
    Permutation (Endpoint.balanceErrors tr)
      (Endpoint.indexErrors Fixture.endpointLib "vault-of-owner" Fixture.chainTx
       ++ Endpoint.rejectedLookups tr) /\
    Endpoint.logLines tr
    = map (Endpoint.receivedLine "vault-of-owner")
          (filter (fun mint =>
                     negb (mint =? NEXT_PUBLIC_CBBTC_MINT Sample.env)%string)
                  (Endpoint.resolvedMints tr)) /\
    (List.length (Endpoint.lookups tr)
     <= List.length (Endpoint.owned "vault-of-owner" Fixture.chainTx))%nat.
Proof.
  eexists. eexists. split; [reflexivity|].
  split; [vm_compute; reflexivity|].
  eapply (processTransaction_isolates_balances Sample.env Fixture.endpointLib
            "vault-of-owner" Fixture.chainTx Fixture.endpointWorld tt tt).
  - reflexivity.
  - vm_compute. reflexivity.
Defined.
